(** * mlib: a scalar math library written in Python, embedded in Rocq

    The module [mlib.py] works on Python numbers: unbounded integers and
    IEEE-754 binary64 floats.  Floats are modelled bit-exactly with the
    Standard Library's [spec_float] (sign, mantissa, exponent) and its
    correctly rounded operations at precision 53 and maximal exponent 1024.
    Exceptions are explicit: every function returns a [result]. *)

From Stdlib Require Import ZArith List Bool Lia Permutation Sorted.
From Stdlib Require Import Floats.SpecFloat Strings.Byte.
From Stdlib Require Import Factorial.
Import ListNotations.
Local Open Scope Z_scope.

(** ** Python numbers, exceptions and results *)

Inductive value : Type :=
| VInt (z : Z)
| VFloat (f : spec_float).

Inductive exn : Type :=
| AssertionError
| ZeroDivisionError
| OverflowError
| ValueError
| TypeError
| IndexError
| StructError.

(** [OutOfFuel] is not a Python outcome: it marks a [while] loop that was
    still running when the fuel given to the model ran out. *)
Inductive result (A : Type) : Type :=
| Ok (a : A)
| Raise (e : exn)
| OutOfFuel.

Arguments Ok {A} a.
Arguments Raise {A} e.
Arguments OutOfFuel {A}.

Definition bind {A B : Type} (m : result A) (k : A -> result B) : result B :=
  match m with
  | Ok a => k a
  | Raise e => Raise e
  | OutOfFuel => OutOfFuel
  end.

Notation "x <- m ;; k" := (bind m (fun x => k))
  (at level 61, m at next level, right associativity).
Notation "m ;;; k" := (bind m (fun _ => k))
  (at level 61, right associativity).

(** [assert c]: the condition may itself raise. *)
Definition assert (c : result bool) : result unit :=
  b <- c ;; if b then Ok tt else Raise AssertionError.

(** Python's short-circuit [and] on two conditions. *)
Definition and_then (c1 c2 : result bool) : result bool :=
  b <- c1 ;; if b then c2 else Ok false.

(** ** Binary64 arithmetic *)

Definition prec : Z := 53.
Definition emax : Z := 1024.

Definition fadd := SFadd prec emax.
Definition fsub := SFsub prec emax.
Definition fmul := SFmul prec emax.
Definition fdivide := SFdiv prec emax.

(** An integer as an exact (unrounded) mantissa at exponent 0. *)
Definition exact_of_Z (z : Z) : spec_float :=
  match z with
  | Z0 => S754_zero false
  | Zpos p => S754_finite false p 0
  | Zneg p => S754_finite true p 0
  end.

Definition is_inf (f : spec_float) : bool :=
  match f with S754_infinity _ => true | _ => false end.

Definition is_zero (f : spec_float) : bool :=
  match f with S754_zero _ => true | _ => false end.

(** [float(z)]: correctly rounded, [OverflowError] when out of range. *)
Definition float_of_int (z : Z) : result spec_float :=
  let f := binary_normalize prec emax z 0 false in
  if is_inf f then Raise OverflowError else Ok f.

Definition to_f (v : value) : result spec_float :=
  match v with
  | VInt z => float_of_int z
  | VFloat f => Ok f
  end.

(** A decimal literal [n / 10^k], rounded to the nearest double. *)
Definition decimal (n : Z) (k : Z) : spec_float :=
  fdivide (exact_of_Z n) (exact_of_Z (10 ^ k)).

(** The signed integer [m * 2^e] compared with [z], exactly. *)
Definition compare_scaled (m e z : Z) : comparison :=
  match e with
  | Zneg p => Z.compare m (z * 2 ^ (Zpos p))
  | _ => Z.compare (m * 2 ^ e) z
  end.

Definition compare_float_int (f : spec_float) (z : Z) : option comparison :=
  match f with
  | S754_nan => None
  | S754_infinity s => Some (if s then Lt else Gt)
  | S754_zero _ => Some (Z.compare 0 z)
  | S754_finite s m e => Some (compare_scaled (cond_Zopp s (Zpos m)) e z)
  end.

(** Python compares an int with a float by value, without rounding. *)
Definition py_compare (a b : value) : option comparison :=
  match a, b with
  | VInt x, VInt y => Some (Z.compare x y)
  | VFloat x, VFloat y => SFcompare x y
  | VFloat x, VInt y => compare_float_int x y
  | VInt x, VFloat y => option_map CompOpp (compare_float_int y x)
  end.

Definition py_eq (a b : value) : bool :=
  match py_compare a b with Some Eq => true | _ => false end.
Definition py_ne (a b : value) : bool := negb (py_eq a b).
Definition py_lt (a b : value) : bool :=
  match py_compare a b with Some Lt => true | _ => false end.
Definition py_gt (a b : value) : bool :=
  match py_compare a b with Some Gt => true | _ => false end.
Definition py_le (a b : value) : bool :=
  match py_compare a b with Some Lt | Some Eq => true | _ => false end.
Definition py_ge (a b : value) : bool :=
  match py_compare a b with Some Gt | Some Eq => true | _ => false end.

(** Arithmetic: int with int stays int; a float on either side makes the
    other operand a float first. *)
Definition arith (fi : Z -> Z -> Z) (ff : spec_float -> spec_float -> spec_float)
    (a b : value) : result value :=
  match a, b with
  | VInt x, VInt y => Ok (VInt (fi x y))
  | _, _ => x <- to_f a ;; y <- to_f b ;; Ok (VFloat (ff x y))
  end.

Definition py_add := arith Z.add fadd.
Definition py_sub := arith Z.sub fsub.
Definition py_mul := arith Z.mul fmul.

Definition py_neg (a : value) : value :=
  match a with
  | VInt x => VInt (- x)
  | VFloat f => VFloat (SFopp f)
  end.

(** True division [a / b]: a zero divisor raises; int by int is the
    correctly rounded quotient of the two integers. *)
Definition py_truediv (a b : value) : result value :=
  match a, b with
  | VInt x, VInt y =>
      if y =? 0 then Raise ZeroDivisionError
      else
        let q := fdivide (exact_of_Z x) (exact_of_Z y) in
        if is_inf q then Raise OverflowError else Ok (VFloat q)
  | _, _ =>
      x <- to_f a ;; y <- to_f b ;;
      if is_zero y then Raise ZeroDivisionError else Ok (VFloat (fdivide x y))
  end.

(** [int(a)]: truncation toward zero. *)
Definition py_int (a : value) : result Z :=
  match a with
  | VInt z => Ok z
  | VFloat S754_nan => Raise ValueError
  | VFloat (S754_infinity _) => Raise OverflowError
  | VFloat (S754_zero _) => Ok 0
  | VFloat (S754_finite s m e) =>
      Ok (cond_Zopp s (match e with
                       | Zneg p => Zpos m / 2 ^ (Zpos p)
                       | _ => Zpos m * 2 ^ e
                       end))
  end.

(** ** Constants *)

Definition PI : spec_float := Eval vm_compute in decimal 31415926535897932 16.
Definition TAU : spec_float := Eval vm_compute in decimal 62831853071795864 16.
Definition LN2 : spec_float := Eval vm_compute in decimal 6931471805599453 16.
Definition LN10 : spec_float := Eval vm_compute in decimal 23025850929940457 16.
Definition LOG2E : spec_float := Eval vm_compute in decimal 14426950408889634 16.

(** ** Expressions

    Operands are [result value]s evaluated left to right; numbers and
    floats are coerced into them, so a right-hand side reads as in the
    source. *)

Definition expr : Type := result value.
Definition ret (v : value) : expr := Ok v.
Coercion ret : value >-> expr.
Coercion VInt : Z >-> value.
Coercion VFloat : spec_float >-> value.

Definition lift2 (op : value -> value -> result value) (x y : expr) : expr :=
  a <- x ;; b <- y ;; op a b.

Definition neg (x : expr) : expr := a <- x ;; Ok (py_neg a).

Declare Scope py_scope.
Delimit Scope py_scope with py.
Bind Scope py_scope with expr.
Notation "x + y" := (lift2 py_add x y) : py_scope.
Notation "x - y" := (lift2 py_sub x y) : py_scope.
Notation "x * y" := (lift2 py_mul x y) : py_scope.
Notation "x / y" := (lift2 py_truediv x y) : py_scope.
Notation "- x" := (neg x) : py_scope.

(** ** Loops *)

(** [range(lo, hi)] *)
Definition range (lo hi : Z) : list Z :=
  map (fun i => lo + Z.of_nat i) (seq 0 (Z.to_nat (hi - lo))).

(** [for i in l: s = body i s] *)
Fixpoint for_each {S : Type} (l : list Z) (body : Z -> S -> result S) (s : S)
    : result S :=
  match l with
  | [] => Ok s
  | i :: l' => s' <- body i s ;; for_each l' body s'
  end.

(** A [for] loop whose body may [break]: the body returns the new state
    and whether to leave the loop. *)
Fixpoint for_break {S : Type} (l : list Z) (body : Z -> S -> result (S * bool))
    (s : S) : result S :=
  match l with
  | [] => Ok s
  | i :: l' =>
      sb <- body i s ;;
      if snd sb then Ok (fst sb) else for_break l' body (fst sb)
  end.

(** [while cond: s = body s], with at most [fuel] evaluations of [cond]. *)
Fixpoint while {S : Type} (fuel : nat) (cond : S -> result bool)
    (body : S -> result S) (s : S) : result S :=
  match fuel with
  | O => OutOfFuel
  | Datatypes.S n =>
      c <- cond s ;;
      if c then s' <- body s ;; while n cond body s' else Ok s
  end.

(** ** Sequences *)

(** [data[i]], a negative index counting from the end. *)
Definition get (data : list value) (i : Z) : result value :=
  let j := if i <? 0 then Z.of_nat (length data) + i else i in
  if j <? 0 then Raise IndexError
  else match nth_error data (Z.to_nat j) with
       | Some v => Ok v
       | None => Raise IndexError
       end.

Fixpoint update (data : list value) (n : nat) (v : value) : list value :=
  match data, n with
  | [], _ => []
  | _ :: t, O => v :: t
  | x :: t, Datatypes.S n' => x :: update t n' v
  end.

(** [data[i] = v] for an index that is not negative. *)
Definition set (data : list value) (i : Z) (v : value) : result (list value) :=
  if (i <? 0) || (Z.of_nat (length data) <=? i) then Raise IndexError
  else Ok (update data (Z.to_nat i) v).

(** ** The [struct] codec: [pack] and [unpack] with formats ['>f'] and ['>l']

    ['>f'] is a big-endian IEEE-754 binary32, ['>l'] a big-endian signed
    32-bit integer.  Packing a double with ['>f'] is C's cast to [float]:
    rounding to nearest even at precision 24. *)

Definition prec32 : Z := 24.
Definition emax32 : Z := 128.

Definition narrow (f : spec_float) : spec_float :=
  match f with
  | S754_finite s m e => binary_round prec32 emax32 s m e
  | _ => f
  end.

Definition widen (f : spec_float) : spec_float :=
  match f with
  | S754_finite s m e => binary_round prec emax s m e
  | _ => f
  end.

Definition sign_bit (s : bool) : Z := if s then Z.shiftl 1 31 else 0.

(** The 32 bits of a binary32: sign, 8 bits of biased exponent, 23 bits of
    fraction. *)
Definition bits_of_b32 (f : spec_float) : Z :=
  match f with
  | S754_zero s => sign_bit s
  | S754_infinity s => Z.lor (sign_bit s) (Z.shiftl 255 23)
  | S754_nan => Z.lor (Z.shiftl 255 23) (Z.shiftl 1 22)
  | S754_finite s m e =>
      if Zpos (digits2_pos m) =? prec32
      then Z.lor (sign_bit s)
             (Z.lor (Z.shiftl (e + 150) 23) (Zpos m - Z.shiftl 1 23))
      else Z.lor (sign_bit s) (Zpos m)
  end.

Definition b32_of_bits (u : Z) : spec_float :=
  let s := Z.testbit u 31 in
  let ex := Z.land (Z.shiftr u 23) 255 in
  let frac := Z.land u (Z.shiftl 1 23 - 1) in
  if ex =? 0 then
    match frac with
    | Zpos m => S754_finite s m (-149)
    | _ => S754_zero s
    end
  else if ex =? 255 then
    if frac =? 0 then S754_infinity s else S754_nan
  else
    match Z.lor frac (Z.shiftl 1 23) with
    | Zpos m => S754_finite s m (ex - 150)
    | _ => S754_nan
    end.

Definition byte_of_Z (z : Z) : Byte.byte :=
  match Byte.of_N (Z.to_N (Z.land z 255)) with
  | Some b => b
  | None => Byte.x00
  end.

Definition Z_of_byte (b : Byte.byte) : Z := Z.of_N (Byte.to_N b).

(** Four bytes, most significant first. *)
Definition be32 (u : Z) : list Byte.byte :=
  [byte_of_Z (Z.shiftr u 24); byte_of_Z (Z.shiftr u 16);
   byte_of_Z (Z.shiftr u 8); byte_of_Z u].

Definition of_be (s : list Byte.byte) : Z :=
  fold_left (fun acc b => Z.lor (Z.shiftl acc 8) (Z_of_byte b)) s 0.

(** The four bytes of a double packed as a binary32; a finite double too
    large for binary32 raises OverflowError. *)
Definition pack4 (x : spec_float) : result (list Byte.byte) :=
  let y := narrow x in
  if is_inf y && negb (is_inf x) then Raise OverflowError
  else Ok (be32 (bits_of_b32 y)).

(** [struct.pack('>f', a)].  An integer is converted to a double first, and
    for an integer every failure, of that conversion or of the packing, is
    reported as [struct.error]. *)
Definition pack_f (a : value) : result (list Byte.byte) :=
  match a with
  | VFloat x => pack4 x
  | VInt z =>
      match x <- float_of_int z ;; pack4 x with
      | Raise _ => Raise StructError
      | r => r
      end
  end.

Definition unpack_f (s : list Byte.byte) : result value :=
  if (length s =? 4)%nat then Ok (VFloat (widen (b32_of_bits (of_be s))))
  else Raise StructError.

Definition pack_l (a : value) : result (list Byte.byte) :=
  match a with
  | VInt z =>
      if (- 2 ^ 31 <=? z) && (z <? 2 ^ 31) then Ok (be32 (Z.land z (2 ^ 32 - 1)))
      else Raise StructError
  | VFloat _ => Raise StructError
  end.

Definition unpack_l (s : list Byte.byte) : result Z :=
  if (length s =? 4)%nat then
    let u := of_be s in
    Ok (if Z.testbit u 31 then u - 2 ^ 32 else u)
  else Raise StructError.

(** ** The functions of [mlib.py]

    Parameters annotated [float] take any number (callers pass ints such as
    [0] and [2]); parameters annotated [int] are integers here, and any
    number in the module [dyn] further down.  Functions that run a [while]
    loop take the fuel for it as first argument. *)

Module mlib.

Local Open Scope py_scope.

Definition is_nan (a : value) : result bool := Ok (py_ne a a).

Definition is_infinite (a : value) : result bool :=
  x <- a / a ;; y <- a / a ;; Ok (py_ne x y).

Definition is_finite (a : value) : result bool :=
  i <- is_infinite a ;;
  if negb i then n <- is_nan a ;; Ok (negb n) else Ok false.

Definition to_radian (deg : value) : result value :=
  assert (is_finite deg) ;;;
  deg * (PI / 180).

Definition to_degree (rad : value) : result value :=
  assert (is_finite rad) ;;;
  rad * (180 / PI).

Definition floor (a : value) : result Z :=
  assert (is_finite a) ;;;
  py_int a.

Definition ceil (a : value) : result Z :=
  assert (is_finite a) ;;;
  n <- py_int a ;;
  if py_gt a n then a1 <- a + 1 ;; py_int a1 else py_int a.

Definition round (a : value) : result Z :=
  assert (is_finite a) ;;;
  x <- a + decimal 5 1 ;;
  a1 <- a + 1 ;;
  n <- py_int a1 ;;
  if py_ge x n then a1 <- a + 1 ;; py_int a1 else py_int a.

Definition abs (a : value) : result value :=
  assert (is_finite a) ;;;
  if py_lt a 0 then - a else ret a.

Definition sqrt (a : value) : result value :=
  assert (and_then (is_finite a) (Ok (py_ge a 0))) ;;;
  if py_eq a 0 then Ok (VInt 0)
  else
    s <- for_each (range 1 18)
           (fun _ '((b, root) : value * value) =>
              x <- (b + (a / b)) / 2 ;; Ok (x, x))
           (a, VInt 0) ;;
    Ok (snd s).

Definition isqrt (a : value) : result value :=
  assert (is_finite a) ;;;
  1 / sqrt a.

Definition pow (base : value) (power : Z) : result value :=
  assert (and_then (is_finite base) (is_finite power)) ;;;
  if power =? 0 then Ok (VInt 1)
  else for_each (range 1 power) (fun _ (product : value) => product * base) base.


Definition to_bits (a : value) : result Z :=
  assert (is_finite a) ;;;
  s <- pack_f a ;;
  unpack_l s.

Definition to_float (a : value) : result value :=
  assert (is_finite a) ;;;
  s <- pack_l a ;;
  unpack_f s.

Definition qisqrt (a : value) : result value :=
  assert (is_finite a) ;;;
  x2 <- a * decimal 5 1 ;;
  i <- to_bits a ;;
  let i := (1597463007 - Z.shiftr i 1)%Z in
  y <- to_float i ;;
  y <- y * (decimal 15 1 - (x2 * y * y)) ;;
  y <- y * (decimal 15 1 - (x2 * y * y)) ;;
  Ok y.

Definition gcd (fuel : nat) (a b : Z) : result Z :=
  assert (and_then (is_finite a) (is_finite b)) ;;;
  let a := if a <? 0 then (- a)%Z else a in
  let b := if b <? 0 then (- b)%Z else b in
  s <- while fuel (fun '(a, b) => Ok (negb (b =? 0)))
         (fun '(a, b) => Ok (b, a mod b)) (a, b) ;;
  Ok (fst s).

Definition lcm (fuel : nat) (a b : Z) : result Z :=
  assert (and_then (is_finite a) (is_finite b)) ;;;
  result <- gcd fuel a b ;;
  if result =? 0 then Ok 0%Z
  else if (a * b >=? 0)%Z then Ok (a / result * b)%Z
  else Ok (- (a / result * b))%Z.

Definition fact (a : Z) : result Z :=
  assert (is_finite a) ;;;
  for_each (range 2 (a + 1)%Z) (fun i result => Ok (result * i)%Z) 1%Z.

Definition rem (a b : Z) : result Z :=
  assert (and_then (is_finite a) (and_then (is_finite b) (Ok (b >? 0)))) ;;;
  Ok (a mod b).

Definition fdiv (a b : value) : result Z :=
  assert (and_then (is_finite a) (and_then (is_finite b) (Ok (py_gt b 0)))) ;;;
  q <- a / b ;;
  floor q.

Definition is_prime (a : Z) : result bool :=
  assert (is_finite a) ;;;
  if a <? 2 then Ok false
  else if (a >? 2) && (a mod 2 =? 0) then Ok false
  else Ok (negb (existsb (fun i => a mod i =? 0) (range 2 (a / 2)%Z))).

(** The seven series terms after the first; [den i] is the divisor of
    term [i]. *)
Definition series (den : Z -> Z) (a first : value) : result value :=
  s <- for_each (range 1 8)
         (fun i '((result, term) : value * value) =>
            term <- term * (- a * a / den i) ;;
            result <- result + term ;;
            Ok (result, term))
         (first, first) ;;
  Ok (fst s).

(** The two reduction loops that [sin] and [cos] start with. *)
Definition reduce (fuel : nat) (a : value) : result value :=
  a <- while fuel (fun a => Ok (py_gt a PI)) (fun a => a - 2 * PI) a ;;
  while fuel (fun a => Ok (py_lt a (py_neg PI))) (fun a => a + 2 * PI) a.

Definition sin (fuel : nat) (a : value) : result value :=
  assert (is_finite a) ;;;
  a <- reduce fuel a ;;
  series (fun i => (2 * i) * (2 * i + 1))%Z a a.

Definition cos (fuel : nat) (a : value) : result value :=
  assert (is_finite a) ;;;
  a <- reduce fuel a ;;
  series (fun i => (2 * i - 1) * (2 * i))%Z a 1.

Definition tan (fuel : nat) (a : value) : result value :=
  assert (is_finite a) ;;;
  s <- sin fuel a ;;
  c <- cos fuel a ;;
  s / c.

Definition exp (a : value) : result value :=
  assert (is_finite a) ;;;
  if py_eq a 0 then Ok (VInt 1)
  else
    x <- a * LOG2E ;;
    k <- py_int x ;;
    r <- a - k * LN2 ;;
    result <- r + 1 ;;
    s <- for_break (range 2 13)
           (fun i '((result, term) : value * value) =>
              term <- term * (r / i) ;;
              result <- result + term ;;
              bound <- decimal 1 15 * result ;;
              Ok ((result, term), py_lt term bound))
           (result, r) ;;
    fst s * pow 2 k.

Definition sinh (a : value) : result value :=
  assert (is_finite a) ;;;
  if py_eq a 0 then Ok (VInt 0)
  else ea <- exp a ;; (ea - (1 / ea)) / 2.

Definition cosh (a : value) : result value :=
  assert (is_finite a) ;;;
  if py_eq a 0 then Ok (VInt 1)
  else ea <- exp a ;; (ea + (1 / ea)) / 2.

Definition tanh (a : value) : result value :=
  assert (is_finite a) ;;;
  if py_eq a 0 then Ok (VInt 0)
  else a2 <- 2 * a ;; ea <- exp a2 ;; (ea - 1) / (ea + 1).

Definition asin (a : value) : result value :=
  assert (and_then (is_finite a)
            (Ok (py_ge a (-1)%Z && py_le a 1))) ;;;
  a2 <- pow a 2 ;;
  a + a * a2 * (1 / 6 + a2 * (3 / 40 + a2 * (5 / 112 + a2 * 35 / 1152))).

Definition acos (a : value) : result value :=
  assert (and_then (is_finite a)
            (Ok (py_ge a (-1)%Z && py_le a 1))) ;;;
  (PI / 2) - asin a.

Definition atan (a : value) : result value :=
  assert (is_finite a) ;;;
  a / (decimal 128 2 * pow a 2).

Definition atan2 (a b : value) : result value :=
  assert (and_then (is_finite a) (is_finite b)) ;;;
  if py_eq b 0 then
    if py_gt a 0 then PI / 2
    else if py_lt a 0 then - PI / 2
    else Ok (VInt 0)
  else
    q <- a / b ;;
    result <- atan q ;;
    if py_lt b 0 then
      if py_ge a 0 then result + PI else result - PI
    else Ok result.

Definition sec (fuel : nat) (a : value) : result value :=
  assert (is_finite a) ;;;
  c <- cos fuel a ;;
  1 / c.

Definition csc (fuel : nat) (a : value) : result value :=
  assert (is_finite a) ;;;
  s <- sin fuel a ;;
  1 / s.

Definition cot (fuel : nat) (a : value) : result value :=
  assert (is_finite a) ;;;
  s <- sin fuel a ;;
  c <- cos fuel a ;;
  c / s.

Definition sech (a : value) : result value :=
  assert (is_finite a) ;;;
  if py_eq a 0 then Ok (VInt 1)
  else ea <- exp a ;; 2 / (ea + (1 / ea)).

Definition csch (a : value) : result value :=
  assert (is_finite a) ;;;
  ea <- exp a ;;
  2 / (ea - (1 / ea)).

Definition coth (a : value) : result value :=
  assert (is_finite a) ;;;
  a2 <- 2 * a ;;
  ea <- exp a2 ;;
  (ea + 1) / (ea - 1).

Definition min (a b : value) : result value :=
  assert (and_then (is_finite a) (is_finite b)) ;;;
  Ok (if py_lt a b then a else b).

Definition max (a b : value) : result value :=
  assert (and_then (is_finite a) (is_finite b)) ;;;
  Ok (if py_gt a b then a else b).

Definition clamp : value -> value -> value -> result value :=
  fun value min_val max_val =>
  assert (and_then (is_finite value)
            (and_then (is_finite min_val) (is_finite max_val))) ;;;
  if py_lt value min_val then Ok min_val
  else if py_gt value max_val then Ok max_val
  else Ok value.

(** The range reduction of [ln]: the reduced argument and the exponent. *)
Definition ln_reduce (fuel : nat) (a : value) : result (value * Z) :=
  s <- while fuel (fun '(a, _) => Ok (py_gt a 2))
         (fun '((a, exp) : value * Z) => a <- a / 2 ;; Ok (a, exp + 1)%Z)
         (a, 0%Z) ;;
  while fuel (fun '(a, _) => Ok (py_lt a 1))
    (fun '((a, exp) : value * Z) => a <- a * 2 ;; Ok (a, exp - 1)%Z) s.

Definition ln (fuel : nat) (a : value) : result value :=
  assert (and_then (is_finite a) (Ok (py_gt a 0))) ;;;
  if py_eq a 1 then Ok (VInt 0)
  else
    r <- ln_reduce fuel a ;;
    let '(a, exp) := r in
    a <- a - 1 ;;
    s <- while fuel
           (fun '(y, _, _) => m <- abs y ;; Ok (py_gt m (decimal 1 15)))
           (fun '((y, sum, i) : value * value * Z) =>
              let i := (i + 1)%Z in
              y <- y * (- a * (i - 1)%Z / i) ;;
              sum <- sum + y ;;
              Ok (y, sum, i))
           (a, a, 1%Z) ;;
    snd (fst s) + exp * LN2.

Definition log (fuel : nat) (a : value) (base : Z) : result value :=
  assert (and_then (is_finite a) (is_finite base)) ;;;
  ln fuel a / ln fuel base.

Definition log2 (fuel : nat) (a : value) : result value :=
  assert (is_finite a) ;;;
  ln fuel a / LN2.

Definition log10 (fuel : nat) (a : value) : result value :=
  assert (is_finite a) ;;;
  ln fuel a / LN10.

Definition asinh (fuel : nat) (a : value) : result value :=
  assert (is_finite a) ;;;
  x <- a * a + 1 ;;
  y <- a + sqrt x ;;
  ln fuel y.

Definition acosh (fuel : nat) (a : value) : result value :=
  assert (and_then (is_finite a) (Ok (py_ge a 1))) ;;;
  x <- a * a - 1 ;;
  y <- a + sqrt x ;;
  ln fuel y.

Definition atanh (fuel : nat) (a : value) : result value :=
  assert (and_then (is_finite a)
            (Ok (py_gt a (-1)%Z && py_lt a 1))) ;;;
  x <- (1 + a) / (1 - a) ;;
  decimal 5 1 * ln fuel x.

Definition len (data : list value) : Z := Z.of_nat (length data).

Definition sum (data : list value) : result value :=
  assert (and_then (is_finite (len data)) (Ok (len data >? 0))) ;;;
  for_each (range 0 (len data))
    (fun i (sum : value) => sum + get data i) (VInt 0).

Definition mean (data : list value) : result value :=
  assert (and_then (is_finite (len data)) (Ok (len data >? 0))) ;;;
  sum data / len data.

(** One comparison of the sort in [median], with its swap. *)
Definition compare_swap (j : Z) (data : list value) : result (list value) :=
  x <- get data j ;;
  y <- get data (j + 1)%Z ;;
  if py_gt x y then
    x' <- get data (j + 1)%Z ;;
    y' <- get data j ;;
    data <- set data j x' ;;
    set data (j + 1)%Z y'
  else Ok data.

(** [median] returns its value together with the list as the call leaves
    it: the caller's list is sorted in place. *)
Definition median (data : list value) : result (value * list value) :=
  assert (and_then (is_finite (len data)) (Ok (len data >? 0))) ;;;
  let size := len data in
  data <- for_each (range 0 (size - 1)%Z)
            (fun i data => for_each (range 0 (size - i - 1)%Z) compare_swap data)
            data ;;
  if size mod 2 =? 0 then
    m <- (get data (size / 2 - 1)%Z + get data (size / 2)%Z) / 2 ;;
    Ok (m, data)
  else
    m <- get data (size / 2)%Z ;;
    Ok (m, data).

Definition mode (data : list value) : result value :=
  assert (and_then (is_finite (len data)) (Ok (len data >? 0))) ;;;
  mode <- get data 0 ;;
  s <- for_each (range 1 (len data))
         (fun i '((mode, max_count, current_count) : value * Z * Z) =>
            x <- get data i ;;
            y <- get data (i - 1)%Z ;;
            if py_eq x y then Ok (mode, max_count, current_count + 1)%Z
            else if current_count >? max_count then
              mode <- get data (i - 1)%Z ;; Ok (mode, current_count, 1%Z)
            else Ok (mode, max_count, 1%Z))
         (mode, 1%Z, 1%Z) ;;
  let '(mode, max_count, current_count) := s in
  if current_count >? max_count then get data (-1)%Z else Ok mode.

Definition stddev (data : list value) : result value :=
  assert (and_then (is_finite (len data)) (Ok (len data >? 1))) ;;;
  let size := len data in
  m <- mean data ;;
  sum <- for_each (range 0 size)
           (fun i (sum : value) =>
              diff <- get data i - m ;;
              sum + diff * diff)
           (VInt 0) ;;
  q <- sum / (size - 1)%Z ;;
  sqrt q.

End mlib.

(** ** Vocabulary of the properties *)

Definition one : spec_float := S754_finite false 4503599627370496 (-52).

(** How the finiteness test sees a number. *)
Inductive class : Type := Zero | NonFinite | Finite.

Definition classify (v : value) : class :=
  match v with
  | VInt 0 => Zero
  | VInt _ => Finite
  | VFloat (S754_zero _) => Zero
  | VFloat (S754_finite _ _ _) => Finite
  | VFloat _ => NonFinite
  end.

(** The number is [0], [0.0] or [-0.0]. *)
Definition zero (v : value) : bool :=
  match classify v with Zero => true | _ => false end.

(** The number is NaN or an infinity. *)
Definition nonfinite (v : value) : bool :=
  match classify v with NonFinite => true | _ => false end.


Definition discard {A : Type} (r : result A) : result unit := r ;;; Ok tt.

(** The functions of one number that start with [assert is_finite(a)]. *)
Definition unary (fuel : nat) : list (value -> result unit) :=
  [ fun a => discard (mlib.to_bits a); fun a => discard (mlib.to_float a);
    fun a => discard (mlib.to_radian a); fun a => discard (mlib.to_degree a);
    fun a => discard (mlib.floor a); fun a => discard (mlib.ceil a);
    fun a => discard (mlib.round a); fun a => discard (mlib.abs a);
    fun a => discard (mlib.sqrt a); fun a => discard (mlib.isqrt a);
    fun a => discard (mlib.qisqrt a);
    fun a => discard (mlib.sin fuel a); fun a => discard (mlib.cos fuel a);
    fun a => discard (mlib.tan fuel a);
    fun a => discard (mlib.sinh a); fun a => discard (mlib.cosh a);
    fun a => discard (mlib.tanh a);
    fun a => discard (mlib.asin a); fun a => discard (mlib.acos a);
    fun a => discard (mlib.atan a);
    fun a => discard (mlib.asinh fuel a); fun a => discard (mlib.acosh fuel a);
    fun a => discard (mlib.atanh fuel a);
    fun a => discard (mlib.sec fuel a); fun a => discard (mlib.csc fuel a);
    fun a => discard (mlib.cot fuel a);
    fun a => discard (mlib.sech a); fun a => discard (mlib.csch a);
    fun a => discard (mlib.coth a);
    fun a => discard (mlib.exp a); fun a => discard (mlib.ln fuel a);
    fun a => discard (mlib.log2 fuel a); fun a => discard (mlib.log10 fuel a) ].

(** The functions of two numbers that start with
    [assert is_finite(a) and is_finite(b)]. *)
Definition binary : list (value -> value -> result unit) :=
  [ fun a b => discard (mlib.atan2 a b); fun a b => discard (mlib.min a b);
    fun a b => discard (mlib.max a b); fun a b => discard (mlib.fdiv a b) ].

(** The functions of integers, with the same assertion on each. *)
Definition unary_int : list (Z -> result unit) :=
  [ fun a => discard (mlib.fact a); fun a => discard (mlib.is_prime a) ].

Definition binary_int (fuel : nat) : list (Z -> Z -> result unit) :=
  [ fun a b => discard (mlib.gcd fuel a b); fun a b => discard (mlib.lcm fuel a b);
    fun a b => discard (mlib.rem a b) ].

Definition two : spec_float := S754_finite false 4503599627370496 (-51).
Definition pos_zero : spec_float := S754_zero false.
Definition four : spec_float := S754_finite false 4503599627370496 (-50).
Definition one_and_half : spec_float := S754_finite false 6755399441055744 (-52).
(** [2^57], a finite double. *)
Definition two_to_57 : spec_float := S754_finite false 4503599627370496 5.
Definition two_to_56 : spec_float := S754_finite false 4503599627370496 4.
(** The largest finite double, [(2^53 - 1) * 2^971]. *)
Definition max_double : spec_float := S754_finite false 9007199254740991 971.
Definition half : spec_float := Eval vm_compute in decimal 5 1.
Definition tenth : spec_float := Eval vm_compute in decimal 1 1.

(** ** The sort of [median], by structure

    One pass of [k] comparisons from the front of the list, and the passes
    of the outer loop: the first of [k] comparisons, the next of [k - 1],
    and so on. *)

Section Bubble.
Context {A : Type}.
Variable gt : A -> A -> bool.


End Bubble.



(** ** Doubles as numbers

    Every finite double is an integer multiple of [2^-1074]; [Zval] is that
    integer. *)

Definition Zval (f : spec_float) : Z :=
  match f with
  | S754_finite s m e => cond_Zopp s (Zpos m * 2 ^ (e + 1074))
  | _ => 0
  end.

(** A finite double: a zero, or a sign with a mantissa and an exponent in
    the normalised form of binary64. *)
Definition double (f : spec_float) : bool :=
  match f with
  | S754_zero _ => true
  | S754_finite _ m e => bounded prec emax m e
  | _ => false
  end.

(** [r] is a double nearest to the number [d]. *)
Definition nearest (r d : Z) : Prop :=
  forall f, double f = true -> Z.abs (r - d) <= Z.abs (Zval f - d).


(** Where [iter_pos shr_1] stands after [k] shifts of the mantissa [M]:
    the quotient, and the remainder as the two bits [shr_r] and [shr_s]
    read it (nothing, below half, half, above half). *)
Definition shr_inv (M k : Z) (rec : shr_record) : Prop :=
  0 <= shr_m rec /\
  exists rem,
    M = shr_m rec * 2 ^ k + rem /\ 0 <= rem < 2 ^ k /\
    match shr_r rec, shr_s rec with
    | false, false => rem = 0
    | false, true => 0 < 2 * rem < 2 ^ k
    | true, false => 2 * rem = 2 ^ k
    | true, true => 2 ^ k < 2 * rem
    end.

(** ** [mode] on a list

    The loop of [mode] looks at each element and the one before it; on a
    list taken apart from the left that is [mode_scan], with [prev] the
    element just before the rest [l]. *)
Definition mode_step (prev y : Z) (st : Z * Z * Z) : Z * Z * Z :=
  let '(mode, max_count, current_count) := st in
  if y =? prev then (mode, max_count, current_count + 1)
  else if current_count >? max_count then (prev, current_count, 1)
  else (mode, max_count, 1).

Fixpoint mode_scan (prev : Z) (l : list Z) (st : Z * Z * Z) : Z * Z * Z :=
  match l with
  | [] => st
  | y :: l' => mode_scan y l' (mode_step prev y st)
  end.

(** [v] occurs [k] times in a row somewhere in [zs]. *)
Definition run (zs : list Z) (v : Z) (k : nat) : Prop :=
  exists p t, zs = p ++ repeat v k ++ t.

(** What the loop of [mode] knows after the elements [pre], the last of
    them [x]: the run of [x] that ends [pre] has length [current_count],
    [mode] has a run of length [max_count], and no run is longer than
    both. *)
Definition mode_inv (pre : list Z) (x : Z) (st : Z * Z * Z) : Prop :=
  let '(mode, max_count, current_count) := st in
  1 <= max_count /\ 1 <= current_count /\
  (exists q, pre = q ++ repeat x (Z.to_nat current_count) /\
             forall q' z, q = q' ++ [z] -> z <> x) /\
  run pre mode (Z.to_nat max_count) /\
  forall v j, run pre v j -> Z.of_nat j <= Z.max max_count current_count.

(** ** Python's [%], [//] and [range] on any numbers

    On two integers [%] and [//] are the floored division of integers; a
    float on either side makes the other operand a float, and the result is
    the float remainder or quotient as the interpreter computes it from C's
    [fmod] and [floor].  [range] takes integers only. *)

Definition sign_of (f : spec_float) : bool :=
  match f with
  | S754_zero s | S754_infinity s | S754_finite s _ _ => s
  | S754_nan => false
  end.

(** C's [fmod]: the remainder of the truncated quotient, exact, with the
    sign of [x]. *)
Definition fmod (x y : spec_float) : spec_float :=
  match x, y with
  | S754_nan, _ | _, S754_nan => S754_nan
  | S754_infinity _, _ | _, S754_zero _ => S754_nan
  | _, S754_infinity _ | S754_zero _, _ => x
  | S754_finite s _ _, S754_finite _ _ _ =>
      binary_normalize prec emax (Z.rem (Zval x) (Zval y)) (-1074) s
  end.

(** C's [floor]. *)
Definition ffloor (x : spec_float) : spec_float :=
  match x with
  | S754_finite s _ _ => binary_normalize prec emax (Zval x / 2 ^ 1074) 0 s
  | _ => x
  end.

(** [x % y] on floats: the remainder takes the sign of [y]. *)
Definition float_rem (x y : spec_float) : result spec_float :=
  if is_zero y then Raise ZeroDivisionError
  else
    let m := fmod x y in
    if is_zero m then Ok (S754_zero (sign_of y))
    else if xorb (SFltb y pos_zero) (SFltb m pos_zero) then Ok (fadd m y)
    else Ok m.

(** [x // y] on floats: the quotient of [x] less the remainder, moved to
    the integer below. *)
Definition float_floordiv (x y : spec_float) : result spec_float :=
  if is_zero y then Raise ZeroDivisionError
  else
    let m := fmod x y in
    let div := fdivide (fsub x m) y in
    let div :=
      if negb (is_zero m) && xorb (SFltb y pos_zero) (SFltb m pos_zero)
      then fsub div one else div in
    if is_zero div then Ok (S754_zero (sign_of (fdivide x y)))
    else
      let f := ffloor div in
      if SFltb half (fsub div f) then Ok (fadd f one) else Ok f.

Definition py_mod (a b : value) : result value :=
  match a, b with
  | VInt x, VInt y =>
      if y =? 0 then Raise ZeroDivisionError else Ok (VInt (x mod y))
  | _, _ => x <- to_f a ;; y <- to_f b ;; r <- float_rem x y ;; Ok (VFloat r)
  end.

Definition py_floordiv (a b : value) : result value :=
  match a, b with
  | VInt x, VInt y =>
      if y =? 0 then Raise ZeroDivisionError else Ok (VInt (x / y))
  | _, _ => x <- to_f a ;; y <- to_f b ;; q <- float_floordiv x y ;; Ok (VFloat q)
  end.

(** [range(lo, hi)]: a float raises TypeError. *)
Definition py_range (lo hi : value) : result (list Z) :=
  match lo, hi with
  | VInt l, VInt h => Ok (range l h)
  | _, _ => Raise TypeError
  end.

(** ** The functions annotated [int], called with any number

    Python does not check annotations: [gcd], [lcm], [fact], [rem] and
    [is_prime], the power of [pow] and the base of [log] can be given a
    float, a NaN or an infinity among them.  In [dyn] the same source lines
    are read with every operation on numbers; on integers these functions
    are those of [mlib]. *)

Module dyn.

Local Open Scope py_scope.

Definition gcd (fuel : nat) (a b : value) : result value :=
  assert (and_then (mlib.is_finite a) (mlib.is_finite b)) ;;;
  a <- (if py_lt a 0 then - a else ret a) ;;
  b <- (if py_lt b 0 then - b else ret b) ;;
  s <- while fuel (fun '(a, b) => Ok (py_ne b 0))
         (fun '((a, b) : value * value) => r <- py_mod a b ;; Ok (b, r))
         (a, b) ;;
  Ok (fst s).

Definition lcm (fuel : nat) (a b : value) : result value :=
  assert (and_then (mlib.is_finite a) (mlib.is_finite b)) ;;;
  result <- gcd fuel a b ;;
  if py_eq result 0 then Ok (VInt 0)
  else
    p <- a * b ;;
    if py_ge p 0 then lift2 py_floordiv a result * b
    else - (lift2 py_floordiv a result * b).

Definition fact (a : value) : result value :=
  assert (mlib.is_finite a) ;;;
  n <- a + 1 ;;
  l <- py_range 2 n ;;
  for_each l (fun i (result : value) => result * i) (VInt 1).

Definition rem (a b : value) : result value :=
  assert (and_then (mlib.is_finite a)
            (and_then (mlib.is_finite b) (Ok (py_gt b 0)))) ;;;
  py_mod a b.

Definition pow (base power : value) : result value :=
  assert (and_then (mlib.is_finite base) (mlib.is_finite power)) ;;;
  if py_eq power 0 then Ok (VInt 1)
  else
    l <- py_range 1 power ;;
    for_each l (fun _ (product : value) => product * base) base.

Definition is_prime (a : value) : result bool :=
  assert (mlib.is_finite a) ;;;
  if py_lt a 2 then Ok false
  else
    even <- (if py_gt a 2 then m <- py_mod a 2 ;; Ok (py_eq m 0) else Ok false) ;;
    if even then Ok false
    else
      h <- py_floordiv a 2 ;;
      l <- py_range 2 h ;;
      found <- for_break l
                 (fun i (_ : bool) =>
                    m <- py_mod a i ;; Ok (py_eq m 0, py_eq m 0))
                 false ;;
      Ok (negb found).

Definition log (fuel : nat) (a base : value) : result value :=
  assert (and_then (mlib.is_finite a) (mlib.is_finite base)) ;;;
  mlib.ln fuel a / mlib.ln fuel base.

End dyn.




(** * Properties *)

(** ** The finiteness test *)

Lemma div_core_self (m : positive) (e : Z) :
  SFdiv_core_binary prec emax (Zpos m) e (Zpos m) e = (2 ^ 53, -53, loc_Exact).
Proof.
  unfold SFdiv_core_binary.
  replace (Zdigits2 (Zpos m) + e - (Zdigits2 (Zpos m) + e)) with 0 by lia.
  replace (e - e) with 0 by lia.
  change (Z.min (fexp prec emax 0) 0) with (-53).
  change (0 - -53) with 53.
  cbv iota beta.
  rewrite Z.shiftl_mul_pow2 by lia.
  assert (H : Z.div_eucl (Zpos m * 2 ^ 53) (Zpos m) = (2 ^ 53, 0)).
  { generalize (Z.div_eucl_eq (Zpos m * 2 ^ 53) (Zpos m)).
    generalize (Z.mod_pos_bound (Zpos m * 2 ^ 53) (Zpos m)).
    unfold Z.modulo, Z.div.
    destruct (Z.div_eucl (Zpos m * 2 ^ 53) (Zpos m)) as [q r].
    intros Hb Hq. specialize (Hb ltac:(lia)). specialize (Hq ltac:(lia)).
    assert (q = 2 ^ 53) by nia. subst q. f_equal. lia. }
  rewrite H. unfold new_location.
  destruct (Z.even (Zpos m)); reflexivity.
Qed.

(** A finite non-zero float divided by itself is exactly [1.0]. *)
Lemma fdivide_self (s : bool) (m : positive) (e : Z) :
  fdivide (S754_finite s m e) (S754_finite s m e) = one.
Proof.
  unfold fdivide, SFdiv. rewrite div_core_self.
  rewrite xorb_nilpotent. reflexivity.
Qed.

Lemma SFcompare_refl (s : bool) (m : positive) (e : Z) :
  SFcompare (S754_finite s m e) (S754_finite s m e) = Some Eq.
Proof.
  simpl. rewrite Z.compare_refl.
  change (Pos.compare_cont Eq m m) with (Pos.compare m m).
  rewrite Pos.compare_refl. destruct s; reflexivity.
Qed.

Lemma py_truediv_self (v : value) :
  classify v = Finite -> py_truediv v v = Ok (VFloat one).
Proof.
  destruct v as [[ | p | p] | [s | s | | s m e]]; try discriminate; intros _;
    unfold py_truediv, to_f, bind; cbn [exact_of_Z Z.eqb is_zero];
    rewrite fdivide_self; reflexivity.
Qed.

Lemma py_ne_self (v : value) :
  classify v = Finite -> py_ne v v = false.
Proof.
  destruct v as [[ | p | p] | [s | s | | s m e]]; try discriminate; intros _;
    unfold py_ne, py_eq, py_compare.
  - rewrite Z.compare_refl. reflexivity.
  - rewrite Z.compare_refl. reflexivity.
  - rewrite SFcompare_refl. reflexivity.
Qed.

(** [is_finite] raises on a zero, answers [False] on NaN and the
    infinities, and [True] on every other number. *)
Lemma is_finite_spec (v : value) :
  mlib.is_finite v =
  match classify v with
  | Zero => Raise ZeroDivisionError
  | NonFinite => Ok false
  | Finite => Ok true
  end.
Proof.
  destruct (classify v) eqn:C.
  - destruct v as [[ | p | p] | [s | s | | s m e]]; try discriminate; reflexivity.
  - destruct v as [[ | p | p] | [s | s | | s m e]]; try discriminate; reflexivity.
  - unfold mlib.is_finite, mlib.is_infinite, mlib.is_nan, lift2, ret.
    cbn [bind]. rewrite (py_truediv_self v C). cbn [bind].
    rewrite (py_ne_self v C). reflexivity.
Qed.

Lemma is_finite_zero (v : value) :
  zero v = true -> mlib.is_finite v = Raise ZeroDivisionError.
Proof.
  unfold zero. rewrite is_finite_spec.
  destruct (classify v); intros H; try discriminate; reflexivity.
Qed.


Lemma is_finite_int (z : Z) :
  z <> 0 -> mlib.is_finite (VInt z) = Ok true.
Proof.
  intros H. rewrite is_finite_spec.
  destruct z; [contradiction | reflexivity | reflexivity].
Qed.

(** Every outcome of the finiteness test. *)
Lemma is_finite_cases (v : value) :
  mlib.is_finite v = Raise ZeroDivisionError \/
  mlib.is_finite v = Ok false \/ mlib.is_finite v = Ok true.
Proof.
  rewrite is_finite_spec. destruct (classify v); auto.
Qed.

Create HintDb entry discriminated.
#[local] Hint Unfold discard
  mlib.to_bits mlib.to_float mlib.to_radian mlib.to_degree mlib.floor
  mlib.ceil mlib.round mlib.abs mlib.sqrt mlib.isqrt mlib.qisqrt mlib.sin
  mlib.cos mlib.tan mlib.sinh mlib.cosh mlib.tanh mlib.asin mlib.acos
  mlib.atan mlib.asinh mlib.acosh mlib.atanh mlib.sec mlib.csc mlib.cot
  mlib.sech mlib.csch mlib.coth mlib.exp mlib.ln mlib.log2 mlib.log10
  mlib.atan2 mlib.min mlib.max mlib.fdiv mlib.fact mlib.is_prime mlib.gcd
  mlib.lcm mlib.rem mlib.pow mlib.log mlib.clamp : entry.

(** The assertion that opens a function decides the call once the
    finiteness test of its first operand is known. *)
Ltac open_assert := cbv beta; autounfold with entry; unfold and_then.

Ltac by_assert H := open_assert; rewrite ?H; reflexivity.

(** A second operand that fails the test after any first operand. *)
Ltac by_second a H :=
  open_assert; rewrite ?H;
  destruct (is_finite_cases a) as [E | [E | E]]; rewrite E;
  cbn [bind assert]; rewrite ?H; auto.

(** ** C1: a zero argument raises ZeroDivisionError everywhere *)

(** C1. [is_infinite(0)] divides zero by zero and raises
    ZeroDivisionError, hence so does [is_finite(0)], and with it every
    function that starts with a finiteness assertion when it is called
    with the argument [0] ([0], [0.0] or [-0.0]): the functions of one
    number, the functions of two numbers with the zero first, or second
    after a number that passes the test, and the integer functions.  The
    code after the assertion, zero short-circuits included, is never
    reached. *)
Theorem zero_argument_raises (fuel : nat) (z : value) :
  zero z = true ->
  mlib.is_infinite z = Raise ZeroDivisionError /\
  mlib.is_finite z = Raise ZeroDivisionError /\
  Forall (fun f => f z = Raise ZeroDivisionError) (unary fuel) /\
  Forall (fun f => forall b, f z b = Raise ZeroDivisionError) binary /\
  Forall (fun f => forall a, mlib.is_finite a = Ok true ->
                             f a z = Raise ZeroDivisionError) binary /\
  (forall p, mlib.pow z p = Raise ZeroDivisionError) /\
  (forall base, mlib.is_finite base = Ok true ->
                mlib.pow base 0 = Raise ZeroDivisionError) /\
  (forall b, mlib.log fuel z b = Raise ZeroDivisionError) /\
  (forall lo hi, mlib.clamp z lo hi = Raise ZeroDivisionError) /\
  Forall (fun f => f 0 = Raise ZeroDivisionError) unary_int /\
  Forall (fun f => forall b, f 0 b = Raise ZeroDivisionError) (binary_int fuel) /\
  Forall (fun f => forall a, a <> 0 -> f a 0 = Raise ZeroDivisionError)
    (binary_int fuel).
Proof.
  intros Hz. pose proof (is_finite_zero z Hz) as H.
  assert (H0 : mlib.is_finite (VInt 0) = Raise ZeroDivisionError) by reflexivity.
  split.
  { destruct z as [[ | p | p] | [s | s | | s m e]]; try discriminate; reflexivity. }
  split; [exact H | ].
  split; [unfold unary; repeat constructor; by_assert H | ].
  split; [unfold binary; repeat constructor; intros b; by_assert H | ].
  split.
  { unfold binary; repeat constructor; intros a Ha; open_assert;
      rewrite Ha; cbn [bind]; rewrite H; reflexivity. }
  split; [intros p; by_assert H | ].
  split.
  { intros base Hb. open_assert. rewrite Hb. cbn [bind]. rewrite H0. reflexivity. }
  split; [intros b; by_assert H | ].
  split; [intros lo hi; by_assert H | ].
  split; [unfold unary_int; repeat constructor; by_assert H0 | ].
  split; [unfold binary_int; repeat constructor; intros b; by_assert H0 | ].
  unfold binary_int; repeat constructor; intros a Ha; open_assert;
    rewrite (is_finite_int a Ha); cbn [bind]; rewrite H0; reflexivity.
Qed.

Lemma zero_argument_raises_witness :
  zero (VInt 0) = true /\
  Forall (fun f => f (VInt 0) = Raise ZeroDivisionError) (unary 10).
Proof.
  split; [reflexivity | ].
  apply (zero_argument_raises 10 (VInt 0)). reflexivity.
Defined.

(** ** C2: [sqrt(0)] *)

(** C2. [sqrt(0)] does not return [0]: the finiteness assertion raises
    ZeroDivisionError before the test [a == 0] is reached, for the integer
    [0] and for both float zeros. *)
Theorem sqrt_zero_raises :
  mlib.sqrt (VInt 0) = Raise ZeroDivisionError /\
  forall s, mlib.sqrt (VFloat (S754_zero s)) = Raise ZeroDivisionError.
Proof.
  split; [reflexivity | intros s; reflexivity].
Qed.

(** ** C3: the round trip of [to_bits] and [to_float] at zero *)

(** C3. The round trip [to_float(to_bits(x))] does not give back [x] for
    the two zeros, which are finite binary32 floats: the finiteness
    assertion of [to_bits] raises ZeroDivisionError on [0.0] and on [-0.0],
    so nothing is passed on to [to_float]; and [to_float] raises the same
    error on the integer [0], the bits of [0.0]. *)
Theorem round_trip_zero_raises (s : bool) :
  mlib.to_bits (VFloat (S754_zero s)) = Raise ZeroDivisionError /\
  (bits <- mlib.to_bits (VFloat (S754_zero s)) ;; mlib.to_float (VInt bits))
  = Raise ZeroDivisionError /\
  mlib.to_float (VInt 0) = Raise ZeroDivisionError.
Proof. repeat split. Qed.

(** ** C5: [pow] with a negative power *)

(** C5, as stated, fails for the finite base [0.0]: the assertion raises. *)
Lemma pow_zero_base_raises :
  mlib.pow (VFloat pos_zero) (-1) = Raise ZeroDivisionError.
Proof. reflexivity. Qed.

Lemma range_empty (lo hi : Z) : hi <= lo -> range lo hi = [].
Proof.
  intros H. unfold range.
  replace (Z.to_nat (hi - lo)) with O by lia. reflexivity.
Qed.

(** C5, amended. For every finite non-zero base and every negative
    integer power [p], [pow(base, p)] returns [base] itself: [range(1, p)]
    is empty, so the multiplication loop does not run, and the only special
    case, [power == 0], is not taken. *)
Theorem pow_negative_power (base : value) (p : Z) :
  classify base = Finite -> p < 0 -> mlib.pow base p = Ok base.
Proof.
  intros Hb Hp. unfold mlib.pow, and_then.
  rewrite (is_finite_spec base), Hb. cbn [bind].
  rewrite (is_finite_int p) by lia. cbn [bind assert].
  destruct (Z.eqb_spec p 0) as [E | _]; [lia | ].
  rewrite range_empty by lia. reflexivity.
Qed.

Lemma pow_negative_power_witness :
  mlib.pow (VFloat two) (-3) = Ok (VFloat two).
Proof.
  apply (pow_negative_power (VFloat two) (-3)); [reflexivity | lia].
Defined.

(** ** C6: [atan2] with a zero second argument *)

(** C6. [atan2(a, 0)] never returns: the assertion raises
    ZeroDivisionError on the zero, or AssertionError when [a] is NaN or
    infinite, so the branch [b == 0] with its values [pi/2], [-pi/2] and
    [0] is not reached. *)
Theorem atan2_zero_raises (a : value) :
  let outcome : result value :=
    if nonfinite a then Raise AssertionError else Raise ZeroDivisionError in
  mlib.atan2 a (VInt 0) = outcome /\
  forall s, mlib.atan2 a (VFloat (S754_zero s)) = outcome.
Proof.
  cbv zeta. unfold mlib.atan2, and_then, nonfinite.
  rewrite (is_finite_spec a).
  destruct (classify a); split; try intros s; reflexivity.
Qed.

(** ** Loops and fuel *)

(** More fuel does not change the outcome of a loop that ended. *)
Lemma while_more_fuel {S : Type} (cond : S -> result bool)
    (body : S -> result S) (n m : nat) (s : S) :
  while n cond body s <> OutOfFuel -> (n <= m)%nat ->
  while m cond body s = while n cond body s.
Proof.
  revert m s. induction n as [ | n IH]; intros m s H Hle.
  - contradiction H. reflexivity.
  - destruct m as [ | m]; [lia | ].
    cbn [while] in *.
    destruct (cond s) as [[ | ] | e | ]; cbn [bind] in *; try reflexivity.
    destruct (body s) as [s' | e | ]; cbn [bind] in *; try reflexivity.
    apply IH; [exact H | lia].
Qed.

(** A loop whose body leaves the state as it is, with the condition true,
    uses up any fuel. *)
Lemma while_stuck {S : Type} (cond : S -> result bool)
    (body : S -> result S) (s : S) :
  cond s = Ok true -> body s = Ok s ->
  forall fuel, while fuel cond body s = OutOfFuel.
Proof.
  intros Hc Hb fuel. induction fuel as [ | n IH]; [reflexivity | ].
  cbn [while]. rewrite Hc. cbn [bind]. rewrite Hb. cbn [bind]. exact IH.
Qed.

Lemma bind_more_fuel {A B : Type} (f g : result A) (k k' : A -> result B) :
  (f <> OutOfFuel -> g = f) ->
  (forall a, f = Ok a -> k a <> OutOfFuel -> k' a = k a) ->
  bind f k <> OutOfFuel -> bind g k' = bind f k.
Proof.
  intros Hf Hk H.
  destruct f as [a | e | ] eqn:E.
  - rewrite Hf by discriminate. cbn [bind] in *. apply Hk; [reflexivity | exact H].
  - rewrite Hf by discriminate. reflexivity.
  - contradiction H. reflexivity.
Qed.

Lemma ln_reduce_more_fuel (n m : nat) (a : value) :
  mlib.ln_reduce n a <> OutOfFuel -> (n <= m)%nat ->
  mlib.ln_reduce m a = mlib.ln_reduce n a.
Proof.
  intros H Hle. unfold mlib.ln_reduce in *.
  apply bind_more_fuel; [ | | exact H].
  - intros H1. apply while_more_fuel; assumption.
  - intros s _ H2. apply while_more_fuel; assumption.
Qed.

Lemma ln_more_fuel (n m : nat) (a : value) :
  mlib.ln n a <> OutOfFuel -> (n <= m)%nat -> mlib.ln m a = mlib.ln n a.
Proof.
  intros H Hle. unfold mlib.ln in *.
  apply bind_more_fuel; [intros _; reflexivity | | exact H].
  intros _ _. destruct (py_eq a 1); [reflexivity | ].
  intros H1. apply bind_more_fuel; [ | | exact H1].
  - intros H2. apply ln_reduce_more_fuel; assumption.
  - intros [a' e'] _ H2.
    apply bind_more_fuel; [intros _; reflexivity | | exact H2].
    intros x _ H3.
    apply bind_more_fuel; [ | intros; reflexivity | exact H3].
    intros H4. apply while_more_fuel; assumption.
Qed.

(** ** C7: the range reduction of [ln] *)

(** C7. At [a = 2.0] the first loop of [ln], [while a > 2], does not run,
    and the reduced argument is [2.0], outside [[1, 2)]; the same happens
    from [4.0], halved once.  The series is then evaluated at [a - 1 = 1.0]. *)
Theorem ln_reduce_two (fuel : nat) :
  mlib.ln_reduce (S fuel) (VFloat two) = Ok (VFloat two, 0) /\
  mlib.ln_reduce (S (S fuel)) (VFloat four) = Ok (VFloat two, 1) /\
  py_lt (VFloat two) (VInt 2) = false /\
  py_sub (VFloat two) (VInt 1) = Ok (VFloat one).
Proof. repeat split. Qed.

(** ** C4: [exp] after [ln], [ln] after [exp] *)

Lemma ln_at (n : nat) (a : value) (r : result value) (fuel : nat) :
  mlib.ln n a = r -> r <> OutOfFuel -> (n <= fuel)%nat -> mlib.ln fuel a = r.
Proof.
  intros E H Hle. subst r. apply ln_more_fuel; assumption.
Qed.

Lemma ln_one_and_half :
  mlib.ln 100 (VFloat one_and_half)
  = Ok (VFloat (S754_finite false 7304210039150669 (-54))).
Proof. vm_compute. reflexivity. Qed.

Lemma ln_tenth :
  mlib.ln 100 (VFloat tenth)
  = Ok (VFloat (S754_finite true 5184960683398422 (-51))).
Proof. vm_compute. reflexivity. Qed.

(** C4. The round trip fails on positive arguments.  At [a = 1.5],
    [exp(ln(a))] raises ZeroDivisionError: [ln(1.5)] is below [ln 2], the
    exponent [k] is [0], and [pow(2, 0)] asserts [is_finite(0)].  At
    [a = 0.1], [exp(ln(a))] returns a number above [1.5]: [k] is negative
    and [pow(2, k)] returns [2].  At [a = 0.5], [ln(exp(a))] raises for the
    same reason as at [1.5]. *)
Theorem exp_ln_round_trip_fails (fuel : nat) :
  (100 <= fuel)%nat ->
  (r <- mlib.ln fuel (VFloat one_and_half) ;; mlib.exp r)
    = Raise ZeroDivisionError /\
  (r <- mlib.ln fuel (VFloat tenth) ;; mlib.exp r)
    = Ok (VFloat (S754_finite false 7204868935283776 (-52))) /\
  py_gt (VFloat (S754_finite false 7204868935283776 (-52)))
    (VFloat one_and_half) = true /\
  (r <- mlib.exp (VFloat half) ;; mlib.ln fuel r) = Raise ZeroDivisionError.
Proof.
  intros Hf. split; [ | split; [ | split]].
  - rewrite (ln_at 100 _ _ fuel ln_one_and_half) by (discriminate || exact Hf).
    vm_compute. reflexivity.
  - rewrite (ln_at 100 _ _ fuel ln_tenth) by (discriminate || exact Hf).
    vm_compute. reflexivity.
  - vm_compute. reflexivity.
  - vm_compute. reflexivity.
Qed.

Lemma exp_ln_round_trip_fails_witness :
  (r <- mlib.ln 100 (VFloat one_and_half) ;; mlib.exp r)
    = Raise ZeroDivisionError.
Proof.
  apply (exp_ln_round_trip_fails 100). apply le_n.
Defined.

(** ** C8: the reduction loops of [sin] and [cos] *)

Lemma sub_tau_absorbed :
  py_sub (VFloat two_to_57) (VFloat TAU) = Ok (VFloat two_to_57).
Proof. vm_compute. reflexivity. Qed.

(** C8. The reduction loop does not terminate for every finite input: at
    [a = 2^57], a finite double, [a - 2 * PI] rounds back to [a], so the
    loop [while a > PI] never ends and neither [sin] nor [cos] returns,
    whatever the fuel. *)
Theorem sin_cos_loop_forever :
  (forall fuel, mlib.sin fuel (VFloat two_to_57) = OutOfFuel) /\
  (forall fuel, mlib.cos fuel (VFloat two_to_57) = OutOfFuel).
Proof.
  assert (H : forall fuel, mlib.reduce fuel (VFloat two_to_57) = OutOfFuel).
  { intros fuel. unfold mlib.reduce.
    rewrite while_stuck; [reflexivity | reflexivity | ].
    vm_compute. reflexivity. }
  split; intros fuel; unfold mlib.sin, mlib.cos; rewrite is_finite_spec;
    cbn [classify two_to_57 bind assert]; rewrite H; reflexivity.
Qed.

(** ** The sort of [median] *)

Lemma range_cons (lo hi : Z) : lo < hi -> range lo hi = lo :: range (lo + 1) hi.
Proof.
  intros H. unfold range.
  replace (Z.to_nat (hi - lo)) with (S (Z.to_nat (hi - (lo + 1)))) by lia.
  cbn [seq map]. f_equal; [lia | ].
  rewrite <- seq_shift, map_map. apply map_ext. intros i. lia.
Qed.

Lemma get_app (p t : list value) (x : value) :
  get (p ++ x :: t) (Z.of_nat (length p)) = Ok x.
Proof.
  unfold get.
  assert (E : (Z.of_nat (length p) <? 0) = false) by (apply Z.ltb_ge; lia).
  rewrite !E, Nat2Z.id, nth_error_app2, Nat.sub_diag by lia. reflexivity.
Qed.





Section BubbleSort.
Context {A : Type}.
Variable gt : A -> A -> bool.
Variable P : A -> Prop.

Let le (x y : A) : Prop := gt x y = false.

Hypothesis gt_asym : forall x y, P x -> P y -> gt x y = true -> gt y x = false.
Hypothesis le_trans :
  forall x y z, P x -> P y -> P z -> le x y -> le y z -> le x z.

Lemma le_refl (x : A) : P x -> le x x.
Proof.
  intros Hx. unfold le. destruct (gt x x) eqn:E; [ | reflexivity].
  rewrite (gt_asym x x Hx Hx E) in E. discriminate.
Qed.







End BubbleSort.

(** *** The order of floats *)










(** * Rounding

    What the operations of [SpecFloat] compute, on the integers [Zval]:
    the result of a subtraction or an addition is a double nearest to the
    exact result. *)

Lemma digits2_bounds (m : positive) :
  2 ^ (Zpos (digits2_pos m) - 1) <= Zpos m < 2 ^ Zpos (digits2_pos m).
Proof.
  induction m as [m IH | m IH | ]; cbn [digits2_pos].
  - rewrite Pos2Z.inj_succ, (Pos2Z.inj_xI m).
    replace (Z.succ (Zpos (digits2_pos m)) - 1) with (Z.succ (Zpos (digits2_pos m) - 1)) by lia.
    rewrite !Z.pow_succ_r by lia. lia.
  - rewrite Pos2Z.inj_succ, (Pos2Z.inj_xO m).
    replace (Z.succ (Zpos (digits2_pos m)) - 1) with (Z.succ (Zpos (digits2_pos m) - 1)) by lia.
    rewrite !Z.pow_succ_r by lia. lia.
  - cbn. lia.
Qed.

(** The number of digits is determined by the bounds. *)
Lemma digits2_unique (m : positive) (d : Z) :
  2 ^ (d - 1) <= Zpos m < 2 ^ d -> Zpos (digits2_pos m) = d.
Proof.
  intros H. pose proof (digits2_bounds m) as B.
  assert (Hd : 0 < d).
  { destruct (Z.ltb_spec 0 d) as [ | Hd]; [assumption | ].
    assert (2 ^ d <= 1).
    { destruct (Z.eqb_spec d 0) as [-> | ]; [cbn; lia | ].
      rewrite Z.pow_neg_r by lia. lia. }
    lia. }
  destruct (Z.lt_trichotomy (Zpos (digits2_pos m)) d) as [L | [E | G]]; [ | exact E | ].
  - assert (2 ^ Zpos (digits2_pos m) <= 2 ^ (d - 1)) by (apply Z.pow_le_mono_r; lia). lia.
  - assert (2 ^ d <= 2 ^ (Zpos (digits2_pos m) - 1)) by (apply Z.pow_le_mono_r; lia). lia.
Qed.

Lemma fexp_eq (x : Z) : fexp prec emax x = Z.max (x - 53) (-1074).
Proof. reflexivity. Qed.

(** The shape of a finite non-zero double. *)
Lemma double_inv (s : bool) (m : positive) (e : Z) :
  double (S754_finite s m e) = true ->
  -1074 <= e <= 971 /\ Zpos (digits2_pos m) <= 53 /\
  (-1074 < e -> Zpos (digits2_pos m) = 53).
Proof.
  cbn [double]. unfold bounded, canonical_mantissa. rewrite fexp_eq.
  intros H. apply andb_prop in H. destruct H as [H1 H2].
  apply Z.eqb_eq in H1. apply Z.leb_le in H2.
  change (emax - prec) with 971 in H2. lia.
Qed.

Lemma double_intro (s : bool) (m : positive) (e : Z) :
  -1074 <= e <= 971 -> Zpos (digits2_pos m) <= 53 ->
  (-1074 < e -> Zpos (digits2_pos m) = 53) ->
  double (S754_finite s m e) = true.
Proof.
  intros He Hd Hn. cbn [double]. unfold bounded, canonical_mantissa.
  rewrite fexp_eq. apply andb_true_intro. split.
  - apply Z.eqb_eq. lia.
  - apply Z.leb_le. change (emax - prec) with 971. lia.
Qed.

Lemma double_opp (f : spec_float) : double (SFopp f) = double f.
Proof. destruct f; reflexivity. Qed.

Lemma Zval_opp (f : spec_float) : Zval (SFopp f) = - Zval f.
Proof. destruct f as [ | | | [ | ] m e]; cbn [SFopp Zval cond_Zopp negb]; lia. Qed.

Lemma nearest_opp (r d : Z) : nearest r d -> nearest (- r) (- d).
Proof.
  intros H f Hf. specialize (H (SFopp f)). rewrite double_opp, Zval_opp in H.
  specialize (H Hf). lia.
Qed.

Lemma nearest_exact (d : Z) : nearest d d.
Proof. intros f _. lia. Qed.

Lemma shr_1_spec (m : Z) (r s : bool) :
  0 <= m ->
  shr_1 (Build_shr_record m r s) = Build_shr_record (Z.div2 m) (Z.odd m) (r || s).
Proof.
  intros Hm. destruct m as [ | p | p]; [reflexivity | destruct p; reflexivity | lia].
Qed.

(** One more shift keeps the account of the remainder. *)
Lemma shr_inv_step (M k : Z) (rec : shr_record) :
  0 <= k -> shr_inv M k rec -> shr_inv M (k + 1) (shr_1 rec).
Proof.
  intros Hk (Hm & rem & HM & Hrem & Hrs).
  destruct rec as [m r s]. cbn [shr_m shr_r shr_s] in *.
  rewrite shr_1_spec by exact Hm. unfold shr_inv. cbn [shr_m shr_r shr_s].
  pose proof (Z.div2_odd m) as Hdiv.
  rewrite Z.pow_add_r, Z.pow_1_r by lia.
  assert (HP : 0 < 2 ^ k) by (apply Z.pow_pos_nonneg; lia).
  set (P := 2 ^ k) in *. set (q := Z.div2 m) in *.
  split; [unfold q; rewrite Z.div2_div; apply Z.div_pos; lia | ].
  destruct (Z.odd m); cbn [Z.b2z] in Hdiv.
  - exists (rem + P). split; [nia | ]. split; [lia | ].
    destruct r, s; cbn [orb]; lia.
  - exists rem. split; [nia | ]. split; [lia | ].
    destruct r, s; cbn [orb]; lia.
Qed.

Lemma shr_inv_iter (M : Z) (p : positive) :
  forall k rec, 0 <= k -> shr_inv M k rec ->
                shr_inv M (k + Zpos p) (iter_pos shr_1 p rec).
Proof.
  induction p as [p IH | p IH | ]; intros k rec Hk H; cbn [iter_pos].
  - replace (k + Zpos p~1) with (k + 1 + Zpos p + Zpos p) by lia.
    apply IH; [lia | ]. apply IH; [lia | ]. apply shr_inv_step; assumption.
  - replace (k + Zpos p~0) with (k + Zpos p + Zpos p) by lia.
    apply IH; [lia | ]. apply IH; assumption.
  - apply shr_inv_step; assumption.
Qed.

Lemma shr_inv_start (M : Z) :
  0 <= M -> shr_inv M 0 (Build_shr_record M false false).
Proof.
  intros HM. split; [exact HM | ]. exists 0. cbn [shr_m shr_r shr_s].
  rewrite Z.pow_0_r. lia.
Qed.

(** Rounding the quotient to nearest, ties to even, is within half a unit
    of the mantissa. *)
Lemma round_nearest_even_spec (M k : Z) (rec : shr_record) :
  shr_inv M k rec ->
  let q := shr_m rec in
  let m1 := round_nearest_even q (loc_of_shr_record rec) in
  q <= m1 <= q + 1 /\
  q * 2 ^ k <= M < (q + 1) * 2 ^ k /\
  2 * Z.abs (m1 * 2 ^ k - M) <= 2 ^ k.
Proof.
  intros (Hm & rem & HM & Hrem & Hrs). destruct rec as [m r s].
  cbn [shr_m shr_r shr_s] in *. cbv zeta.
  set (P := 2 ^ k) in *.
  destruct r, s; cbn [loc_of_shr_record round_nearest_even];
    try destruct (Z.even m); nia.
Qed.

(** No double lies strictly between two neighbours [q * u] and
    [(q + 1) * u] of full precision. *)
Lemma double_gap (f : spec_float) (q e1 : Z) :
  double f = true -> 2 ^ 52 <= q -> -1074 <= e1 ->
  Zval f <= q * 2 ^ (e1 + 1074) \/ (q + 1) * 2 ^ (e1 + 1074) <= Zval f.
Proof.
  intros Hf Hq He1.
  assert (Hu : 0 < 2 ^ (e1 + 1074)) by (apply Z.pow_pos_nonneg; lia).
  destruct f as [s | s | | s m e]; try discriminate;
    [left; cbn [Zval]; nia | ].
  destruct (double_inv s m e Hf) as (He & Hd & _).
  pose proof (digits2_bounds m) as Hb.
  assert (Hm : Zpos m < 2 ^ 53).
  { apply Z.lt_le_trans with (1 := proj2 Hb). apply Z.pow_le_mono_r; lia. }
  assert (Hw : 0 < 2 ^ (e + 1074)) by (apply Z.pow_pos_nonneg; lia).
  destruct s; cbn [Zval cond_Zopp]; [left; nia | ].
  destruct (Z.lt_ge_cases e e1) as [Hlt | Hge].
  - left.
    assert (H1 : 2 * 2 ^ (e + 1074) <= 2 ^ (e1 + 1074)).
    { replace (2 * 2 ^ (e + 1074)) with (2 ^ (e + 1 + 1074))
        by (replace (e + 1 + 1074) with (1 + (e + 1074)) by lia;
            rewrite Z.pow_add_r by lia; lia).
      apply Z.pow_le_mono_r; lia. }
    change (2 ^ 53) with (2 * 2 ^ 52) in Hm. change (2 ^ 52) with 4503599627370496 in *.
    nia.
  - replace (e + 1074) with (e - e1 + (e1 + 1074)) by lia.
    rewrite Z.pow_add_r by lia.
    assert (Hn : 0 < 2 ^ (e - e1)) by (apply Z.pow_pos_nonneg; lia).
    set (u := 2 ^ (e1 + 1074)) in *. set (n := Zpos m * 2 ^ (e - e1)).
    replace (Zpos m * (2 ^ (e - e1) * u)) with (n * u) by (unfold n; ring).
    destruct (Z.le_gt_cases n q) as [Hle | Hgt]; [left | right]; nia.
Qed.

Lemma pow2_pos (k : Z) : 0 <= k -> 0 < 2 ^ k.
Proof. intros H. apply Z.pow_pos_nonneg; lia. Qed.

Lemma pow2_split (a b : Z) : 0 <= a -> 0 <= b -> 2 ^ (a + b) = 2 ^ a * 2 ^ b.
Proof. intros Ha Hb. apply Z.pow_add_r; assumption. Qed.

Lemma nearest_between (q m1 e1 D : Z) :
  2 ^ 52 <= q -> -1074 <= e1 ->
  q * 2 ^ (e1 + 1074) <= D < (q + 1) * 2 ^ (e1 + 1074) ->
  q <= m1 <= q + 1 ->
  2 * Z.abs (m1 * 2 ^ (e1 + 1074) - D) <= 2 ^ (e1 + 1074) ->
  nearest (m1 * 2 ^ (e1 + 1074)) D.
Proof.
  intros Hq He HD Hm Hh f Hf.
  destruct (double_gap f q e1 Hf Hq He) as [G | G];
    set (u := 2 ^ (e1 + 1074)) in *;
    assert (Hc : m1 = q \/ m1 = q + 1) by lia;
    destruct Hc as [-> | ->]; lia.
Qed.

Lemma Zval_max_double : Zval max_double = 9007199254740991 * 2 ^ 2045.
Proof. vm_compute. reflexivity. Qed.

Lemma pow2_2098 : 2 ^ 2098 = 9007199254740992 * 2 ^ 2045.
Proof. vm_compute. reflexivity. Qed.

(** Rounding a mantissa that needs no left shift: the result is a finite
    double nearest to [m * 2^e], as long as that is not above the largest
    double. *)
Lemma binary_round_aux_spec (s : bool) (m : positive) (e : Z) :
  -1074 <= e -> e <= fexp prec emax (Zpos (digits2_pos m) + e) ->
  Zpos m * 2 ^ (e + 1074) <= Zval max_double ->
  exists m' e',
    binary_round_aux prec emax s (Zpos m) e loc_Exact = S754_finite s m' e' /\
    double (S754_finite s m' e') = true /\
    nearest (Zpos m' * 2 ^ (e' + 1074)) (Zpos m * 2 ^ (e + 1074)) /\
    (fexp prec emax (Zpos (digits2_pos m) + e) = e -> m' = m /\ e' = e).
Proof.
  intros He Hf Hmax.
  pose proof (digits2_bounds m) as Hb.
  assert (Hd : Zpos (digits2_pos m) + e <= 1024).
  { destruct (Z.le_gt_cases (Zpos (digits2_pos m) + e) 1024) as [L | G];
      [exact L | exfalso].
    rewrite Zval_max_double in Hmax.
    assert (Hw0 : 0 < 2 ^ (e + 1074)) by (apply pow2_pos; lia).
    assert (H1 : 2 ^ 2098 <= 2 ^ (Zpos (digits2_pos m) - 1 + (e + 1074)))
      by (apply Z.pow_le_mono_r; lia).
    rewrite (pow2_split (Zpos (digits2_pos m) - 1) (e + 1074)), pow2_2098 in H1 by lia.
    assert (H2 : 2 ^ (Zpos (digits2_pos m) - 1) * 2 ^ (e + 1074)
                 <= Zpos m * 2 ^ (e + 1074))
      by (apply Z.mul_le_mono_nonneg_r; lia).
    assert (0 < 2 ^ 2045) by (apply pow2_pos; lia).
    lia. }
  unfold binary_round_aux, shr_fexp. cbn [Zdigits2 shr_record_of_loc].
  rewrite fexp_eq in *. set (d := Zpos (digits2_pos m)) in *.
  destruct (Z.eq_dec (Z.max (d + e - 53) (-1074)) e) as [E | N].
  - rewrite E, Z.sub_diag. cbn [shr shr_m loc_of_shr_record round_nearest_even Zdigits2 shr_record_of_loc].
    fold d. rewrite fexp_eq, E, Z.sub_diag. cbn [shr shr_m].
    assert (L : (e <=? emax - prec) = true) by (apply Z.leb_le; change (emax - prec) with 971; lia).
    rewrite L. exists m, e. split; [reflexivity | ]. split; [ | split].
    + apply double_intro; fold d; lia.
    + apply nearest_exact.
    + intros _. split; reflexivity.
  - assert (K : Z.max (d + e - 53) (-1074) - e = d - 53) by lia.
    assert (Hk : 0 < d - 53) by lia.
    rewrite K. destruct (d - 53) as [ | p | p] eqn:Ep; try lia.
    cbn [shr].
    pose proof (shr_inv_iter (Zpos m) p 0 _ (Z.le_refl 0) (shr_inv_start (Zpos m) ltac:(lia))) as Hinv.
    rewrite Z.add_0_l in Hinv.
    set (rec := iter_pos shr_1 p _) in *.
    pose proof (round_nearest_even_spec _ _ _ Hinv) as Hr. cbv zeta in Hr.
    set (q := shr_m rec) in *.
    set (m1 := round_nearest_even q (loc_of_shr_record rec)) in *.
    destruct Hr as (Hq & HM & Hhalf).
    assert (HP : 0 < 2 ^ Zpos p) by (apply pow2_pos; lia).
    assert (Hd1 : 2 ^ (d - 1) = 2 ^ 52 * 2 ^ Zpos p).
    { replace (d - 1) with (52 + Zpos p) by lia. apply pow2_split; lia. }
    assert (Hd2 : 2 ^ d = 2 ^ 53 * 2 ^ Zpos p).
    { replace d with (53 + Zpos p) at 1 by lia. apply pow2_split; lia. }
    rewrite Hd1, Hd2 in Hb.
    change (2 ^ 52) with 4503599627370496 in *.
    change (2 ^ 53) with 9007199254740992 in *.
    set (P := 2 ^ Zpos p) in *.
    assert (Hq1 : 4503599627370496 <= q) by nia.
    assert (Hq2 : q < 9007199254740992) by nia.
    assert (Hw : 0 < 2 ^ (e + 1074)) by (apply pow2_pos; lia).
    assert (Hu : 2 ^ (e + Zpos p + 1074) = P * 2 ^ (e + 1074)).
    { replace (e + Zpos p + 1074) with (Zpos p + (e + 1074)) by lia.
      apply pow2_split; lia. }
    assert (Hn : nearest (m1 * 2 ^ (e + Zpos p + 1074)) (Zpos m * 2 ^ (e + 1074))).
    { apply nearest_between with (q := q); try lia.
      - rewrite Hu. set (w := 2 ^ (e + 1074)) in *. nia.
      - rewrite Hu. set (w := 2 ^ (e + 1074)) in *.
        replace (m1 * (P * w) - Zpos m * w) with ((m1 * P - Zpos m) * w) by ring.
        rewrite Z.abs_mul, (Z.abs_eq w) by lia. nia. }
    remember (e + Zpos p) as e1 eqn:He1.
    destruct (Z.eq_dec m1 9007199254740992) as [C | C].
    + rewrite C in *.
      replace (fexp prec emax (Zdigits2 9007199254740992 + e1) - e1) with 1
        by (rewrite fexp_eq; change (Zdigits2 9007199254740992) with 54; lia).
      cbn [shr iter_pos shr_1 shr_m].
      assert (He1' : e1 <= 970).
      { destruct (Z.le_gt_cases e1 970) as [L | G]; [exact L | exfalso].
        assert (E1 : e1 = 971) by lia.
        rewrite Zval_max_double in Hmax. rewrite E1 in Hu.
        change (971 + 1074) with 2045 in Hu. rewrite Hu in Hmax.
        rewrite Z.mul_assoc in Hmax.
        apply Z.mul_le_mono_pos_r in Hmax; [ | exact Hw].
        lia. }
      assert (L : (e1 + 1 <=? emax - prec) = true)
        by (apply Z.leb_le; change (emax - prec) with 971; lia).
      rewrite L. exists 4503599627370496%positive, (e1 + 1).
      split; [reflexivity | ]. split; [ | split].
      * apply double_intro; [lia | cbn; lia | reflexivity ].
      * replace (Zpos 4503599627370496 * 2 ^ (e1 + 1 + 1074))
          with (9007199254740992 * 2 ^ (e1 + 1074)); [exact Hn | ].
        replace (e1 + 1 + 1074) with (1 + (e1 + 1074)) by lia.
        rewrite (pow2_split 1 (e1 + 1074)) by lia. change (2 ^ 1) with 2. ring.
      * intros H. exfalso. lia.
    + destruct m1 as [ | m1' | m1'] eqn:Em1; try lia.
      assert (D1 : Zpos (digits2_pos m1') = 53).
      { apply digits2_unique. change (2 ^ (53 - 1)) with 4503599627370496.
        change (2 ^ 53) with 9007199254740992. lia. }
      cbn [Zdigits2]. rewrite D1, fexp_eq.
      replace (Z.max (53 + e1 - 53) (-1074) - e1) with 0 by lia.
      cbn [shr shr_m].
      assert (L : (e1 <=? emax - prec) = true)
        by (apply Z.leb_le; change (emax - prec) with 971; lia).
      rewrite L. exists m1', e1.
      split; [reflexivity | ]. split; [ | split].
      * apply double_intro; lia.
      * exact Hn.
      * intros H. exfalso. lia.
Qed.

Lemma iter_xO (p m : positive) : Zpos (Pos.iter xO m p) = Zpos m * 2 ^ Zpos p.
Proof.
  revert m. induction p as [ | p IH] using Pos.peano_ind; intros m.
  - cbn [Pos.iter]. rewrite Z.pow_1_r. lia.
  - rewrite Pos.iter_succ, Pos2Z.inj_xO, IH, Pos2Z.inj_succ, Z.pow_succ_r by lia. ring.
Qed.

Lemma shl_align_spec (m : positive) (e e' : Z) :
  e' <= e ->
  Zpos (fst (shl_align m e e')) = Zpos m * 2 ^ (e - e') /\
  snd (shl_align m e e') = e'.
Proof.
  intros H. unfold shl_align.
  destruct (e' - e) as [ | p | p] eqn:E; try lia; cbn [fst snd].
  - replace (e - e') with 0 by lia. rewrite Z.pow_0_r. lia.
  - rewrite iter_xO. replace (e - e') with (Zpos p) by lia. split; reflexivity.
Qed.

Lemma digits2_shift (m m' : positive) (k : Z) :
  0 <= k -> Zpos m' = Zpos m * 2 ^ k ->
  Zpos (digits2_pos m') = Zpos (digits2_pos m) + k.
Proof.
  intros Hk E. apply digits2_unique. rewrite E.
  pose proof (digits2_bounds m) as B.
  replace (Zpos (digits2_pos m) + k - 1) with (Zpos (digits2_pos m) - 1 + k) by lia.
  rewrite !pow2_split by lia.
  assert (0 < 2 ^ k) by (apply pow2_pos; lia). nia.
Qed.

(** Rounding an integer mantissa at exponent [e >= -1074] to a double:
    the result is a finite double nearest to [m * 2^e], and [m * 2^e]
    itself when [m] has at most 53 digits. *)
Lemma binary_round_spec (s : bool) (m : positive) (e : Z) :
  -1074 <= e -> Zpos m * 2 ^ (e + 1074) <= Zval max_double ->
  exists m' e',
    binary_round prec emax s m e = S754_finite s m' e' /\
    double (S754_finite s m' e') = true /\
    nearest (Zpos m' * 2 ^ (e' + 1074)) (Zpos m * 2 ^ (e + 1074)) /\
    (Zpos (digits2_pos m) <= 53 ->
     Zpos m' * 2 ^ (e' + 1074) = Zpos m * 2 ^ (e + 1074)).
Proof.
  intros He Hd. unfold binary_round.
  set (d := Zpos (digits2_pos m)) in *.
  destruct (Z.le_gt_cases (fexp prec emax (d + e)) e) as [L | G].
  - destruct (shl_align_spec m e (fexp prec emax (d + e)) L) as [Hm Hz].
    destruct (shl_align m e (fexp prec emax (d + e))) as [mz ez].
    cbn [fst snd] in Hm, Hz. subst ez.
    rewrite fexp_eq in *.
    assert (Dz : Zpos (digits2_pos mz) = d + (e - Z.max (d + e - 53) (-1074)))
      by (apply digits2_shift; [lia | exact Hm]).
    assert (V : Zpos mz * 2 ^ (Z.max (d + e - 53) (-1074) + 1074)
                = Zpos m * 2 ^ (e + 1074)).
    { rewrite Hm, <- Z.mul_assoc, <- pow2_split by lia. f_equal. f_equal. lia. }
    destruct (binary_round_aux_spec s mz (Z.max (d + e - 53) (-1074)))
      as (m' & e' & E & Hdbl & Hn & Hx).
    + lia.
    + rewrite fexp_eq, Dz. lia.
    + rewrite V. exact Hd.
    + exists m', e'. split; [exact E | ]. split; [exact Hdbl | ].
      rewrite V in Hn. split; [exact Hn | ].
      intros _. destruct Hx as [-> ->]; [rewrite fexp_eq, Dz; lia | exact V].
  - assert (A : shl_align m e (fexp prec emax (d + e)) = (m, e)).
    { unfold shl_align. destruct (fexp prec emax (d + e) - e) eqn:E; try reflexivity. lia. }
    rewrite A. rewrite fexp_eq in G.
    destruct (binary_round_aux_spec s m e) as (m' & e' & E & Hdbl & Hn & Hx).
    + lia.
    + fold d. rewrite fexp_eq. lia.
    + exact Hd.
    + exists m', e'. split; [exact E | ]. split; [exact Hdbl | ].
      split; [exact Hn | ]. intros. lia.
Qed.

Lemma digits2_below (m : positive) (k : Z) :
  Zpos m < 2 ^ k -> Zpos (digits2_pos m) <= k.
Proof.
  intros H. pose proof (digits2_bounds m) as B.
  destruct (Z.le_gt_cases (Zpos (digits2_pos m)) k) as [L | G]; [exact L | ].
  assert (2 ^ k <= 2 ^ (Zpos (digits2_pos m) - 1)) by (apply Z.pow_le_mono_r; lia).
  lia.
Qed.

(** Normalising a signed integer mantissa at exponent [e >= -1074]. *)
Lemma binary_normalize_spec (M e : Z) :
  -1074 <= e -> Z.abs M * 2 ^ (e + 1074) <= Zval max_double ->
  double (binary_normalize prec emax M e false) = true /\
  nearest (Zval (binary_normalize prec emax M e false)) (M * 2 ^ (e + 1074)).
Proof.
  intros He HB.
  destruct M as [ | m | m]; cbn [binary_normalize].
  - split; [reflexivity | ]. cbn [Zval]. rewrite Z.mul_0_l. apply nearest_exact.
  - destruct (binary_round_spec false m e He HB) as (m' & e' & -> & D & N & _).
    split; [exact D | exact N].
  - destruct (binary_round_spec true m e He HB) as (m' & e' & -> & D & N & _).
    split; [exact D | ]. cbn [Zval cond_Zopp].
    change (Zneg m) with (- Zpos m). rewrite Z.mul_opp_l.
    apply nearest_opp. exact N.
Qed.

Lemma Zval_aligned (s : bool) (m : positive) (e ez : Z) :
  -1074 <= ez <= e ->
  cond_Zopp s (Zpos (fst (shl_align m e ez))) * 2 ^ (ez + 1074)
  = Zval (S754_finite s m e).
Proof.
  intros H. destruct (shl_align_spec m e ez) as [-> _]; [lia | ].
  cbn [Zval]. replace (e + 1074) with (e - ez + (ez + 1074)) by lia.
  rewrite (pow2_split (e - ez) (ez + 1074)) by lia.
  destruct s; cbn [cond_Zopp]; ring.
Qed.

(** Subtraction of doubles is correctly rounded. *)
Lemma fsub_nearest (x y : spec_float) :
  double x = true -> double y = true ->
  Z.abs (Zval x - Zval y) <= Zval max_double ->
  double (fsub x y) = true /\ nearest (Zval (fsub x y)) (Zval x - Zval y).
Proof.
  intros Hx Hy HB.
  destruct x as [sx | sx | | sx mx ex], y as [sy | sy | | sy my ey];
    try discriminate; unfold fsub; cbn [SFsub].
  - split; [destruct sx, sy; reflexivity | ].
    replace (Zval _) with (Zval (S754_zero sx) - Zval (S754_zero sy))
      by (destruct sx, sy; reflexivity).
    apply nearest_exact.
  - split; [exact Hy | ]. cbn [Zval]. destruct sy; cbn [negb cond_Zopp];
      rewrite ?Z.opp_involutive; apply nearest_exact.
  - split; [exact Hx | ]. cbn [Zval]. rewrite Z.sub_0_r. apply nearest_exact.
  - destruct (double_inv _ _ _ Hx) as (Ex & _). destruct (double_inv _ _ _ Hy) as (Ey & _).
    cbv zeta. set (ez := Z.min ex ey).
    assert (V : (cond_Zopp sx (Zpos (fst (shl_align mx ex ez)))
                 - cond_Zopp sy (Zpos (fst (shl_align my ey ez)))) * 2 ^ (ez + 1074)
                = Zval (S754_finite sx mx ex) - Zval (S754_finite sy my ey)).
    { rewrite Z.mul_sub_distr_r, !Zval_aligned by (unfold ez; lia). reflexivity. }
    rewrite <- V in *.
    apply binary_normalize_spec; [unfold ez; lia | ].
    rewrite Z.abs_mul in HB. rewrite (Z.abs_eq (2 ^ _)) in HB; [exact HB | ].
    apply Z.pow_nonneg. lia.
Qed.

Lemma fadd_as_fsub (x y : spec_float) : fadd x y = fsub x (SFopp y).
Proof.
  unfold fadd, fsub.
  destruct x as [sx | sx | | sx mx ex], y as [sy | sy | | sy my ey];
    cbn [SFadd SFsub SFopp]; rewrite ?negb_involutive; try reflexivity;
    destruct sx, sy; reflexivity.
Qed.

(** Addition of doubles is correctly rounded. *)
Lemma fadd_nearest (x y : spec_float) :
  double x = true -> double y = true ->
  Z.abs (Zval x + Zval y) <= Zval max_double ->
  double (fadd x y) = true /\ nearest (Zval (fadd x y)) (Zval x + Zval y).
Proof.
  intros Hx Hy HB. rewrite fadd_as_fsub.
  replace (Zval x + Zval y) with (Zval x - Zval (SFopp y)) in * by (rewrite Zval_opp; lia).
  apply fsub_nearest; [exact Hx | rewrite double_opp; exact Hy | exact HB].
Qed.

Lemma magnitude_lt (s1 s2 : bool) (m1 m2 : positive) (e1 e2 : Z) :
  double (S754_finite s1 m1 e1) = true -> double (S754_finite s2 m2 e2) = true ->
  e1 < e2 ->
  Zpos m1 * 2 ^ (e1 + 1074) < Zpos m2 * 2 ^ (e2 + 1074).
Proof.
  intros H1 H2 L.
  destruct (double_inv _ _ _ H1) as (E1 & D1 & _).
  destruct (double_inv _ _ _ H2) as (E2 & _ & D2).
  pose proof (digits2_bounds m1) as B1. pose proof (digits2_bounds m2) as B2.
  rewrite D2 in B2 by lia.
  assert (Zpos m1 < 2 ^ 53).
  { apply Z.lt_le_trans with (1 := proj2 B1). apply Z.pow_le_mono_r; lia. }
  replace (e2 + 1074) with (e2 - e1 - 1 + 1 + (e1 + 1074)) by lia.
  rewrite (pow2_split (e2 - e1 - 1 + 1) (e1 + 1074)) by lia.
  rewrite (pow2_split (e2 - e1 - 1) 1) by lia.
  assert (0 < 2 ^ (e2 - e1 - 1)) by (apply pow2_pos; lia).
  assert (0 < 2 ^ (e1 + 1074)) by (apply pow2_pos; lia).
  change (2 ^ 1) with 2. change (2 ^ (53 - 1)) with 4503599627370496 in B2.
  change (2 ^ 53) with 9007199254740992 in *.
  set (w := 2 ^ (e1 + 1074)) in *. set (g := 2 ^ (e2 - e1 - 1)) in *.
  assert (Zpos m1 * w < 9007199254740992 * w) by nia.
  assert (4503599627370496 <= Zpos m2 * g) by nia.
  assert (4503599627370496 * w <= Zpos m2 * g * w)
    by (apply Z.mul_le_mono_nonneg_r; lia).
  lia.
Qed.

Lemma magnitude_compare (s1 s2 : bool) (m1 m2 : positive) (e1 e2 : Z) :
  double (S754_finite s1 m1 e1) = true -> double (S754_finite s2 m2 e2) = true ->
  match e1 ?= e2 with
  | Lt => Lt
  | Gt => Gt
  | Eq => Pos.compare_cont Eq m1 m2
  end = (Zpos m1 * 2 ^ (e1 + 1074) ?= Zpos m2 * 2 ^ (e2 + 1074)).
Proof.
  intros H1 H2. destruct (Z.compare_spec e1 e2) as [-> | L | G].
  - destruct (double_inv _ _ _ H2) as (E2 & _).
    assert (0 < 2 ^ (e2 + 1074)) by (apply pow2_pos; lia).
    change (Pos.compare_cont Eq m1 m2) with (Zpos m1 ?= Zpos m2).
    destruct (Z.compare_spec (Zpos m1) (Zpos m2)); symmetry;
      [apply Z.compare_eq_iff | apply Z.compare_lt_iff | apply Z.compare_gt_iff]; nia.
  - symmetry. apply Z.compare_lt_iff. apply (magnitude_lt s1 s2); assumption.
  - symmetry. apply Z.compare_gt_iff. apply (magnitude_lt s2 s1); assumption.
Qed.

Lemma Zval_sign (s : bool) (m : positive) (e : Z) :
  -1074 <= e ->
  if s then Zval (S754_finite s m e) < 0 else 0 < Zval (S754_finite s m e).
Proof.
  intros H. assert (0 < 2 ^ (e + 1074)) by (apply pow2_pos; lia).
  destruct s; cbn [Zval cond_Zopp]; nia.
Qed.

(** Doubles compare as their values do. *)
Lemma SFcompare_Zval (x y : spec_float) :
  double x = true -> double y = true ->
  SFcompare x y = Some (Zval x ?= Zval y).
Proof.
  intros Hx Hy.
  destruct x as [s1 | s1 | | s1 m1 e1], y as [s2 | s2 | | s2 m2 e2];
    try discriminate; cbn [SFcompare].
  - reflexivity.
  - destruct (double_inv _ _ _ Hy) as (E & _).
    pose proof (Zval_sign s2 m2 e2 ltac:(lia)) as S.
    f_equal. symmetry. change (Zval (S754_zero s1)) with 0.
    destruct s2; [apply Z.compare_gt_iff | apply Z.compare_lt_iff]; exact S.
  - destruct (double_inv _ _ _ Hx) as (E & _).
    pose proof (Zval_sign s1 m1 e1 ltac:(lia)) as S.
    f_equal. symmetry. change (Zval (S754_zero s2)) with 0.
    destruct s1; [apply Z.compare_lt_iff | apply Z.compare_gt_iff]; exact S.
  - destruct (double_inv _ _ _ Hx) as (E1 & _).
    destruct (double_inv _ _ _ Hy) as (E2 & _).
    pose proof (Zval_sign s1 m1 e1 ltac:(lia)) as S1.
    pose proof (Zval_sign s2 m2 e2 ltac:(lia)) as S2.
    pose proof (magnitude_compare s1 s2 m1 m2 e1 e2 Hx Hy) as M.
    f_equal. destruct s1, s2.
    + cbn [Zval cond_Zopp]. rewrite Z.compare_opp, (Z.compare_antisym (Zpos m1 * _)), <- M.
      destruct (e1 ?= e2); reflexivity.
    + symmetry. apply Z.compare_lt_iff. lia.
    + symmetry. apply Z.compare_gt_iff. lia.
    + exact M.
Qed.

(** * The range reduction of [sin] and [cos]

    Up to [2^56] each turn of a loop moves the argument, by at least one
    unit in the last place; beyond, [2 * PI] is below half the distance
    between two doubles and the argument does not move. *)

(** Every multiple [n * 2^e] with [n < 2^53] is a double. *)
Lemma double_of_multiple (n e : Z) :
  0 <= n < 2 ^ 53 -> -1074 <= e -> n * 2 ^ (e + 1074) <= Zval max_double ->
  exists f, double f = true /\ Zval f = n * 2 ^ (e + 1074).
Proof.
  intros Hn He Hmax. destruct n as [ | m | m]; try lia.
  - exists (S754_zero false). split; reflexivity.
  - assert (D : Zpos (digits2_pos m) <= 53) by (apply digits2_below; lia).
    destruct (binary_round_spec false m e He Hmax) as (m' & e' & _ & Hd & _ & Hx).
    exists (S754_finite false m' e'). split; [exact Hd | ].
    cbn [Zval cond_Zopp]. apply Hx. exact D.
Qed.

Lemma two_pi : py_mul (VInt 2) (VFloat PI) = Ok (VFloat TAU).
Proof. vm_compute. reflexivity. Qed.

Lemma Zval_TAU : Zval TAU = 2 * Zval PI.
Proof. vm_compute. reflexivity. Qed.

Lemma Zval_PI_bounds : 0 < Zval PI /\ 2 ^ 1077 < 4 * Zval PI /\ Zval PI < 2 ^ 1077.
Proof. vm_compute. repeat split. Qed.

Lemma Zval_two_to_56 : Zval two_to_56 = 2 ^ 1130.
Proof. vm_compute. reflexivity. Qed.

Lemma double_PI : double PI = true.
Proof. reflexivity. Qed.

Lemma double_TAU : double TAU = true.
Proof. reflexivity. Qed.

Lemma pow2_facts :
  2 ^ 1130 = 2 ^ 1077 * 2 ^ 53 /\ 0 < 2 ^ 1077 /\
  2 * 2 ^ 1130 + 2 * 2 ^ 1077 < Zval max_double.
Proof. vm_compute. repeat split. Qed.

(** Below [2^56] there is a double in every window of width 8 under a
    positive value. *)
Lemma double_below (A : Z) :
  0 < A <= 2 ^ 1130 ->
  exists f, double f = true /\ A - 2 ^ 1077 <= Zval f < A.
Proof.
  intros HA. destruct pow2_facts as (E & HW & HB).
  set (W := 2 ^ 1077) in *.
  pose proof (Z.div_mod (A - 1) W ltac:(lia)) as DM0.
  pose proof (Z.mod_pos_bound (A - 1) W HW) as MB0.
  destruct (double_of_multiple ((A - 1) / W) 3) as (f & Hf & Vf).
  - split; [apply Z.div_pos; lia | ].
    apply Z.div_lt_upper_bound; [lia | ]. fold (2 ^ 53). lia.
  - lia.
  - change (2 ^ (3 + 1074)) with W. set (B := 2 ^ 1130) in *. lia.
  - exists f. split; [exact Hf | ]. rewrite Vf. change (2 ^ (3 + 1074)) with W.
    pose proof (Z.div_mod (A - 1) W ltac:(lia)) as DM.
    pose proof (Z.mod_pos_bound (A - 1) W HW) as MB.
    lia.
Qed.

(** One turn of [while a > PI: a -= 2 * PI]. *)
Lemma step_down (x : spec_float) :
  double x = true -> Zval PI < Zval x <= 2 ^ 1130 ->
  double (fsub x TAU) = true /\ - Zval PI <= Zval (fsub x TAU) < Zval x.
Proof.
  intros Hx HA.
  destruct Zval_PI_bounds as (P0 & P1 & P2). destruct pow2_facts as (E & HW & HB).
  destruct (double_below (Zval x)) as (f & Hf & Vf); [lia | ].
  destruct (fsub_nearest x TAU Hx double_TAU) as [Hd Hn].
  { rewrite Zval_TAU. set (W := 2 ^ 1077) in *. set (B := 2 ^ 1130) in *.
    lia. }
  split; [exact Hd | ].
  pose proof (Hn (SFopp PI) ltac:(rewrite double_opp; exact double_PI)) as N1.
  pose proof (Hn f Hf) as N2.
  rewrite Zval_opp in N1. rewrite Zval_TAU in *.
  set (W := 2 ^ 1077) in *. set (B := 2 ^ 1130) in *. lia.
Qed.

(** One turn of [while a < -PI: a += 2 * PI]. *)
Lemma step_up (x : spec_float) :
  double x = true -> - 2 ^ 1130 <= Zval x < - Zval PI ->
  double (fadd x TAU) = true /\ Zval x < Zval (fadd x TAU) <= Zval PI.
Proof.
  intros Hx HA.
  destruct Zval_PI_bounds as (P0 & P1 & P2). destruct pow2_facts as (E & HW & HB).
  destruct (double_below (- Zval x)) as (f & Hf & Vf); [lia | ].
  destruct (fadd_nearest x TAU Hx double_TAU) as [Hd Hn].
  { rewrite Zval_TAU. set (W := 2 ^ 1077) in *. set (B := 2 ^ 1130) in *.
    lia. }
  split; [exact Hd | ].
  pose proof (Hn PI double_PI) as N1.
  pose proof (Hn (SFopp f) ltac:(rewrite double_opp; exact Hf)) as N2.
  rewrite Zval_opp in N2. rewrite Zval_TAU in *.
  set (W := 2 ^ 1077) in *. set (B := 2 ^ 1130) in *. lia.
Qed.

(** A loop whose body keeps an invariant and decreases a measure that is
    non-negative whenever the test holds ends with the test false. *)
Lemma while_terminates {S : Type} (cond : S -> result bool)
    (body : S -> result S) (inv : S -> Prop) (mu : S -> Z) :
  (forall s, inv s ->
     cond s = Ok false \/
     cond s = Ok true /\ 0 <= mu s /\
     exists s', body s = Ok s' /\ inv s' /\ mu s' < mu s) ->
  forall s, inv s ->
  exists fuel s', while fuel cond body s = Ok s' /\ inv s' /\ cond s' = Ok false.
Proof.
  intros Hstep s Hs.
  assert (G : forall n s, inv s -> mu s < Z.of_nat n ->
              exists fuel s', while fuel cond body s = Ok s' /\ inv s' /\ cond s' = Ok false).
  { clear s Hs. induction n as [ | n IH]; intros s Hs Hn.
    - destruct (Hstep s Hs) as [C | (C & M & _)]; [ | lia].
      exists 1%nat, s. cbn [while]. rewrite C. cbn [bind]. auto.
    - destruct (Hstep s Hs) as [C | (C & M & s' & Hb & Hi & Hm)].
      + exists 1%nat, s. cbn [while]. rewrite C. cbn [bind]. auto.
      + destruct (IH s' Hi ltac:(lia)) as (fuel & s'' & W & Hi' & C').
        exists (Datatypes.S fuel), s''. cbn [while]. rewrite C. cbn [bind].
        rewrite Hb. cbn [bind]. auto. }
  apply (G (Z.to_nat (mu s + 1) + 1)%nat s Hs). lia.
Qed.

Lemma Ok_inj {A : Type} (a b : A) : Ok a = Ok b -> a = b.
Proof. intros H. congruence. Qed.

Lemma py_gt_Zval (x y : spec_float) :
  double x = true -> double y = true ->
  py_gt (VFloat x) (VFloat y) = (Zval x >? Zval y).
Proof.
  intros Hx Hy. unfold py_gt. cbn [py_compare]. rewrite SFcompare_Zval by assumption.
  reflexivity.
Qed.

Lemma py_lt_Zval (x y : spec_float) :
  double x = true -> double y = true ->
  py_lt (VFloat x) (VFloat y) = (Zval x <? Zval y).
Proof.
  intros Hx Hy. unfold py_lt. cbn [py_compare]. rewrite SFcompare_Zval by assumption.
  reflexivity.
Qed.

Lemma py_le_Zval (x y : spec_float) :
  double x = true -> double y = true ->
  py_le (VFloat x) (VFloat y) = (Zval x <=? Zval y).
Proof.
  intros Hx Hy. unfold py_le, Z.leb. cbn [py_compare].
  rewrite SFcompare_Zval by assumption. destruct (Zval x ?= Zval y); reflexivity.
Qed.

Lemma py_ge_Zval (x y : spec_float) :
  double x = true -> double y = true ->
  py_ge (VFloat x) (VFloat y) = (Zval x >=? Zval y).
Proof.
  intros Hx Hy. unfold py_ge, Z.geb. cbn [py_compare].
  rewrite SFcompare_Zval by assumption. destruct (Zval x ?= Zval y); reflexivity.
Qed.

Lemma py_lt_neg_PI (x : spec_float) :
  double x = true -> py_lt (VFloat x) (py_neg (VFloat PI)) = (Zval x <? - Zval PI).
Proof.
  intros Hx. cbn [py_neg]. rewrite py_lt_Zval, Zval_opp; [reflexivity | exact Hx | reflexivity].
Qed.

Local Open Scope py_scope.

Lemma sub_two_pi (x : spec_float) :
  (VFloat x - 2%Z * PI) = Ok (VFloat (fsub x TAU)).
Proof. unfold lift2, ret. cbn [bind]. rewrite two_pi. reflexivity. Qed.

Lemma add_two_pi (x : spec_float) :
  (VFloat x + 2%Z * PI) = Ok (VFloat (fadd x TAU)).
Proof. unfold lift2, ret. cbn [bind]. rewrite two_pi. reflexivity. Qed.

Local Close Scope py_scope.

(** The two loops of [sin] and [cos] end for every double of magnitude
    at most [2^56], with the argument in [[-PI, PI]]. *)
Lemma reduce_returns (a : spec_float) :
  double a = true -> - 2 ^ 1130 <= Zval a <= 2 ^ 1130 ->
  exists fuel r,
    mlib.reduce fuel (VFloat a) = Ok (VFloat r) /\ double r = true /\
    - Zval PI <= Zval r <= Zval PI.
Proof.
  intros Ha HA. destruct Zval_PI_bounds as (P0 & P1 & P2).
  destruct pow2_facts as (E & HW & HB).
  assert (PB : Zval PI <= 2 ^ 1130).
  { set (W := 2 ^ 1077) in *. set (B := 2 ^ 1130) in *. nia. }
  set (val := fun s => match s with VFloat x => Zval x | VInt _ => 0 end).
  destruct (while_terminates
              (fun a => Ok (py_gt a PI)) (fun a => (a - 2%Z * PI)%py)
              (fun s => exists x, s = VFloat x /\ double x = true /\
                                  - 2 ^ 1130 <= Zval x <= 2 ^ 1130)
              (fun s => val s - Zval PI)) with (s := VFloat a)
    as (fuel1 & s1 & W1 & (x1 & -> & D1 & B1) & C1).
  { intros s (x & -> & Dx & Bx). rewrite py_gt_Zval by (assumption || reflexivity).
    destruct (Z.gtb_spec (Zval x) (Zval PI)) as [G | G]; [right | left; reflexivity].
    split; [reflexivity | ]. cbn [val]. split; [lia | ].
    destruct (step_down x Dx ltac:(lia)) as (D' & V').
    exists (VFloat (fsub x TAU)). split; [apply sub_two_pi | ].
    split; [ | cbn [val]; lia].
    exists (fsub x TAU). split; [reflexivity | ]. split; [exact D' | ].
    set (B := 2 ^ 1130) in *. lia. }
  { exists a. auto. }
  rewrite py_gt_Zval in C1 by (assumption || reflexivity). apply Ok_inj in C1.
  destruct (Z.gtb_spec (Zval x1) (Zval PI)) as [ | L1]; [discriminate | clear C1].
  destruct (while_terminates
              (fun a => Ok (py_lt a (py_neg PI))) (fun a => (a + 2%Z * PI)%py)
              (fun s => exists x, s = VFloat x /\ double x = true /\
                                  - 2 ^ 1130 <= Zval x <= Zval PI)
              (fun s => - val s - Zval PI)) with (s := VFloat x1)
    as (fuel2 & s2 & W2 & (x2 & -> & D2 & B2) & C2).
  { intros s (x & -> & Dx & Bx). rewrite py_lt_neg_PI by assumption.
    destruct (Z.ltb_spec (Zval x) (- Zval PI)) as [G | G]; [right | left; reflexivity].
    split; [reflexivity | ]. cbn [val]. split; [lia | ].
    destruct (step_up x Dx ltac:(lia)) as (D' & V').
    exists (VFloat (fadd x TAU)). split; [apply add_two_pi | ].
    split; [ | cbn [val]; lia].
    exists (fadd x TAU). split; [reflexivity | ]. split; [exact D' | ].
    set (B := 2 ^ 1130) in *. lia. }
  { exists x1. split; [reflexivity | ]. split; [exact D1 | lia]. }
  rewrite py_lt_neg_PI in C2 by assumption. apply Ok_inj in C2.
  destruct (Z.ltb_spec (Zval x2) (- Zval PI)) as [ | L2]; [discriminate | clear C2].
  exists (Nat.max fuel1 fuel2), x2. split; [ | split; [exact D2 | lia]].
  unfold mlib.reduce.
  rewrite (while_more_fuel _ _ fuel1 (Nat.max fuel1 fuel2)), W1; cbn [bind].
  - rewrite (while_more_fuel _ _ fuel2 (Nat.max fuel1 fuel2)), W2; try reflexivity.
    + rewrite W2. discriminate.
    + apply Nat.le_max_r.
  - rewrite W1. discriminate.
  - apply Nat.le_max_l.
Qed.

Lemma arith_float_r (fi : Z -> Z -> Z) (ff : spec_float -> spec_float -> spec_float)
    (a : value) (x y : spec_float) :
  to_f a = Ok x -> arith fi ff a (VFloat y) = Ok (VFloat (ff x y)).
Proof.
  intros H. destruct a as [z | f]; cbn [arith]; rewrite H; reflexivity.
Qed.

Lemma truediv_float_int (x y : spec_float) (d : Z) :
  float_of_int d = Ok y -> is_zero y = false ->
  py_truediv (VFloat x) (VInt d) = Ok (VFloat (fdivide x y)).
Proof.
  intros H Z. cbn [py_truediv to_f bind]. rewrite H. cbn [bind]. rewrite Z. reflexivity.
Qed.

(** The series loop of [sin] and [cos] returns on a float argument: its
    divisors are non-zero integers and float arithmetic does not raise. *)
Lemma series_returns (den : Z -> Z) (x : spec_float) (first : value) :
  (exists f, to_f first = Ok f) ->
  forallb (fun i => match float_of_int (den i) with
                    | Ok y => negb (is_zero y)
                    | _ => false
                    end) (range 1 8) = true ->
  exists r, mlib.series den (VFloat x) first = Ok r.
Proof.
  intros Hf Hd. unfold mlib.series.
  set (body := fun (i : Z) (s : value * value) => _).
  enough (G : forall l result term,
             forallb (fun i => match float_of_int (den i) with
                               | Ok y => negb (is_zero y)
                               | _ => false
                               end) l = true ->
             (exists f, to_f result = Ok f) -> (exists f, to_f term = Ok f) ->
             exists s, for_each l body (result, term) = Ok s).
  { destruct (G (range 1 8) first first Hd Hf Hf) as (s & ->).
    exists (fst s). reflexivity. }
  induction l as [ | i l IH]; intros result term Hl (r & Hr) (t & Ht).
  - exists (result, term). reflexivity.
  - cbn [forallb] in Hl. apply andb_prop in Hl. destruct Hl as [Hi Hl].
    destruct (float_of_int (den i)) as [y | | ] eqn:Ey; try discriminate.
    apply negb_true_iff in Hi.
    cbn [for_each]. unfold body at 1. unfold lift2, neg, ret. cbn [bind py_neg].
    cbn [py_mul arith to_f bind].
    rewrite (truediv_float_int _ y) by assumption. cbn [bind].
    unfold py_mul, py_add. rewrite (arith_float_r _ _ term t) by exact Ht. cbn [bind].
    rewrite (arith_float_r _ _ result r) by exact Hr. cbn [bind].
    apply IH; [exact Hl | eexists; reflexivity | eexists; reflexivity].
Qed.

(** X1. For every non-zero finite double [a] with [-2^56 <= a <= 2^56], the
    two loops [while a > PI: a -= 2 * PI] and [while a < -PI: a += 2 * PI]
    end, the reduced argument [r] satisfies [-PI <= r <= PI], and [sin]
    and [cos] return. *)
Theorem sin_cos_return_up_to_2_56 (a : spec_float) :
  double a = true -> is_zero a = false ->
  py_le (VFloat (SFopp two_to_56)) (VFloat a) = true ->
  py_le (VFloat a) (VFloat two_to_56) = true ->
  exists fuel r s c,
    mlib.reduce fuel (VFloat a) = Ok (VFloat r) /\
    py_le (py_neg (VFloat PI)) (VFloat r) = true /\
    py_le (VFloat r) (VFloat PI) = true /\
    mlib.sin fuel (VFloat a) = Ok s /\
    mlib.cos fuel (VFloat a) = Ok c.
Proof.
  intros Ha Hz Hlo Hhi.
  rewrite py_le_Zval, Zval_opp, Zval_two_to_56 in Hlo by (assumption || reflexivity).
  rewrite py_le_Zval, Zval_two_to_56 in Hhi by (assumption || reflexivity).
  apply Z.leb_le in Hlo, Hhi.
  destruct (reduce_returns a Ha (conj Hlo Hhi)) as (fuel & r & Hr & Dr & Lr & Ur).
  destruct (series_returns (fun i => (2 * i) * (2 * i + 1)) r (VFloat r))
    as (s & Hs); [eexists; reflexivity | reflexivity | ].
  destruct (series_returns (fun i => (2 * i - 1) * (2 * i)) r (VInt 1))
    as (c & Hc); [eexists; reflexivity | reflexivity | ].
  assert (F : mlib.is_finite (VFloat a) = Ok true).
  { rewrite is_finite_spec. destruct a; try discriminate; reflexivity. }
  exists fuel, r, s, c. split; [exact Hr | ].
  cbn [py_neg]. rewrite !py_le_Zval, Zval_opp by (assumption || reflexivity).
  split; [apply Z.leb_le; exact Lr | ]. split; [apply Z.leb_le; exact Ur | ].
  unfold mlib.sin, mlib.cos. rewrite F, Hr. cbn [assert bind].
  split; [exact Hs | exact Hc].
Qed.

Lemma sin_cos_return_up_to_2_56_witness :
  exists fuel r s c,
    mlib.reduce fuel (VFloat two_to_56) = Ok (VFloat r) /\
    py_le (py_neg (VFloat PI)) (VFloat r) = true /\
    py_le (VFloat r) (VFloat PI) = true /\
    mlib.sin fuel (VFloat two_to_56) = Ok s /\
    mlib.cos fuel (VFloat two_to_56) = Ok c.
Proof.
  apply (sin_cos_return_up_to_2_56 two_to_56); reflexivity.
Defined.

Lemma double_le_max (f : spec_float) :
  double f = true -> Z.abs (Zval f) <= Zval max_double.
Proof.
  intros Hf. rewrite Zval_max_double.
  assert (0 < 2 ^ 2045) by (apply pow2_pos; lia).
  destruct f as [s | s | | s m e]; try discriminate Hf; [cbn [Zval]; lia | ].
  destruct (double_inv _ _ _ Hf) as (He & Hd & _).
  pose proof (digits2_bounds m) as Hb.
  assert (Hm : Zpos m < 2 ^ 53).
  { apply Z.lt_le_trans with (1 := proj2 Hb). apply Z.pow_le_mono_r; lia. }
  change (2 ^ 53) with 9007199254740992 in Hm.
  assert (Hw : 2 ^ (e + 1074) <= 2 ^ 2045) by (apply Z.pow_le_mono_r; lia).
  assert (0 < 2 ^ (e + 1074)) by (apply pow2_pos; lia).
  assert (Zpos m * 2 ^ (e + 1074) <= 9007199254740991 * 2 ^ 2045).
  { apply Z.mul_le_mono_nonneg; lia. }
  destruct s; cbn [Zval cond_Zopp]; lia.
Qed.

(** Two doubles of the same non-zero value are the same float. *)
Lemma double_inj (x y : spec_float) :
  double x = true -> double y = true -> Zval x = Zval y -> Zval x <> 0 -> x = y.
Proof.
  intros Hx Hy E N.
  destruct x as [s1 | s1 | | s1 m1 e1]; try discriminate Hx;
    [contradiction N; reflexivity | ].
  destruct y as [s2 | s2 | | s2 m2 e2]; try discriminate Hy;
    [contradiction N; rewrite E; reflexivity | ].
  destruct (double_inv _ _ _ Hx) as (E1 & _). destruct (double_inv _ _ _ Hy) as (E2 & _).
  pose proof (Zval_sign s1 m1 e1 ltac:(lia)) as S1.
  pose proof (Zval_sign s2 m2 e2 ltac:(lia)) as S2.
  assert (s1 = s2) by (destruct s1, s2; try reflexivity; lia). subst s2.
  assert (M : Zpos m1 * 2 ^ (e1 + 1074) = Zpos m2 * 2 ^ (e2 + 1074))
    by (destruct s1; cbn [Zval cond_Zopp] in E; lia).
  destruct (Z.lt_trichotomy e1 e2) as [L | [-> | G]].
  - pose proof (magnitude_lt s1 s1 m1 m2 e1 e2 Hx Hy L). lia.
  - assert (0 < 2 ^ (e2 + 1074)) by (apply pow2_pos; lia).
    apply Z.mul_cancel_r in M; [ | lia]. congruence.
  - pose proof (magnitude_lt s1 s1 m2 m1 e2 e1 Hy Hx G). lia.
Qed.

(** Above [2^56] the doubles are at least 16 apart. *)
Lemma double_spacing (a f : spec_float) :
  double a = true -> double f = true -> 2 ^ 1130 < Zval a ->
  Zval f <= Zval a - 2 ^ 1078 \/ Zval a <= Zval f.
Proof.
  intros Ha Hf HA.
  destruct a as [s | s | | s m e]; try discriminate Ha; [cbn [Zval] in HA; lia | ].
  destruct (double_inv _ _ _ Ha) as (He & Hd & Hc).
  pose proof (Zval_sign s m e ltac:(lia)) as S.
  destruct s; [lia | clear S]. cbn [Zval cond_Zopp] in *.
  pose proof (digits2_bounds m) as Hb.
  assert (Hm : Zpos m < 2 ^ 53).
  { apply Z.lt_le_trans with (1 := proj2 Hb). apply Z.pow_le_mono_r; lia. }
  assert (P1130 : 2 ^ 1130 = 2 ^ 52 * 2 ^ 1078) by (vm_compute; reflexivity).
  assert (P1078 : 0 < 2 ^ 1078) by (apply pow2_pos; lia).
  change (2 ^ 53) with 9007199254740992 in *.
  change (2 ^ 52) with 4503599627370496 in *.
  assert (E4 : 4 <= e).
  { destruct (Z.le_gt_cases 4 e) as [L | G]; [exact L | exfalso].
    assert (2 * 2 ^ (e + 1074) <= 2 ^ 1078).
    { change 2 with (2 ^ 1) at 1. rewrite <- (pow2_split 1 (e + 1074)) by lia.
      apply Z.pow_le_mono_r; lia. }
    assert (0 < 2 ^ (e + 1074)) by (apply pow2_pos; lia).
    set (w := 2 ^ (e + 1074)) in *. set (V := 2 ^ 1078) in *. nia. }
  rewrite Hc in Hb by lia. change (2 ^ (53 - 1)) with 4503599627370496 in Hb.
  assert (Hw : 2 ^ 1078 <= 2 ^ (e + 1074)) by (apply Z.pow_le_mono_r; lia).
  destruct (Z.eq_dec (Zpos m) 4503599627370496) as [Em | Nm].
  - assert (E5 : 5 <= e).
    { destruct (Z.eq_dec e 4) as [-> | ]; [ | lia]. exfalso.
      change (2 ^ (4 + 1074)) with (2 ^ 1078) in HA. lia. }
    assert (Hw' : 2 ^ 1078 <= 2 ^ (e - 1 + 1074)) by (apply Z.pow_le_mono_r; lia).
    assert (Hs : 2 ^ (e + 1074) = 2 * 2 ^ (e - 1 + 1074)).
    { change 2 with (2 ^ 1) at 2. rewrite <- (pow2_split 1 (e - 1 + 1074)) by lia.
      f_equal. lia. }
    destruct (double_gap f 9007199254740991 (e - 1) Hf) as [G | G];
      [change (2 ^ 52) with 4503599627370496; lia | lia | | ];
      rewrite Em, Hs; set (w := 2 ^ (e - 1 + 1074)) in *; [left | right]; lia.
  - destruct (double_gap f (Zpos m - 1) e Hf) as [G | G];
      [change (2 ^ 52) with 4503599627370496; lia | lia | | ];
      set (w := 2 ^ (e + 1074)) in *; [left | right]; lia.
Qed.

Lemma four_PI : 4 * Zval PI < 2 ^ 1078.
Proof. vm_compute. reflexivity. Qed.

(** Above [2^56], subtracting [2 * PI] rounds back to the same double. *)
Lemma fsub_TAU_absorbed (a : spec_float) :
  double a = true -> 2 ^ 1130 < Zval a -> fsub a TAU = a.
Proof.
  intros Ha HA. destruct Zval_PI_bounds as (P0 & P1 & P2).
  pose proof (double_le_max a Ha) as Hmax.
  assert (P1078 : 2 ^ 1078 = 2 * 2 ^ 1077) by (vm_compute; reflexivity).
  pose proof four_PI as P4.
  assert (P1130 : 0 < 2 ^ 1130) by (apply pow2_pos; lia).
  destruct (fsub_nearest a TAU Ha double_TAU) as [Hd Hn].
  { rewrite Zval_TAU. set (W := 2 ^ 1077) in *. set (B := 2 ^ 1130) in *. lia. }
  pose proof (Hn a Ha) as N.
  pose proof (double_spacing a (fsub a TAU) Ha Hd HA) as S.
  rewrite Zval_TAU in *.
  apply double_inj; [exact Hd | exact Ha | | ];
    set (W := 2 ^ 1077) in *; set (B := 2 ^ 1130) in *; lia.
Qed.

(** Below [-2^56], adding [2 * PI] rounds back to the same double. *)
Lemma fadd_TAU_absorbed (a : spec_float) :
  double a = true -> Zval a < - 2 ^ 1130 -> fadd a TAU = a.
Proof.
  intros Ha HA. destruct Zval_PI_bounds as (P0 & P1 & P2).
  pose proof (double_le_max a Ha) as Hmax.
  assert (P1078 : 2 ^ 1078 = 2 * 2 ^ 1077) by (vm_compute; reflexivity).
  pose proof four_PI as P4.
  assert (P1130 : 0 < 2 ^ 1130) by (apply pow2_pos; lia).
  destruct (fadd_nearest a TAU Ha double_TAU) as [Hd Hn].
  { rewrite Zval_TAU. set (W := 2 ^ 1077) in *. set (B := 2 ^ 1130) in *. lia. }
  pose proof (Hn a Ha) as N.
  pose proof (double_spacing (SFopp a) (SFopp (fadd a TAU))) as S.
  rewrite !double_opp, !Zval_opp in S. specialize (S Ha Hd ltac:(lia)).
  rewrite Zval_TAU in *.
  apply double_inj; [exact Hd | exact Ha | | ];
    set (W := 2 ^ 1077) in *; set (B := 2 ^ 1130) in *; lia.
Qed.

Lemma while_done {S : Type} (cond : S -> result bool) (body : S -> result S)
    (n : nat) (s : S) :
  cond s = Ok false -> while (Datatypes.S n) cond body s = Ok s.
Proof. intros H. cbn [while]. rewrite H. reflexivity. Qed.

Lemma reduce_stuck (a : spec_float) :
  double a = true -> 2 ^ 1130 < Zval a \/ Zval a < - 2 ^ 1130 ->
  forall fuel, mlib.reduce fuel (VFloat a) = OutOfFuel.
Proof.
  intros Ha HA fuel. destruct Zval_PI_bounds as (P0 & P1 & P2).
  assert (PB : 2 ^ 1077 < 2 ^ 1130) by (apply Z.pow_lt_mono_r; lia).
  unfold mlib.reduce. destruct HA as [HA | HA].
  - rewrite while_stuck; [reflexivity | | ].
    + rewrite py_gt_Zval by (assumption || reflexivity). f_equal.
      apply Z.gtb_lt. set (W := 2 ^ 1077) in *. set (B := 2 ^ 1130) in *. lia.
    + rewrite sub_two_pi, fsub_TAU_absorbed by assumption. reflexivity.
  - destruct fuel as [ | n]; [reflexivity | ].
    rewrite while_done.
    2:{ rewrite py_gt_Zval by (assumption || reflexivity). f_equal.
        destruct (Z.gtb_spec (Zval a) (Zval PI)) as [G | G]; [exfalso | reflexivity].
        set (W := 2 ^ 1077) in *. set (B := 2 ^ 1130) in *. lia. }
    cbn [bind].
    rewrite while_stuck; [reflexivity | | ].
    + rewrite py_lt_neg_PI by assumption. f_equal.
      apply Z.ltb_lt. set (W := 2 ^ 1077) in *. set (B := 2 ^ 1130) in *. lia.
    + rewrite add_two_pi, fadd_TAU_absorbed by assumption. reflexivity.
Qed.

(** X2. For every finite double [a] above [2^56] or below [-2^56], the
    subtraction [a - 2 * PI] (the addition [a + 2 * PI]) rounds back to
    [a], so the range reduction loop never ends: [sin] and [cos] return
    for no amount of fuel. *)
Theorem sin_cos_never_return_beyond_2_56 (a : spec_float) :
  double a = true ->
  py_gt (VFloat a) (VFloat two_to_56) = true \/
  py_lt (VFloat a) (VFloat (SFopp two_to_56)) = true ->
  (forall fuel, mlib.sin fuel (VFloat a) = OutOfFuel) /\
  (forall fuel, mlib.cos fuel (VFloat a) = OutOfFuel).
Proof.
  intros Ha H.
  rewrite py_gt_Zval, py_lt_Zval, Zval_opp, Zval_two_to_56 in H
    by (assumption || reflexivity).
  assert (HA : 2 ^ 1130 < Zval a \/ Zval a < - 2 ^ 1130).
  { destruct H as [H | H]; [left; apply Z.gtb_lt | right; apply Z.ltb_lt]; exact H. }
  assert (B0 : 0 < 2 ^ 1130) by (apply pow2_pos; lia).
  assert (F : mlib.is_finite (VFloat a) = Ok true).
  { rewrite is_finite_spec.
    destruct a; try discriminate Ha; [cbn [Zval] in HA; lia | reflexivity]. }
  split; intros fuel; unfold mlib.sin, mlib.cos;
    rewrite F, (reduce_stuck a Ha HA); reflexivity.
Qed.

Lemma sin_cos_never_return_beyond_2_56_witness :
  (forall fuel, mlib.sin fuel (VFloat max_double) = OutOfFuel) /\
  (forall fuel, mlib.cos fuel (VFloat max_double) = OutOfFuel).
Proof.
  apply (sin_cos_never_return_beyond_2_56 max_double); [reflexivity | left; reflexivity].
Defined.

(** * Further properties of the functions *)

(** ** The integer functions *)

Lemma assert_finite_ints (a b : Z) :
  a <> 0 -> b <> 0 ->
  assert (and_then (mlib.is_finite (VInt a)) (mlib.is_finite (VInt b))) = Ok tt.
Proof.
  intros Ha Hb. rewrite !is_finite_int by assumption. reflexivity.
Qed.

(** Euclid's loop on non-negative numbers ends with the greatest common
    divisor in the first component. *)
Lemma gcd_loop (a b : Z) :
  0 <= a -> 0 <= b ->
  exists fuel,
    while fuel (fun '(a, b) => Ok (negb (b =? 0)))
      (fun '(a, b) => Ok (b, a mod b)) (a, b) = Ok (Z.gcd a b, 0).
Proof.
  intros Ha Hb.
  destruct (while_terminates
              (fun '(a, b) => Ok (negb (b =? 0)))
              (fun '(a, b) => Ok (b, a mod b))
              (fun s => 0 <= fst s /\ 0 <= snd s /\
                        Z.gcd (fst s) (snd s) = Z.gcd a b)
              (fun s => snd s)) with (s := (a, b))
    as (fuel & [a' b'] & W & (Ha' & Hb' & G) & C).
  - intros [x y] (Hx & Hy & G). cbn [fst snd] in *.
    destruct (Z.eqb_spec y 0) as [-> | N]; [left; reflexivity | right].
    split; [reflexivity | ]. split; [exact Hy | ].
    exists (y, x mod y). split; [reflexivity | ]. cbn [fst snd].
    pose proof (Z.mod_pos_bound x y ltac:(lia)) as B.
    repeat split; try lia.
    rewrite <- G, (Z.gcd_comm y), Z.gcd_mod by exact N. apply Z.gcd_comm.
  - cbn [fst snd]. auto.
  - cbn [fst snd] in *. exists fuel. rewrite W.
    apply Ok_inj in C. apply negb_false_iff, Z.eqb_eq in C. subst b'.
    rewrite <- G, Z.gcd_0_r, Z.abs_eq by exact Ha'. reflexivity.
Qed.

Lemma gcd_returns (a b : Z) :
  a <> 0 -> b <> 0 -> exists fuel, mlib.gcd fuel a b = Ok (Z.gcd a b).
Proof.
  intros Ha Hb.
  destruct (gcd_loop (Z.abs a) (Z.abs b)) as (fuel & W); try lia.
  exists fuel. unfold mlib.gcd. rewrite assert_finite_ints by assumption. cbn [bind].
  replace (if a <? 0 then - a else a) with (Z.abs a)
    by (destruct (Z.ltb_spec a 0); lia).
  replace (if b <? 0 then - b else b) with (Z.abs b)
    by (destruct (Z.ltb_spec b 0); lia).
  rewrite W. cbn [bind fst]. rewrite Z.gcd_abs_l, Z.gcd_abs_r. reflexivity.
Qed.

Lemma gcd_positive (a b : Z) : a <> 0 -> 0 < Z.gcd a b.
Proof.
  intros Ha. pose proof (Z.gcd_nonneg a b).
  assert (Z.gcd a b <> 0) by (intros E; apply Z.gcd_eq_0_l in E; contradiction).
  lia.
Qed.

(** X3. For all non-zero integers [a] and [b], the loop of [gcd] ends and
    [gcd(a, b)] returns their greatest common divisor (a positive
    number, whatever the signs of [a] and [b]). *)
Theorem gcd_correct (a b : Z) :
  a <> 0 -> b <> 0 ->
  exists fuel g,
    mlib.gcd fuel a b = Ok g /\ 0 < g /\ (g | a) /\ (g | b) /\
    (forall d, (d | a) -> (d | b) -> (d | g)).
Proof.
  intros Ha Hb. destruct (gcd_returns a b Ha Hb) as (fuel & G).
  exists fuel, (Z.gcd a b). split; [exact G | ].
  split; [apply gcd_positive; exact Ha | ].
  split; [apply Z.gcd_divide_l | ]. split; [apply Z.gcd_divide_r | ].
  intros d Da Db. apply Z.gcd_greatest; assumption.
Qed.

Lemma gcd_correct_witness :
  exists fuel g,
    mlib.gcd fuel (-12) 18 = Ok g /\ 0 < g /\ (g | -12) /\ (g | 18) /\
    (forall d, (d | -12) -> (d | 18) -> (d | g)).
Proof. apply (gcd_correct (-12) 18); lia. Defined.

(** X4. For all non-zero integers [a] and [b], [lcm(a, b)] returns their
    least common multiple, a positive number: the quotient [a // gcd] is
    exact and the sign is corrected by the test on [a * b]. *)
Theorem lcm_correct (a b : Z) :
  a <> 0 -> b <> 0 ->
  exists fuel, mlib.lcm fuel a b = Ok (Z.lcm a b) /\ 0 < Z.lcm a b.
Proof.
  intros Ha Hb.
  destruct (gcd_returns a b Ha Hb) as (fuel & G).
  pose proof (gcd_positive a b Ha) as Gpos.
  assert (L : (if a * b >=? 0 then a / Z.gcd a b * b else - (a / Z.gcd a b * b))
              = Z.lcm a b /\ 0 < Z.lcm a b).
  { unfold Z.lcm.
    destruct (Z.gcd_divide_l a b) as [a' Ea]. destruct (Z.gcd_divide_r a b) as [b' Eb].
    set (g := Z.gcd a b) in *.
    assert (Da : a / g = a') by (rewrite Ea; apply Z.div_mul; lia).
    assert (Db : b / g = b') by (rewrite Eb; apply Z.div_mul; lia).
    rewrite Da, Db.
    assert (Na : a' <> 0) by (intros ->; lia).
    assert (Nb : b' <> 0) by (intros ->; lia).
    assert (S : a * b = a' * b' * (g * g)) by (rewrite Ea at 1; rewrite Eb at 1; ring).
    assert (V : a * b' = a' * b) by (rewrite Ea at 1; rewrite Eb at 1; ring).
    rewrite V.
    assert (N : a' * b <> 0) by (rewrite Eb; nia).
    destruct (Z.geb_spec (a * b) 0) as [P | P].
    - assert (0 <= a' * b') by nia.
      assert (0 <= a' * b) by (rewrite Eb; nia). lia.
    - assert (a' * b' < 0) by nia.
      assert (a' * b < 0) by (rewrite Eb; nia). lia. }
  exists fuel. split; [ | exact (proj2 L)].
  unfold mlib.lcm. rewrite assert_finite_ints by assumption. cbn [bind].
  rewrite G. cbn [bind].
  destruct (Z.eqb_spec (Z.gcd a b) 0) as [E | _]; [lia | ].
  destruct (a * b >=? 0); f_equal; cbn beta iota in L; exact (proj1 L).
Qed.

Lemma lcm_correct_witness :
  exists fuel, mlib.lcm fuel (-4) 6 = Ok (Z.lcm (-4) 6) /\ 0 < Z.lcm (-4) 6.
Proof. apply (lcm_correct (-4) 6); lia. Defined.

Lemma range_length (lo hi : Z) : length (range lo hi) = Z.to_nat (hi - lo).
Proof. unfold range. rewrite length_map, length_seq. reflexivity. Qed.

Lemma fact_loop (k m : nat) :
  for_each (range (Z.of_nat m + 1) (Z.of_nat (m + k) + 1))
    (fun i result => Ok (result * i)) (Z.of_nat (fact m))
  = Ok (Z.of_nat (fact (m + k))).
Proof.
  revert m. induction k as [ | k IH]; intros m.
  - rewrite Nat.add_0_r, range_empty by lia. reflexivity.
  - rewrite range_cons by lia. cbn [for_each bind].
    replace (Z.of_nat (fact m) * (Z.of_nat m + 1)) with (Z.of_nat (fact (S m)))
      by (cbn [fact]; lia).
    replace (Z.of_nat m + 1 + 1) with (Z.of_nat (S m) + 1) by lia.
    replace (m + S k)%nat with (S m + k)%nat by lia.
    apply IH.
Qed.

(** X5. For every integer [a >= 1], [fact(a)] returns the factorial of
    [a]. *)
Theorem fact_correct (a : Z) :
  1 <= a -> mlib.fact a = Ok (Z.of_nat (fact (Z.to_nat a))).
Proof.
  intros Ha. unfold mlib.fact. rewrite is_finite_int by lia. cbn [assert bind].
  pose proof (fact_loop (Z.to_nat a - 1) 1) as L.
  replace (1 + (Z.to_nat a - 1))%nat with (Z.to_nat a) in L by lia.
  rewrite Z2Nat.id in L by lia. exact L.
Qed.

Lemma fact_correct_witness : mlib.fact 5 = Ok (Z.of_nat (fact (Z.to_nat 5))).
Proof. apply (fact_correct 5). lia. Defined.

(** X6. For every negative integer [a], [fact(a)] returns [1]: the loop
    [range(2, a + 1)] is empty and nothing rejects the argument. *)
Theorem fact_negative (a : Z) : a < 0 -> mlib.fact a = Ok 1.
Proof.
  intros Ha. unfold mlib.fact. rewrite is_finite_int by lia. cbn [assert bind].
  rewrite range_empty by lia. reflexivity.
Qed.

Lemma fact_negative_witness : mlib.fact (-3) = Ok 1.
Proof. apply (fact_negative (-3)). lia. Defined.

Lemma pow_loop (b : Z) (l : list Z) (p : Z) :
  for_each l (fun _ (product : value) => lift2 py_mul (ret product) (ret (VInt b)))
    (VInt p)
  = Ok (VInt (p * b ^ Z.of_nat (length l))).
Proof.
  revert p. induction l as [ | i l IH]; intros p.
  - cbn [for_each length]. rewrite Z.pow_0_r, Z.mul_1_r. reflexivity.
  - cbn [for_each length]. unfold lift2 at 1, ret at 1 2. cbn [bind py_mul arith].
    rewrite IH. rewrite Nat2Z.inj_succ, Z.pow_succ_r by lia. do 2 f_equal. ring.
Qed.

(** X7. For every non-zero integer base [b] and every power [n >= 1],
    [pow(b, n)] returns the integer [b^n], computed exactly by [n - 1]
    multiplications. *)
Theorem pow_int_correct (b n : Z) :
  b <> 0 -> 1 <= n -> mlib.pow (VInt b) n = Ok (VInt (b ^ n)).
Proof.
  intros Hb Hn. unfold mlib.pow. rewrite !is_finite_int by lia.
  cbn [and_then assert bind].
  destruct (Z.eqb_spec n 0) as [E | _]; [lia | ].
  rewrite (pow_loop b), range_length, Z2Nat.id by lia.
  do 2 f_equal. replace n with (Z.succ (n - 1)) at 2 by lia.
  rewrite Z.pow_succ_r by lia. reflexivity.
Qed.

Lemma pow_int_correct_witness : mlib.pow (VInt (-2)) 5 = Ok (VInt ((-2) ^ 5)).
Proof. apply (pow_int_correct (-2) 5); lia. Defined.

Lemma range_In (lo hi i : Z) : In i (range lo hi) <-> lo <= i < hi.
Proof.
  unfold range. rewrite in_map_iff. split.
  - intros (k & <- & Hk). apply in_seq in Hk. lia.
  - intros H. exists (Z.to_nat (i - lo)). split; [lia | ]. apply in_seq. lia.
Qed.

(** The trial divisions of [is_prime] find a divisor exactly when there
    is one in [2 .. a // 2 - 1]. *)
Lemma trial_division (a : Z) :
  existsb (fun i => a mod i =? 0) (range 2 (a / 2)) = false <->
  forall i, 2 <= i < a / 2 -> ~ (i | a).
Proof.
  split.
  - intros H i Hi D.
    assert (E : existsb (fun i => a mod i =? 0) (range 2 (a / 2)) = true).
    { apply existsb_exists. exists i. split; [apply range_In; exact Hi | ].
      apply Z.eqb_eq, Z.mod_divide; [lia | exact D]. }
    congruence.
  - intros H. apply not_true_is_false. intros E.
    apply existsb_exists in E. destruct E as (i & Hi & Ei).
    apply range_In in Hi. apply Z.eqb_eq, Z.mod_divide in Ei; [ | lia].
    exact (H i Hi Ei).
Qed.

(** X8. For every non-zero integer [a], [is_prime(a)] returns [True]
    exactly when [a] is a prime number: trial division by
    [2 .. a // 2 - 1], after the test for even numbers above 2, misses no
    divisor. *)
Theorem is_prime_correct (a : Z) :
  a <> 0 -> exists b, mlib.is_prime a = Ok b /\ (b = true <-> Z.prime a).
Proof.
  intros Ha. unfold mlib.is_prime. rewrite is_finite_int by exact Ha.
  cbn [assert bind].
  destruct (Z.ltb_spec a 2) as [L | G].
  { exists false. split; [reflexivity | ]. split; [discriminate | ].
    intros P. apply Z.prime_ge_2 in P. lia. }
  destruct ((a >? 2) && (a mod 2 =? 0)) eqn:Ev.
  { exists false. split; [reflexivity | ]. split; [discriminate | ].
    intros P. apply andb_prop in Ev. destruct Ev as [A2 M2].
    apply Z.gtb_lt in A2. apply Z.eqb_eq, Z.mod_divide in M2; [ | lia].
    destruct P as [_ P]. exfalso. apply (P 2); [lia | exact M2]. }
  eexists. split; [reflexivity | ].
  rewrite negb_true_iff, trial_division. unfold Z.prime.
  split.
  - intros H. split; [lia | ]. intros n Hn D.
    destruct D as [k Ek].
    assert (Hk : 2 <= k) by nia.
    assert (Hn2 : n <= a / 2) by (apply Z.div_le_lower_bound; nia).
    destruct (Z.eq_dec n (a / 2)) as [E | N].
    + pose proof (Z.div_mod a 2 ltac:(lia)) as DM.
      pose proof (Z.mod_pos_bound a 2 ltac:(lia)) as MB.
      assert (k = 2) by nia. subst k.
      assert (M0 : a mod 2 = 0) by lia.
      rewrite M0 in Ev. cbn [Z.eqb] in Ev. rewrite andb_true_r in Ev.
      destruct (Z.gtb_spec a 2); [discriminate Ev | lia].
    + apply (H n); [lia | exists k; exact Ek].
  - intros [_ P] i Hi. apply P.
    assert (a / 2 <= a) by (apply Z.div_le_upper_bound; lia). lia.
Qed.

Lemma is_prime_correct_witness :
  exists b, mlib.is_prime 97 = Ok b /\ (b = true <-> Z.prime 97).
Proof. apply (is_prime_correct 97). lia. Defined.

(** ** Classification *)

(** X9. [is_infinite(a)] computes [a / a != a / a]: it raises
    ZeroDivisionError on a zero, returns [True] on NaN as well as on the
    two infinities (the quotient is NaN in both cases), and [False] on
    every other number; [is_nan(a)] never raises and returns [True] on
    NaN only. *)
Theorem classification_spec (v : value) :
  mlib.is_infinite v =
  match classify v with
  | Zero => Raise ZeroDivisionError
  | NonFinite => Ok true
  | Finite => Ok false
  end /\
  mlib.is_nan v = Ok match v with VFloat S754_nan => true | _ => false end.
Proof.
  split.
  - destruct (classify v) eqn:C.
    + destruct v as [[ | p | p] | [s | s | | s m e]]; try discriminate; reflexivity.
    + destruct v as [[ | p | p] | [s | s | | s m e]]; try discriminate; reflexivity.
    + unfold mlib.is_infinite, lift2, ret. cbn [bind].
      rewrite (py_truediv_self v C). reflexivity.
  - unfold mlib.is_nan. f_equal.
    destruct v as [[ | p | p] | [s | s | | s m e]];
      try (rewrite py_ne_self by reflexivity; reflexivity);
      try destruct s; reflexivity.
Qed.

(** ** Rounding to an integer *)

Lemma py_int_double (s : bool) (m : positive) (e : Z) :
  -1074 <= e ->
  py_int (VFloat (S754_finite s m e))
  = Ok (Z.quot (Zval (S754_finite s m e)) (2 ^ 1074)).
Proof.
  intros He. cbn [py_int Zval]. f_equal.
  assert (P : 0 < 2 ^ 1074) by (apply pow2_pos; lia).
  assert (Q : Z.quot (Zpos m * 2 ^ (e + 1074)) (2 ^ 1074)
              = match e with
                | Zneg p => Zpos m / 2 ^ Zpos p
                | _ => Zpos m * 2 ^ e
                end).
  { assert (0 < 2 ^ (e + 1074)) by (apply pow2_pos; lia).
    rewrite Z.quot_div_nonneg by lia.
    destruct e as [ | p | p].
    - rewrite Z.pow_0_r, Z.mul_1_r. apply Z.div_mul. lia.
    - rewrite (pow2_split (Zpos p) 1074), Z.mul_assoc by lia. apply Z.div_mul. lia.
    - assert (E : 2 ^ 1074 = 2 ^ Zpos p * 2 ^ (Zneg p + 1074)).
      { rewrite <- (pow2_split (Zpos p) (Zneg p + 1074)) by lia. f_equal. lia. }
      assert (0 < 2 ^ Zpos p) by (apply pow2_pos; lia).
      rewrite E. apply Z.div_mul_cancel_r; lia. }
  destruct s; cbn [cond_Zopp]; [rewrite Z.quot_opp_l by lia | ]; rewrite Q; reflexivity.
Qed.

(** X10. For every non-zero finite double [a], [floor(a)] is [int(a)]: the
    value of [a] truncated toward zero ([Z.quot] of the value in units of
    [2^-1074] by [2^1074]), hence above [a] for a negative [a] that is not
    an integer. *)
Theorem floor_truncates (a : spec_float) :
  double a = true -> is_zero a = false ->
  mlib.floor (VFloat a) = Ok (Z.quot (Zval a) (2 ^ 1074)) /\
  (Zval a < 0 -> Zval a <= Z.quot (Zval a) (2 ^ 1074) * 2 ^ 1074).
Proof.
  intros Ha Hz. destruct a as [s | s | | s m e]; try discriminate.
  destruct (double_inv _ _ _ Ha) as (He & _).
  split.
  - unfold mlib.floor. rewrite is_finite_spec. cbn [classify assert bind].
    apply py_int_double. lia.
  - intros N. assert (P : 0 < 2 ^ 1074) by (apply pow2_pos; lia).
    pose proof (Z.quot_rem' (Zval (S754_finite s m e)) (2 ^ 1074)) as QR.
    pose proof (Z.rem_nonpos (Zval (S754_finite s m e)) (2 ^ 1074) ltac:(lia) ltac:(lia)).
    lia.
Qed.

Lemma floor_truncates_witness :
  mlib.floor (VFloat (SFopp one_and_half))
  = Ok (Z.quot (Zval (SFopp one_and_half)) (2 ^ 1074)) /\
  (Zval (SFopp one_and_half) < 0 ->
   Zval (SFopp one_and_half)
   <= Z.quot (Zval (SFopp one_and_half)) (2 ^ 1074) * 2 ^ 1074).
Proof. apply (floor_truncates (SFopp one_and_half)); reflexivity. Defined.

(** X11. For every negative finite double [a], [ceil(a)] returns the same
    integer as [floor(a)], the truncation of [a] toward zero: the test
    [a > int(a)] fails, so both return [int(a)]. *)
Theorem ceil_negative_is_floor (a : spec_float) :
  double a = true -> py_lt (VFloat a) (VInt 0) = true ->
  mlib.ceil (VFloat a) = mlib.floor (VFloat a) /\
  mlib.ceil (VFloat a) = Ok (Z.quot (Zval a) (2 ^ 1074)).
Proof.
  intros Ha Hn.
  destruct a as [s | s | | s m e]; try discriminate Ha;
    [destruct s; discriminate Hn | ].
  destruct (double_inv _ _ _ Ha) as (He & _).
  assert (Hs : s = true).
  { destruct s; [reflexivity | exfalso].
    unfold py_lt in Hn. cbn [py_compare compare_float_int cond_Zopp] in Hn.
    unfold compare_scaled in Hn.
    destruct e as [ | p | p].
    - destruct (Z.compare_spec (Zpos m * 2 ^ 0) 0); try discriminate Hn; lia.
    - assert (0 < 2 ^ Zpos p) by (apply pow2_pos; lia).
      destruct (Z.compare_spec (Zpos m * 2 ^ Zpos p) 0); try discriminate Hn; nia.
    - destruct (Z.compare_spec (Zpos m) (0 * 2 ^ Zpos p)); try discriminate Hn; lia. }
  subst s.
  assert (C : mlib.ceil (VFloat (S754_finite true m e))
              = py_int (VFloat (S754_finite true m e))).
  { unfold mlib.ceil. rewrite is_finite_spec. cbn [classify assert bind].
    set (n := match e with
              | Zneg p => Zpos m / 2 ^ Zpos p
              | _ => Zpos m * 2 ^ e
              end).
    change (py_int (VFloat (S754_finite true m e))) with (Ok (- n)).
    cbn [bind].
    assert (G : py_gt (VFloat (S754_finite true m e)) (VInt (- n)) = false).
    { unfold py_gt. cbn [py_compare compare_float_int cond_Zopp].
      unfold compare_scaled, n. destruct e as [ | p | p].
      - rewrite Z.compare_refl. reflexivity.
      - rewrite Z.mul_opp_l, Z.compare_refl. reflexivity.
      - assert (0 < 2 ^ Zpos p) by (apply pow2_pos; lia).
        pose proof (Z.mul_div_le (Zpos m) (2 ^ Zpos p) ltac:(lia)).
        destruct (Z.compare_spec (- Zpos m) (- (Zpos m / 2 ^ Zpos p) * 2 ^ Zpos p));
          try reflexivity; lia. }
    rewrite G. reflexivity. }
  split.
  - rewrite C. unfold mlib.floor. rewrite is_finite_spec. reflexivity.
  - rewrite C. apply py_int_double. lia.
Qed.

Lemma ceil_negative_is_floor_witness :
  mlib.ceil (VFloat (SFopp one_and_half)) = mlib.floor (VFloat (SFopp one_and_half)) /\
  mlib.ceil (VFloat (SFopp one_and_half))
  = Ok (Z.quot (Zval (SFopp one_and_half)) (2 ^ 1074)).
Proof. apply (ceil_negative_is_floor (SFopp one_and_half)); reflexivity. Defined.

(** ** The statistics functions *)

(** X12. On the empty list every statistics function raises
    ZeroDivisionError, not AssertionError: the assertion evaluates
    [is_finite(len(data))] with [len(data) = 0] before it compares the
    length.  On a list of one element, whatever it is, [stddev] raises
    AssertionError. *)
Theorem statistics_edge_cases :
  mlib.sum [] = Raise ZeroDivisionError /\
  mlib.mean [] = Raise ZeroDivisionError /\
  mlib.median [] = Raise ZeroDivisionError /\
  mlib.mode [] = Raise ZeroDivisionError /\
  mlib.stddev [] = Raise ZeroDivisionError /\
  (forall x, mlib.stddev [x] = Raise AssertionError).
Proof.
  repeat split; try reflexivity.
Qed.

Lemma get_ints (p t : list Z) (x : Z) :
  get (map VInt (p ++ x :: t)) (Z.of_nat (length p)) = Ok (VInt x).
Proof.
  rewrite map_app. cbn [map]. rewrite <- (length_map VInt p). apply get_app.
Qed.

Lemma sum_loop (t : list Z) :
  forall (p : list Z) (acc : Z),
    for_each (range (Z.of_nat (length p)) (Z.of_nat (length (p ++ t))))
      (fun i (sum : value) => lift2 py_add (ret sum) (get (map VInt (p ++ t)) i))
      (VInt acc)
    = Ok (VInt (acc + fold_right Z.add 0 t)).
Proof.
  induction t as [ | x t IH]; intros p acc.
  - rewrite app_nil_r, range_empty by lia. cbn [for_each fold_right].
    rewrite Z.add_0_r. reflexivity.
  - rewrite range_cons by (rewrite length_app; cbn [length]; lia).
    cbn [for_each]. rewrite get_ints. unfold lift2 at 1, ret at 1.
    cbn [bind py_add arith].
    replace (p ++ x :: t) with ((p ++ [x]) ++ t) by (rewrite <- app_assoc; reflexivity).
    replace (Z.of_nat (length p) + 1) with (Z.of_nat (length (p ++ [x])))
      by (rewrite length_app; cbn [length]; lia).
    rewrite IH. cbn [fold_right]. do 2 f_equal. lia.
Qed.

(** X13. For every non-empty list of integers, [sum(data)] returns their
    exact sum, an integer. *)
Theorem sum_ints_exact (zs : list Z) :
  zs <> [] -> mlib.sum (map VInt zs) = Ok (VInt (fold_right Z.add 0 zs)).
Proof.
  intros H. unfold mlib.sum, mlib.len. rewrite length_map.
  assert (L : (0 < length zs)%nat) by (destruct zs; [contradiction | cbn; lia]).
  rewrite is_finite_int by lia. cbn [and_then bind].
  replace (Z.of_nat (length zs) >? 0) with true by (symmetry; apply Z.gtb_lt; lia).
  cbn [assert bind]. apply (sum_loop zs [] 0).
Qed.

Lemma sum_ints_exact_witness :
  mlib.sum (map VInt [3; -5; 2 ^ 70]) = Ok (VInt (fold_right Z.add 0 [3; -5; 2 ^ 70])).
Proof. apply (sum_ints_exact [3; -5; 2 ^ 70]). discriminate. Defined.

(** ** [exp] and the hyperbolic functions *)

Lemma py_eq_finite_zero (s : bool) (m : positive) (e : Z) :
  py_eq (VFloat (S754_finite s m e)) (VInt 0) = false.
Proof.
  unfold py_eq. cbn [py_compare compare_float_int]. unfold compare_scaled.
  destruct e as [ | p | p].
  - destruct s; cbn [cond_Zopp];
      destruct (Z.compare_spec (cond_Zopp false (Zpos m) * 2 ^ 0) 0);
      try reflexivity; cbn [cond_Zopp] in *; try lia;
      destruct (Z.compare_spec (- Zpos m * 2 ^ 0) 0); try reflexivity; lia.
  - assert (0 < 2 ^ Zpos p) by (apply pow2_pos; lia).
    destruct s; cbn [cond_Zopp];
      [destruct (Z.compare_spec (- Zpos m * 2 ^ Zpos p) 0)
      | destruct (Z.compare_spec (Zpos m * 2 ^ Zpos p) 0)]; try reflexivity; nia.
  - destruct s; cbn [cond_Zopp];
      [destruct (Z.compare_spec (- Zpos m) (0 * 2 ^ Zpos p))
      | destruct (Z.compare_spec (Zpos m) (0 * 2 ^ Zpos p))]; try reflexivity; lia.
Qed.

(** The series loop of [exp] returns on floats: its divisors are the
    non-zero integers [2 .. 12]. *)
Lemma exp_loop (r : spec_float) (l : list Z) :
  forallb (fun i => match float_of_int i with
                    | Ok y => negb (is_zero y)
                    | _ => false
                    end) l = true ->
  forall result term : spec_float,
  exists s,
    for_break l
      (fun i '((result, term) : value * value) =>
         term <- lift2 py_mul (ret term) (lift2 py_truediv (ret (VFloat r)) (ret (VInt i))) ;;
         result <- lift2 py_add (ret result) (ret term) ;;
         bound <- lift2 py_mul (ret (VFloat (decimal 1 15))) (ret result) ;;
         Ok ((result, term), py_lt term bound))
      (VFloat result, VFloat term) = Ok s.
Proof.
  induction l as [ | i l IH]; intros Hl result term.
  - eexists. reflexivity.
  - cbn [forallb] in Hl. apply andb_prop in Hl. destruct Hl as [Hi Hl].
    destruct (float_of_int i) as [y | | ] eqn:Ey; try discriminate Hi.
    apply negb_true_iff in Hi.
    cbn [for_break]. unfold lift2, ret. cbn [bind].
    rewrite (truediv_float_int _ y) by assumption.
    cbn [bind py_mul py_add arith to_f snd fst].
    match goal with |- context [if ?c then _ else _] => destruct c end.
    + eexists. reflexivity.
    + apply IH. exact Hl.
Qed.

(** X14. For every finite non-zero float [a] whose exponent
    [k = int(a * LOG2E)] is zero (the arguments between about -0.69 and
    0.69), [exp(a)] raises ZeroDivisionError: after the series it calls
    [pow(2, 0)], whose assertion evaluates [is_finite(0)].  [sinh],
    [cosh], [sech] and [csch], which call [exp(a)], raise with it. *)
Theorem exp_raises_when_exponent_is_zero (a : spec_float) :
  classify (VFloat a) = Finite ->
  py_int (VFloat (fmul a LOG2E)) = Ok 0 ->
  mlib.exp (VFloat a) = Raise ZeroDivisionError /\
  mlib.sinh (VFloat a) = Raise ZeroDivisionError /\
  mlib.cosh (VFloat a) = Raise ZeroDivisionError /\
  mlib.sech (VFloat a) = Raise ZeroDivisionError /\
  mlib.csch (VFloat a) = Raise ZeroDivisionError.
Proof.
  intros Hf Hk.
  assert (F : mlib.is_finite (VFloat a) = Ok true) by (rewrite is_finite_spec, Hf; reflexivity).
  assert (Z0 : py_eq (VFloat a) (VInt 0) = false).
  { destruct a as [s | s | | s m e]; try discriminate Hf. apply py_eq_finite_zero. }
  assert (E : mlib.exp (VFloat a) = Raise ZeroDivisionError).
  { unfold mlib.exp. rewrite F. cbn [assert bind]. rewrite Z0.
    unfold lift2 at 1, ret at 1 2. cbn [bind py_mul arith to_f]. rewrite Hk. cbn [bind].
    unfold lift2 at 1 2, ret at 1 2 3. cbn [bind].
    change (py_mul (VInt 0) (VFloat LN2)) with (Ok (VFloat (S754_zero false))).
    cbn [bind py_sub arith to_f].
    unfold lift2 at 1, ret at 1 2. cbn [bind py_add arith to_f].
    change (float_of_int 1) with (Ok one). cbn [bind].
    destruct (exp_loop (fsub a (S754_zero false)) (range 2 13) eq_refl
                (fadd (fsub a (S754_zero false)) one) (fsub a (S754_zero false)))
      as (s & ->).
    cbn [bind]. reflexivity. }
  split; [exact E | ].
  unfold mlib.sinh, mlib.cosh, mlib.sech, mlib.csch.
  rewrite F, E, Z0. repeat split; reflexivity.
Qed.

Lemma exp_raises_when_exponent_is_zero_witness :
  mlib.exp (VFloat half) = Raise ZeroDivisionError /\
  mlib.sinh (VFloat half) = Raise ZeroDivisionError /\
  mlib.cosh (VFloat half) = Raise ZeroDivisionError /\
  mlib.sech (VFloat half) = Raise ZeroDivisionError /\
  mlib.csch (VFloat half) = Raise ZeroDivisionError.
Proof.
  apply (exp_raises_when_exponent_is_zero half); [reflexivity | vm_compute; reflexivity].
Defined.

(** ** Ordering functions *)

Lemma is_finite_double (a : spec_float) :
  double a = true -> is_zero a = false -> mlib.is_finite (VFloat a) = Ok true.
Proof.
  intros Ha Hz. rewrite is_finite_spec.
  destruct a; try discriminate Ha; try discriminate Hz; reflexivity.
Qed.

(** X15. For all non-zero finite doubles [a] and [b], [min(a, b)] and
    [max(a, b)] return one of the two arguments, [min] one that is below
    or equal to both and [max] one that is above or equal to both. *)
Theorem min_max_correct (a b : spec_float) :
  double a = true -> is_zero a = false ->
  double b = true -> is_zero b = false ->
  exists lo hi,
    mlib.min (VFloat a) (VFloat b) = Ok (VFloat lo) /\
    mlib.max (VFloat a) (VFloat b) = Ok (VFloat hi) /\
    (lo = a \/ lo = b) /\ (hi = a \/ hi = b) /\
    py_le (VFloat lo) (VFloat a) = true /\ py_le (VFloat lo) (VFloat b) = true /\
    py_ge (VFloat hi) (VFloat a) = true /\ py_ge (VFloat hi) (VFloat b) = true.
Proof.
  intros Ha Za Hb Zb.
  exists (if Zval a <? Zval b then a else b), (if Zval a >? Zval b then a else b).
  unfold mlib.min, mlib.max. rewrite !is_finite_double by assumption.
  cbn [and_then assert bind]. rewrite py_lt_Zval, py_gt_Zval by assumption.
  split; [destruct (Zval a <? Zval b); reflexivity | ].
  split; [destruct (Zval a >? Zval b); reflexivity | ].
  destruct (Z.ltb_spec (Zval a) (Zval b)) as [L | L];
    destruct (Z.gtb_spec (Zval a) (Zval b)) as [G | G]; try lia;
    rewrite ?py_le_Zval, ?py_ge_Zval by assumption;
    repeat split; auto; try (apply Z.leb_le; lia); apply Z.geb_le; lia.
Qed.

Lemma min_max_correct_witness :
  exists lo hi,
    mlib.min (VFloat one_and_half) (VFloat (SFopp two)) = Ok (VFloat lo) /\
    mlib.max (VFloat one_and_half) (VFloat (SFopp two)) = Ok (VFloat hi) /\
    (lo = one_and_half \/ lo = SFopp two) /\ (hi = one_and_half \/ hi = SFopp two) /\
    py_le (VFloat lo) (VFloat one_and_half) = true /\
    py_le (VFloat lo) (VFloat (SFopp two)) = true /\
    py_ge (VFloat hi) (VFloat one_and_half) = true /\
    py_ge (VFloat hi) (VFloat (SFopp two)) = true.
Proof. apply (min_max_correct one_and_half (SFopp two)); reflexivity. Defined.

(** X16. For all non-zero finite doubles with [min_val <= max_val],
    [clamp(value, min_val, max_val)] returns a number [r] with
    [min_val <= r <= max_val], and [value] itself when
    [min_val <= value <= max_val]. *)
Theorem clamp_correct (v lo hi : spec_float) :
  double v = true -> is_zero v = false ->
  double lo = true -> is_zero lo = false ->
  double hi = true -> is_zero hi = false ->
  py_le (VFloat lo) (VFloat hi) = true ->
  exists r,
    mlib.clamp (VFloat v) (VFloat lo) (VFloat hi) = Ok (VFloat r) /\
    py_le (VFloat lo) (VFloat r) = true /\ py_le (VFloat r) (VFloat hi) = true /\
    (py_le (VFloat lo) (VFloat v) = true -> py_le (VFloat v) (VFloat hi) = true ->
     r = v).
Proof.
  intros Hv Zv Hl Zl Hh Zh Hle.
  rewrite py_le_Zval in Hle by assumption. apply Z.leb_le in Hle.
  unfold mlib.clamp. rewrite !is_finite_double by assumption.
  cbn [and_then assert bind]. rewrite py_lt_Zval, py_gt_Zval by assumption.
  destruct (Z.ltb_spec (Zval v) (Zval lo)) as [L | L].
  - exists lo. rewrite !py_le_Zval by assumption.
    split; [reflexivity | ]. split; [apply Z.leb_le; lia | ].
    split; [apply Z.leb_le; lia | ]. intros H _. apply Z.leb_le in H. lia.
  - destruct (Z.gtb_spec (Zval v) (Zval hi)) as [G | G].
    + exists hi. rewrite !py_le_Zval by assumption.
      split; [reflexivity | ]. split; [apply Z.leb_le; lia | ].
      split; [apply Z.leb_le; lia | ]. intros _ H. apply Z.leb_le in H. lia.
    + exists v. rewrite !py_le_Zval by assumption.
      split; [reflexivity | ]. split; [apply Z.leb_le; lia | ].
      split; [apply Z.leb_le; lia | ]. reflexivity.
Qed.

Lemma clamp_correct_witness :
  exists r,
    mlib.clamp (VFloat two) (VFloat half) (VFloat one_and_half) = Ok (VFloat r) /\
    py_le (VFloat half) (VFloat r) = true /\
    py_le (VFloat r) (VFloat one_and_half) = true /\
    (py_le (VFloat half) (VFloat two) = true ->
     py_le (VFloat two) (VFloat one_and_half) = true -> r = two).
Proof. apply (clamp_correct two half one_and_half); reflexivity. Defined.

(** ** Domain checks *)

Lemma compare_cases (a b : value) :
  (py_lt a b = true -> py_ge a b = false /\ py_gt a b = false /\ py_le a b = true) /\
  (py_gt a b = true -> py_le a b = false /\ py_lt a b = false /\ py_ge a b = true).
Proof.
  unfold py_lt, py_gt, py_le, py_ge.
  destruct (py_compare a b) as [[ | | ] | ]; repeat split; intros; try discriminate;
    reflexivity.
Qed.

(** X17. A finite non-zero argument outside the domain of a function
    makes its assertion fail with AssertionError: a negative argument of
    [sqrt] and [ln]; an argument below [-1] or above [1] of
    [asin] and [acos]; an argument below [1] of [acosh]; an argument at
    or beyond [-1] or [1] of [atanh]; a negative divisor of [rem] and
    [fdiv]. *)
Theorem out_of_domain_raises (fuel : nat) (a b : value) (x y : Z) :
  classify a = Finite -> classify b = Finite -> x <> 0 ->
  (py_lt a (VInt 0) = true ->
   mlib.sqrt a = Raise AssertionError /\
   mlib.ln fuel a = Raise AssertionError) /\
  (py_lt a (VInt (-1)) = true \/ py_gt a (VInt 1) = true ->
   mlib.asin a = Raise AssertionError /\
   mlib.acos a = Raise AssertionError) /\
  (py_lt a (VInt 1) = true -> mlib.acosh fuel a = Raise AssertionError) /\
  (py_le a (VInt (-1)) = true \/ py_ge a (VInt 1) = true ->
   mlib.atanh fuel a = Raise AssertionError) /\
  (py_lt b (VInt 0) = true -> mlib.fdiv a b = Raise AssertionError) /\
  (y < 0 -> mlib.rem x y = Raise AssertionError).
Proof.
  intros Ha Hb Hx.
  assert (Fa : mlib.is_finite a = Ok true) by (rewrite is_finite_spec, Ha; reflexivity).
  assert (Fb : mlib.is_finite b = Ok true) by (rewrite is_finite_spec, Hb; reflexivity).
  split; [ | split; [ | split; [ | split; [ | split]]]].
  - intros H. apply compare_cases in H. destruct H as (G & G' & _).
    unfold mlib.sqrt, mlib.ln. rewrite Fa. cbn [and_then bind]. rewrite G, G'.
    split; reflexivity.
  - intros H. unfold mlib.asin, mlib.acos. rewrite Fa. cbn [and_then bind].
    destruct H as [H | H]; apply compare_cases in H.
    + destruct H as (-> & _). split; reflexivity.
    + destruct H as (-> & _). rewrite andb_false_r. split; reflexivity.
  - intros H. apply compare_cases in H. destruct H as (G & _).
    unfold mlib.acosh. rewrite Fa. cbn [and_then bind]. rewrite G. reflexivity.
  - intros H. unfold mlib.atanh. rewrite Fa. cbn [and_then bind].
    assert (G : py_gt a (VInt (-1)) && py_lt a (VInt 1) = false).
    { unfold py_le, py_ge, py_gt, py_lt in *.
      destruct H as [H | H].
      - destruct (py_compare a (VInt (-1))) as [[ | | ] | ]; try discriminate H; reflexivity.
      - destruct (py_compare a (VInt 1)) as [[ | | ] | ]; try discriminate H;
          apply andb_false_r. }
    rewrite G. reflexivity.
  - intros H. apply compare_cases in H. destruct H as (_ & G & _).
    unfold mlib.fdiv. rewrite Fa, Fb. cbn [and_then bind]. rewrite G. reflexivity.
  - intros H. unfold mlib.rem. rewrite !is_finite_int by lia. cbn [and_then bind].
    destruct (Z.gtb_spec y 0); [lia | reflexivity].
Qed.

Lemma out_of_domain_raises_witness :
  (py_lt (VFloat (SFopp two)) (VInt 0) = true ->
   mlib.sqrt (VFloat (SFopp two)) = Raise AssertionError /\
   mlib.ln 0 (VFloat (SFopp two)) = Raise AssertionError) /\
  (py_lt (VFloat (SFopp two)) (VInt (-1)) = true \/
   py_gt (VFloat (SFopp two)) (VInt 1) = true ->
   mlib.asin (VFloat (SFopp two)) = Raise AssertionError /\
   mlib.acos (VFloat (SFopp two)) = Raise AssertionError) /\
  (py_lt (VFloat (SFopp two)) (VInt 1) = true ->
   mlib.acosh 0 (VFloat (SFopp two)) = Raise AssertionError) /\
  (py_le (VFloat (SFopp two)) (VInt (-1)) = true \/
   py_ge (VFloat (SFopp two)) (VInt 1) = true ->
   mlib.atanh 0 (VFloat (SFopp two)) = Raise AssertionError) /\
  (py_lt (VInt (-3)) (VInt 0) = true ->
   mlib.fdiv (VFloat (SFopp two)) (VInt (-3)) = Raise AssertionError) /\
  (-3 < 0 -> mlib.rem 7 (-3) = Raise AssertionError).
Proof.
  apply (out_of_domain_raises 0 (VFloat (SFopp two)) (VInt (-3)) 7 (-3));
    [reflexivity | reflexivity | lia].
Defined.

(** ** The bit-level codec *)

Lemma lor_disjoint (a b n : Z) :
  0 <= n -> 0 <= b < 2 ^ n -> Z.lor (Z.shiftl a n) b = a * 2 ^ n + b.
Proof.
  intros Hn Hb.
  assert (L : Z.land (Z.shiftl a n) b = 0).
  { apply Z.bits_inj'. intros i Hi. rewrite Z.land_spec, Z.bits_0.
    destruct (Z.lt_ge_cases i n) as [Lt | Ge].
    - rewrite Z.shiftl_spec_low by exact Lt. reflexivity.
    - assert (B : Z.testbit b i = false).
      { destruct (Z.eq_dec b 0) as [-> | Nb]; [apply Z.bits_0 | ].
        apply Z.bits_above_log2; [lia | ].
        apply Z.lt_le_trans with n; [ | exact Ge].
        apply Z.log2_lt_pow2; lia. }
      rewrite B. apply andb_false_r. }
  rewrite <- Z.lxor_lor by exact L.
  rewrite <- Z.add_nocarry_lxor by exact L.
  rewrite Z.shiftl_mul_pow2 by exact Hn. reflexivity.
Qed.

Lemma land_low (u n : Z) : 0 <= n -> Z.land u (2 ^ n - 1) = u mod 2 ^ n.
Proof.
  intros Hn. rewrite <- Z.land_ones by exact Hn. f_equal.
  rewrite Z.ones_equiv. lia.
Qed.

Lemma testbit_top (u n : Z) :
  0 <= n -> 0 <= u < 2 ^ (n + 1) -> Z.testbit u n = (2 ^ n <=? u).
Proof.
  intros Hn Hu. rewrite Z.testbit_odd, Z.shiftr_div_pow2 by exact Hn.
  assert (P : 0 < 2 ^ n) by (apply pow2_pos; exact Hn).
  rewrite (pow2_split n 1) in Hu by lia. change (2 ^ 1) with 2 in Hu.
  destruct (Z.leb_spec (2 ^ n) u) as [L | G].
  - replace (u / 2 ^ n) with 1; [reflexivity | ].
    apply Z.div_unique with (u - 2 ^ n); lia.
  - rewrite Z.div_small by lia. reflexivity.
Qed.

Lemma Z_of_byte_of_Z (z : Z) : Z_of_byte (byte_of_Z z) = z mod 256.
Proof.
  unfold Z_of_byte, byte_of_Z.
  change 255 with (2 ^ 8 - 1). rewrite land_low by lia. change (2 ^ 8) with 256.
  pose proof (Z.mod_pos_bound z 256 ltac:(lia)) as B.
  destruct (Byte.of_N (Z.to_N (z mod 256))) as [b | ] eqn:E.
  - apply Byte.to_of_N in E. rewrite E. apply Z2N.id. lia.
  - apply Byte.of_N_None_iff in E. lia.
Qed.

(** Four big-endian bytes hold a 32-bit word. *)
Lemma of_be_be32 (u : Z) : 0 <= u < 2 ^ 32 -> of_be (be32 u) = u.
Proof.
  intros Hu. unfold of_be, be32. cbn [fold_left].
  rewrite !Z_of_byte_of_Z, !Z.shiftr_div_pow2 by lia.
  change (2 ^ 24) with 16777216. change (2 ^ 16) with 65536. change (2 ^ 8) with 256.
  change (2 ^ 32) with 4294967296 in Hu.
  pose proof (Z.mod_pos_bound (u / 16777216) 256 ltac:(lia)) as B3.
  pose proof (Z.mod_pos_bound (u / 65536) 256 ltac:(lia)) as B2.
  pose proof (Z.mod_pos_bound (u / 256) 256 ltac:(lia)) as B1.
  pose proof (Z.mod_pos_bound u 256 ltac:(lia)) as B0.
  change (Z.shiftl 0 8) with 0. rewrite Z.lor_0_l.
  rewrite !lor_disjoint by (change (2 ^ 8) with 256; lia).
  change (2 ^ 8) with 256.
  pose proof (Z.div_mod u 256 ltac:(lia)) as D0.
  pose proof (Z.div_mod (u / 256) 256 ltac:(lia)) as D1.
  pose proof (Z.div_mod (u / 65536) 256 ltac:(lia)) as D2.
  assert (E2 : u / 65536 = u / 256 / 256) by (rewrite Z.div_div by lia; reflexivity).
  assert (E3 : u / 16777216 = u / 65536 / 256) by (rewrite Z.div_div by lia; reflexivity).
  assert (S3 : u / 16777216 < 256) by (apply Z.div_lt_upper_bound; lia).
  assert (P3 : 0 <= u / 16777216) by (apply Z.div_pos; lia).
  rewrite (Z.mod_small (u / 16777216)) by lia.
  rewrite E3, <- E2 in *. lia.
Qed.

(** The shape of a finite non-zero binary32. *)
Lemma single_inv (m : positive) (e : Z) :
  bounded prec32 emax32 m e = true ->
  -149 <= e <= 104 /\ Zpos (digits2_pos m) <= 24 /\
  (-149 < e -> Zpos (digits2_pos m) = 24).
Proof.
  unfold bounded, canonical_mantissa.
  change (fexp prec32 emax32 (Zpos (digits2_pos m) + e))
    with (Z.max (Zpos (digits2_pos m) + e - 24) (-149)).
  intros H. apply andb_prop in H. destruct H as [H1 H2].
  apply Z.eqb_eq in H1. apply Z.leb_le in H2.
  change (emax32 - prec32) with 104 in H2. lia.
Qed.

(** The 32 bits of a finite non-zero binary32, as a number. *)
Lemma bits_of_b32_value (s : bool) (m : positive) (e : Z) :
  bounded prec32 emax32 m e = true ->
  exists ex frac,
    bits_of_b32 (S754_finite s m e)
    = (if s then 2 ^ 31 else 0) + ex * 2 ^ 23 + frac /\
    0 <= ex < 255 /\ 0 <= frac < 2 ^ 23 /\
    (if Zpos (digits2_pos m) =? 24
     then ex = e + 150 /\ frac = Zpos m - 2 ^ 23 /\ 0 < ex
     else ex = 0 /\ frac = Zpos m /\ e = -149).
Proof.
  intros Hb. destruct (single_inv m e Hb) as (He & Hd & Hn).
  pose proof (digits2_bounds m) as B.
  cbn [bits_of_b32]. change prec32 with 24.
  assert (S : forall L, 0 <= L < 2 ^ 31 ->
                        Z.lor (sign_bit s) L = (if s then 2 ^ 31 else 0) + L).
  { intros L HL. destruct s; cbn [sign_bit]; [ | apply Z.lor_0_l].
    rewrite lor_disjoint by lia. lia. }
  destruct (Z.eqb_spec (Zpos (digits2_pos m)) 24) as [E | N].
  - rewrite E in B. change (2 ^ (24 - 1)) with 8388608 in B.
    change (2 ^ 24) with 16777216 in B.
    exists (e + 150), (Zpos m - 2 ^ 23).
    change (Z.shiftl 1 23) with (2 ^ 23). change (2 ^ 23) with 8388608.
    rewrite lor_disjoint by (change (2 ^ 23) with 8388608; lia).
    change (2 ^ 23) with 8388608.
    rewrite S by (change (2 ^ 31) with 2147483648; lia).
    split; [lia | ]. repeat split; lia.
  - assert (D : Zpos (digits2_pos m) <= 23) by lia.
    assert (M : Zpos m < 2 ^ 23).
    { apply Z.lt_le_trans with (1 := proj2 B). apply Z.pow_le_mono_r; lia. }
    change (2 ^ 23) with 8388608 in *.
    exists 0, (Zpos m).
    rewrite S by (change (2 ^ 31) with 2147483648; lia).
    split; [lia | ]. repeat split; lia.
Qed.

(** Decoding the bits of a finite non-zero binary32 gives it back. *)
Lemma b32_of_bits_of_b32 (s : bool) (m : positive) (e : Z) :
  bounded prec32 emax32 m e = true ->
  b32_of_bits (bits_of_b32 (S754_finite s m e)) = S754_finite s m e.
Proof.
  intros Hb. destruct (bits_of_b32_value s m e Hb) as (ex & frac & -> & Hex & Hfr & Hc).
  change (2 ^ 31) with 2147483648 in *. change (2 ^ 23) with 8388608 in *.
  set (u := (if s then 2147483648 else 0) + ex * 8388608 + frac).
  assert (Hu : 0 <= u < 2 ^ (31 + 1)).
  { change (2 ^ (31 + 1)) with 4294967296. unfold u. destruct s; lia. }
  assert (T : Z.testbit u 31 = s).
  { rewrite testbit_top by lia. change (2 ^ 31) with 2147483648.
    unfold u. destruct s; [apply Z.leb_le | apply Z.leb_gt]; lia. }
  assert (X : Z.land (Z.shiftr u 23) 255 = ex).
  { change 255 with (2 ^ 8 - 1). rewrite land_low, Z.shiftr_div_pow2 by lia.
    change (2 ^ 8) with 256. change (2 ^ 23) with 8388608.
    replace (u / 8388608) with ((if s then 256 else 0) + ex)
      by (apply Z.div_unique with frac; [lia | unfold u; destruct s; lia]).
    destruct s; [ | apply Z.mod_small; lia].
    symmetry. apply Z.mod_unique with 1; lia. }
  assert (F : Z.land u (Z.shiftl 1 23 - 1) = frac).
  { change (Z.shiftl 1 23) with (2 ^ 23). rewrite land_low by lia.
    change (2 ^ 23) with 8388608.
    symmetry. apply Z.mod_unique with ((if s then 256 else 0) + ex);
      [lia | unfold u; destruct s; lia]. }
  unfold b32_of_bits. cbv zeta. rewrite T, X, F.
  destruct (Z.eqb_spec (Zpos (digits2_pos m)) 24) as [E | N].
  - destruct Hc as (-> & -> & P).
    destruct (Z.eqb_spec (e + 150) 0) as [ | _]; [lia | ].
    destruct (Z.eqb_spec (e + 150) 255) as [ | _]; [lia | ].
    rewrite Z.lor_comm.
    rewrite lor_disjoint by (change (2 ^ 23) with 8388608; lia).
    change (2 ^ 23) with 8388608.
    replace (1 * 8388608 + (Zpos m - 8388608)) with (Zpos m) by lia.
    f_equal. lia.
  - destruct Hc as (-> & -> & ->). reflexivity.
Qed.

Lemma fexp32_eq (x : Z) : fexp prec32 emax32 x = Z.max (x - 24) (-149).
Proof. reflexivity. Qed.

Lemma shr_fexp32_noshift (m : positive) (e : Z) :
  bounded prec32 emax32 m e = true ->
  shr_fexp prec32 emax32 (Zpos m) e loc_Exact
  = (Build_shr_record (Zpos m) false false, e).
Proof.
  intros Hb. destruct (single_inv m e Hb) as (He & Hd & Hn).
  unfold shr_fexp. cbn [Zdigits2 shr_record_of_loc]. rewrite fexp32_eq.
  replace (Z.max (Zpos (digits2_pos m) + e - 24) (-149) - e) with 0 by lia.
  reflexivity.
Qed.

Lemma round_aux32_exact (s : bool) (m : positive) (e : Z) :
  bounded prec32 emax32 m e = true ->
  binary_round_aux prec32 emax32 s (Zpos m) e loc_Exact = S754_finite s m e.
Proof.
  intros Hb. destruct (single_inv m e Hb) as (He & _).
  unfold binary_round_aux. rewrite shr_fexp32_noshift by exact Hb.
  cbn [shr_m loc_of_shr_record round_nearest_even].
  rewrite shr_fexp32_noshift by exact Hb. cbn [shr_m].
  change (emax32 - prec32) with 104.
  destruct (Z.leb_spec e 104); [reflexivity | lia].
Qed.

(** Shifting out zeros only is exact. *)
Lemma shr_exact (m : positive) (p : positive) :
  iter_pos shr_1 p (Build_shr_record (Zpos m * 2 ^ Zpos p) false false)
  = Build_shr_record (Zpos m) false false.
Proof.
  assert (P : 0 < 2 ^ Zpos p) by (apply pow2_pos; lia).
  assert (N : 0 <= Zpos m * 2 ^ Zpos p) by nia.
  pose proof (shr_inv_iter (Zpos m * 2 ^ Zpos p) p 0 _ (Z.le_refl 0)
                (shr_inv_start _ N)) as H.
  rewrite Z.add_0_l in H.
  destruct (iter_pos shr_1 p _) as [q r t].
  destruct H as (Hq & rem & E & Hrem & Hf). cbn [shr_m shr_r shr_s] in *.
  assert (Q : q = Zpos m) by nia.
  assert (R : rem = 0) by nia.
  subst q rem. destruct r, t; try reflexivity; lia.
Qed.

Lemma round_aux32_shift (s : bool) (M m : positive) (E e : Z) :
  bounded prec32 emax32 m e = true ->
  E < e -> Zpos M = Zpos m * 2 ^ (e - E) ->
  Zpos (digits2_pos M) + E = Zpos (digits2_pos m) + e ->
  binary_round_aux prec32 emax32 s (Zpos M) E loc_Exact = S754_finite s m e.
Proof.
  intros Hb HE HM HD. destruct (single_inv m e Hb) as (He & Hd & Hn).
  unfold binary_round_aux. unfold shr_fexp at 1.
  cbn [Zdigits2 shr_record_of_loc]. rewrite HD, fexp32_eq.
  replace (Z.max (Zpos (digits2_pos m) + e - 24) (-149)) with e by lia.
  destruct (e - E) as [ | p | p] eqn:Ep; try lia.
  cbn [shr]. rewrite HM, shr_exact.
  cbn [shr_m loc_of_shr_record round_nearest_even].
  replace (E + Zpos p) with e by lia.
  rewrite shr_fexp32_noshift by exact Hb. cbn [shr_m].
  change (emax32 - prec32) with 104.
  destruct (Z.leb_spec e 104); [reflexivity | lia].
Qed.

(** Numbers of equal value have the same magnitude. *)
Lemma digits2_same_value (M m : positive) (E e : Z) :
  0 <= E -> 0 <= e -> Zpos M * 2 ^ E = Zpos m * 2 ^ e ->
  Zpos (digits2_pos M) + E = Zpos (digits2_pos m) + e.
Proof.
  intros HE He V.
  pose proof (digits2_bounds M) as BM. pose proof (digits2_bounds m) as Bm.
  set (dM := Zpos (digits2_pos M)) in *. set (dm := Zpos (digits2_pos m)) in *.
  assert (PE : 0 < 2 ^ E) by (apply pow2_pos; lia).
  assert (Pe : 0 < 2 ^ e) by (apply pow2_pos; lia).
  assert (L1 : 2 ^ (dM - 1 + E) <= Zpos M * 2 ^ E)
    by (rewrite (pow2_split (dM - 1) E) by (unfold dM; lia); nia).
  assert (U1 : Zpos M * 2 ^ E < 2 ^ (dM + E))
    by (rewrite (pow2_split dM E) by (unfold dM; lia); nia).
  assert (L2 : 2 ^ (dm - 1 + e) <= Zpos m * 2 ^ e)
    by (rewrite (pow2_split (dm - 1) e) by (unfold dm; lia); nia).
  assert (U2 : Zpos m * 2 ^ e < 2 ^ (dm + e))
    by (rewrite (pow2_split dm e) by (unfold dm; lia); nia).
  destruct (Z.lt_trichotomy (dM + E) (dm + e)) as [L | [Q | G]]; [ | exact Q | ].
  - assert (2 ^ (dM + E) <= 2 ^ (dm - 1 + e)) by (apply Z.pow_le_mono_r; lia). lia.
  - assert (2 ^ (dm + e) <= 2 ^ (dM - 1 + E)) by (apply Z.pow_le_mono_r; lia). lia.
Qed.

(** Rounding to binary32 a number that is a binary32 gives that binary32. *)
Lemma narrow_exact (s : bool) (M m : positive) (E e : Z) :
  bounded prec32 emax32 m e = true -> -1074 <= E ->
  Zpos M * 2 ^ (E + 1074) = Zpos m * 2 ^ (e + 1074) ->
  binary_round prec32 emax32 s M E = S754_finite s m e.
Proof.
  intros Hb HE V. destruct (single_inv m e Hb) as (He & Hd & Hn).
  pose proof (digits2_same_value M m (E + 1074) (e + 1074) ltac:(lia) ltac:(lia) V) as D.
  assert (D' : Zpos (digits2_pos M) + E = Zpos (digits2_pos m) + e) by lia.
  unfold binary_round. rewrite D', fexp32_eq.
  replace (Z.max (Zpos (digits2_pos m) + e - 24) (-149)) with e by lia.
  assert (PE : 0 < 2 ^ (E + 1074)) by (apply pow2_pos; lia).
  destruct (Z.le_gt_cases e E) as [L | G].
  - destruct (shl_align_spec M E e L) as [Hm Hz].
    destruct (shl_align M E e) as [mz ez]. cbn [fst snd] in Hm, Hz. subst ez.
    assert (mz = m).
    { assert (Pe : 0 < 2 ^ (e + 1074)) by (apply pow2_pos; lia).
      replace (E + 1074) with (E - e + (e + 1074)) in V by lia.
      rewrite (pow2_split (E - e) (e + 1074)), Z.mul_assoc, <- Hm in V by lia.
      apply Z.mul_cancel_r in V; [ | lia]. congruence. }
    subst mz. apply round_aux32_exact. exact Hb.
  - assert (A : shl_align M E e = (M, E)).
    { unfold shl_align. destruct (e - E) eqn:X; try reflexivity. lia. }
    rewrite A. apply round_aux32_shift; [exact Hb | lia | | exact D'].
    replace (e + 1074) with (e - E + (E + 1074)) in V by lia.
    rewrite (pow2_split (e - E) (E + 1074)), Z.mul_assoc in V by lia.
    apply Z.mul_cancel_r in V; [exact V | lia].
Qed.

(** A binary32 widened to a double keeps its value. *)
Lemma widen_exact (s : bool) (m : positive) (e : Z) :
  bounded prec32 emax32 m e = true ->
  exists M E,
    widen (S754_finite s m e) = S754_finite s M E /\ -1074 <= E /\
    Zpos M * 2 ^ (E + 1074) = Zpos m * 2 ^ (e + 1074).
Proof.
  intros Hb. destruct (single_inv m e Hb) as (He & Hd & _).
  pose proof (digits2_bounds m) as B.
  assert (Hm : Zpos m < 2 ^ 24).
  { apply Z.lt_le_trans with (1 := proj2 B). apply Z.pow_le_mono_r; lia. }
  assert (Hmax : Zpos m * 2 ^ (e + 1074) <= Zval max_double).
  { rewrite Zval_max_double.
    assert (2 ^ (e + 1074) <= 2 ^ 2045) by (apply Z.pow_le_mono_r; lia).
    assert (0 < 2 ^ (e + 1074)) by (apply pow2_pos; lia).
    change (2 ^ 24) with 16777216 in Hm.
    apply Z.mul_le_mono_nonneg; lia. }
  destruct (binary_round_spec s m e ltac:(lia) Hmax) as (M & E & R & D & _ & X).
  exists M, E. cbn [widen]. split; [exact R | ].
  destruct (double_inv _ _ _ D) as (HE & _). split; [lia | ]. apply X. lia.
Qed.

(** X18. For every finite non-zero binary32 value, widened to the double
    [x] that a caller holds, [to_bits(x)] returns its 32 bits as a signed
    integer and [to_float] of that integer returns [x] again: the round
    trip [to_float(to_bits(x)) == x] is exact. *)
Theorem to_float_to_bits (s : bool) (m : positive) (e : Z) :
  bounded prec32 emax32 m e = true ->
  exists bits,
    mlib.to_bits (VFloat (widen (S754_finite s m e))) = Ok bits /\
    - 2 ^ 31 <= bits < 2 ^ 31 /\
    mlib.to_float (VInt bits) = Ok (VFloat (widen (S754_finite s m e))).
Proof.
  intros Hb.
  destruct (widen_exact s m e Hb) as (M & E & W & HE & V). rewrite W.
  destruct (bits_of_b32_value s m e Hb) as (ex & frac & U & Hex & Hfr & Hc).
  pose proof (b32_of_bits_of_b32 s m e Hb) as RT.
  set (u := bits_of_b32 (S754_finite s m e)) in *.
  change (2 ^ 31) with 2147483648 in *. change (2 ^ 23) with 8388608 in *.
  assert (Hu : 0 < u < 4294967296).
  { rewrite U. destruct (Zpos (digits2_pos m) =? 24); destruct s; lia. }
  assert (T : Z.testbit u 31 = (2147483648 <=? u)).
  { apply (testbit_top u 31); [lia | change (2 ^ (31 + 1)) with 4294967296; lia]. }
  exists (if 2147483648 <=? u then u - 4294967296 else u).
  assert (TB : mlib.to_bits (VFloat (S754_finite s M E))
               = Ok (if 2147483648 <=? u then u - 4294967296 else u)).
  { unfold mlib.to_bits. rewrite is_finite_spec. cbn [classify assert bind].
    unfold pack_f, pack4. cbn [narrow].
    rewrite (narrow_exact s M m E e Hb HE V). cbn [is_inf andb]. cbn [bind].
    fold u. unfold unpack_l. cbn [length be32 Nat.eqb].
    change [byte_of_Z (Z.shiftr u 24); byte_of_Z (Z.shiftr u 16);
            byte_of_Z (Z.shiftr u 8); byte_of_Z u] with (be32 u).
    rewrite of_be_be32 by (change (2 ^ 32) with 4294967296; lia).
    rewrite T. reflexivity. }
  split; [exact TB | ].
  split; [destruct (Z.leb_spec 2147483648 u); lia | ].
  set (bits := if 2147483648 <=? u then u - 4294967296 else u).
  assert (Hbits : bits <> 0 /\ -2147483648 <= bits < 2147483648
                  /\ bits mod 4294967296 = u).
  { unfold bits. destruct (Z.leb_spec 2147483648 u) as [L | G].
    - split; [lia | ]. split; [lia | ].
      symmetry. apply Z.mod_unique with (-1); lia.
    - split; [lia | ]. split; [lia | ]. apply Z.mod_small. lia. }
  destruct Hbits as (N & R & Md).
  unfold mlib.to_float. rewrite is_finite_int by exact N. cbn [assert bind].
  unfold pack_l. change (2 ^ 31) with 2147483648.
  replace ((Z.opp 2147483648 <=? bits) && (bits <? 2147483648)) with true
    by (symmetry; apply andb_true_intro; split; [apply Z.leb_le | apply Z.ltb_lt]; lia).
  cbn [bind]. rewrite (land_low bits 32) by lia. change (2 ^ 32) with 4294967296.
  rewrite Md. unfold unpack_f. cbn [length be32 Nat.eqb].
  change [byte_of_Z (Z.shiftr u 24); byte_of_Z (Z.shiftr u 16);
          byte_of_Z (Z.shiftr u 8); byte_of_Z u] with (be32 u).
  rewrite of_be_be32 by (change (2 ^ 32) with 4294967296; lia).
  rewrite RT, W. reflexivity.
Qed.

Lemma to_float_to_bits_witness :
  exists bits,
    mlib.to_bits (VFloat (widen (S754_finite true 12582912 (-23)))) = Ok bits /\
    - 2 ^ 31 <= bits < 2 ^ 31 /\
    mlib.to_float (VInt bits) = Ok (VFloat (widen (S754_finite true 12582912 (-23)))).
Proof. apply (to_float_to_bits true 12582912 (-23)). reflexivity. Defined.

(** ** [abs] *)

Lemma compare_finite_zero (s : bool) (m : positive) (e : Z) :
  compare_float_int (S754_finite s m e) 0 = Some (if s then Lt else Gt).
Proof.
  cbn [compare_float_int]. f_equal. unfold compare_scaled.
  destruct e as [ | p | p].
  - rewrite Z.pow_0_r, Z.mul_1_r. destruct s; reflexivity.
  - assert (0 < 2 ^ Zpos p) by (apply pow2_pos; lia).
    destruct s; cbn [cond_Zopp];
      [apply Z.compare_lt_iff | apply Z.compare_gt_iff]; nia.
  - rewrite Z.mul_0_l. destruct s; reflexivity.
Qed.

(** X19. For every finite non-zero number [a], integer or float,
    [abs(a)] returns [a] itself or [-a], whichever is positive. *)
Theorem abs_correct (a : value) :
  classify a = Finite ->
  exists r,
    mlib.abs a = Ok r /\ (r = a \/ r = py_neg a) /\ py_gt r (VInt 0) = true.
Proof.
  intros Ha.
  assert (F : mlib.is_finite a = Ok true) by (rewrite is_finite_spec, Ha; reflexivity).
  unfold mlib.abs. rewrite F. cbn [assert bind]. unfold neg, ret. cbn [bind].
  destruct a as [z | [s | s | | s m e]]; try discriminate Ha.
  - assert (z <> 0) by (intros ->; discriminate Ha).
    unfold py_lt, py_gt. cbn [py_compare py_neg].
    destruct (Z.compare_spec z 0) as [E | L | G]; [lia | | ].
    + exists (VInt (- z)). split; [reflexivity | ]. split; [right; reflexivity | ].
      cbn [py_compare]. destruct (Z.compare_spec (- z) 0); try reflexivity; lia.
    + exists (VInt z). split; [reflexivity | ]. split; [left; reflexivity | ].
      cbn [py_compare]. destruct (Z.compare_spec z 0); try reflexivity; lia.
  - unfold py_lt, py_gt. cbn [py_compare py_neg SFopp].
    rewrite compare_finite_zero. destruct s.
    + exists (VFloat (S754_finite false m e)). split; [reflexivity | ].
      split; [right; reflexivity | ].
      cbn [py_compare negb]. rewrite compare_finite_zero. reflexivity.
    + exists (VFloat (S754_finite false m e)). split; [reflexivity | ].
      split; [left; reflexivity | ].
      cbn [py_compare]. rewrite compare_finite_zero. reflexivity.
Qed.

Lemma abs_correct_witness :
  exists r,
    mlib.abs (VFloat (SFopp two)) = Ok r /\
    (r = VFloat (SFopp two) \/ r = py_neg (VFloat (SFopp two))) /\
    py_gt r (VInt 0) = true.
Proof. apply (abs_correct (VFloat (SFopp two))). reflexivity. Defined.

(** ** [mode] *)

Lemma py_eq_ints (x y : Z) : py_eq (VInt x) (VInt y) = (x =? y).
Proof.
  unfold py_eq. cbn [py_compare].
  destruct (Z.compare_spec x y), (Z.eqb_spec x y); try reflexivity; lia.
Qed.

(** The index loop of [mode] is [mode_scan]. *)
Lemma mode_loop (t : list Z) :
  forall (p : list Z) (x mode mx cur : Z),
    for_each (range (Z.of_nat (length (p ++ [x]))) (Z.of_nat (length (p ++ x :: t))))
      (fun i '((mode, max_count, current_count) : value * Z * Z) =>
         a <- get (map VInt (p ++ x :: t)) i ;;
         b <- get (map VInt (p ++ x :: t)) (i - 1) ;;
         if py_eq a b then Ok (mode, max_count, current_count + 1)
         else if current_count >? max_count then
           mode <- get (map VInt (p ++ x :: t)) (i - 1) ;;
           Ok (mode, current_count, 1)
         else Ok (mode, max_count, 1))
      (VInt mode, mx, cur)
    = Ok (let '(m, a, b) := mode_scan x t (mode, mx, cur) in (VInt m, a, b)).
Proof.
  induction t as [ | y t IH]; intros p x mode mx cur.
  - rewrite range_empty by (rewrite !length_app; cbn [length]; lia). reflexivity.
  - rewrite range_cons by (rewrite !length_app; cbn [length]; lia).
    cbn [for_each].
    assert (G1 : get (map VInt (p ++ x :: y :: t)) (Z.of_nat (length (p ++ [x])))
                 = Ok (VInt y)).
    { replace (p ++ x :: y :: t) with ((p ++ [x]) ++ y :: t)
        by (rewrite <- app_assoc; reflexivity).
      apply get_ints. }
    assert (G0 : get (map VInt (p ++ x :: y :: t)) (Z.of_nat (length (p ++ [x])) - 1)
                 = Ok (VInt x)).
    { replace (Z.of_nat (length (p ++ [x])) - 1) with (Z.of_nat (length p))
        by (rewrite length_app; cbn [length]; lia).
      apply get_ints. }
    rewrite G1. cbn [bind]. rewrite G0. cbn [bind]. rewrite py_eq_ints.
    specialize (IH (p ++ [x]) y).
    replace ((p ++ [x]) ++ y :: t) with (p ++ x :: y :: t) in IH
      by (rewrite <- app_assoc; reflexivity).
    replace (Z.of_nat (length (p ++ [x])) + 1) with (Z.of_nat (length ((p ++ [x]) ++ [y])))
      by (rewrite !length_app; cbn [length]; lia).
    cbn [mode_scan]. unfold mode_step.
    destruct (y =? x).
    + cbn [bind]. apply IH.
    + destruct (cur >? mx); cbn [bind]; apply IH.
Qed.

Lemma repeat_snoc (v : Z) (n : nat) : repeat v (S n) = repeat v n ++ [v].
Proof. cbn [repeat]. apply repeat_cons. Qed.

Lemma run_app_r (pre l : list Z) (v : Z) (j : nat) :
  run pre v j -> run (pre ++ l) v j.
Proof.
  intros (p & t & ->). exists p, (t ++ l). rewrite <- !app_assoc. reflexivity.
Qed.

Lemma run_length (zs : list Z) (v : Z) (j : nat) :
  run zs v j -> (j <= length zs)%nat.
Proof.
  intros (p & t & ->). rewrite !length_app, repeat_length. lia.
Qed.

(** A run in a list with one more element was there before, or ends with
    the new element. *)
Lemma run_snoc (pre : list Z) (y v : Z) (j : nat) :
  run (pre ++ [y]) v j ->
  run pre v j \/
  (v = y /\ exists p0 j', j = S j' /\ pre = p0 ++ repeat y j').
Proof.
  intros (p & t & E). revert E.
  induction t as [ | z t' _] using rev_ind; intros E.
  - rewrite app_nil_r in E. destruct j as [ | j'].
    + left. exists pre, []. cbn [repeat]. rewrite !app_nil_r. reflexivity.
    + rewrite repeat_snoc, app_assoc in E. apply app_inj_tail in E.
      destruct E as [E <-]. right. split; [reflexivity | ].
      exists p, j'. split; [reflexivity | exact E].
  - left. rewrite !app_assoc in E. apply app_inj_tail in E. destruct E as [E _].
    exists p, t'. rewrite E, <- app_assoc. reflexivity.
Qed.

(** A run of [x] at the end of a list is not longer than the longest one. *)
Lemma suffix_run_bound (x : Z) (c : nat) :
  forall (q p0 : list Z) (j : nat),
    (forall q' z, q = q' ++ [z] -> z <> x) ->
    q ++ repeat x c = p0 ++ repeat x j -> (j <= c)%nat.
Proof.
  induction c as [ | c IH]; intros q p0 j Hq E.
  - destruct j as [ | j]; [lia | exfalso].
    cbn [repeat] in E. rewrite app_nil_r in E.
    change (x :: repeat x j) with (repeat x (S j)) in E.
    rewrite repeat_snoc, app_assoc in E.
    exact (Hq _ _ E eq_refl).
  - destruct j as [ | j]; [lia | ].
    rewrite !repeat_snoc, !app_assoc in E. apply app_inj_tail in E.
    destruct E as [E _]. apply IH in E; [lia | exact Hq].
Qed.

Lemma mode_inv_step (pre : list Z) (x y : Z) (st : Z * Z * Z) :
  mode_inv pre x st -> mode_inv (pre ++ [y]) y (mode_step x y st).
Proof.
  destruct st as [[mode mx] cur]. unfold mode_inv, mode_step.
  intros (Hmx & Hcur & (q & Eq & Hq) & Hrun & Hmax).
  destruct (Z.eqb_spec y x) as [-> | N].
  - split; [exact Hmx | ]. split; [lia | ]. split; [ | split].
    + exists q. split; [ | exact Hq].
      replace (Z.to_nat (cur + 1)) with (S (Z.to_nat cur)) by lia.
      rewrite repeat_snoc, app_assoc, <- Eq. reflexivity.
    + apply run_app_r. exact Hrun.
    + intros v j R. apply run_snoc in R. destruct R as [R | (-> & p0 & j' & -> & E)].
      * specialize (Hmax v j R). lia.
      * rewrite Eq in E. apply suffix_run_bound in E; [lia | exact Hq].
  - assert (L : forall p0 j', pre = p0 ++ repeat y j' -> j' = O).
    { intros p0 j' E. destruct j' as [ | j']; [reflexivity | exfalso].
      rewrite Eq in E.
      replace (Z.to_nat cur) with (S (Z.to_nat cur - 1)) in E by lia.
      rewrite !repeat_snoc, !app_assoc in E. apply app_inj_tail in E.
      destruct E as [_ E]. congruence. }
    assert (A : exists q0, pre ++ [y] = q0 ++ repeat y (Z.to_nat 1) /\
                           forall q' z, q0 = q' ++ [z] -> z <> y).
    { exists pre. split; [reflexivity | ].
      intros q' z E. rewrite Eq in E.
      replace (Z.to_nat cur) with (S (Z.to_nat cur - 1)) in E by lia.
      rewrite repeat_snoc, app_assoc in E. apply app_inj_tail in E.
      destruct E as [_ E]. congruence. }
    assert (B : forall v j, run (pre ++ [y]) v j -> Z.of_nat j <= Z.max (Z.max mx cur) 1).
    { intros v j R. apply run_snoc in R. destruct R as [R | (-> & p0 & j' & -> & E)].
      - specialize (Hmax v j R). lia.
      - apply L in E. subst j'. lia. }
    destruct (Z.gtb_spec cur mx) as [G | G].
    + split; [lia | ]. split; [lia | ]. split; [exact A | ]. split.
      * apply run_app_r. exists q, []. rewrite app_nil_r. exact Eq.
      * intros v j R. specialize (B v j R). lia.
    + split; [lia | ]. split; [lia | ]. split; [exact A | ]. split.
      * apply run_app_r. exact Hrun.
      * intros v j R. specialize (B v j R). lia.
Qed.

Lemma mode_inv_scan (l : list Z) :
  forall (pre : list Z) (x : Z) (st : Z * Z * Z),
    mode_inv pre x st ->
    exists x', mode_inv (pre ++ l) x' (mode_scan x l st).
Proof.
  induction l as [ | y l IH]; intros pre x st H.
  - exists x. rewrite app_nil_r. exact H.
  - cbn [mode_scan].
    replace (pre ++ y :: l) with ((pre ++ [y]) ++ l) by (rewrite <- app_assoc; reflexivity).
    apply IH. apply mode_inv_step. exact H.
Qed.

Lemma get_last_int (p : list Z) (z : Z) :
  get (map VInt (p ++ [z])) (-1) = Ok (VInt z).
Proof.
  transitivity (get (map VInt (p ++ [z])) (Z.of_nat (length p)));
    [ | apply get_ints].
  unfold get. change (-1 <? 0) with true. cbv iota.
  rewrite length_map, length_app. cbn [length].
  replace (Z.of_nat (length p + 1) + -1) with (Z.of_nat (length p)) by lia.
  assert (E : (Z.of_nat (length p) <? 0) = false) by (apply Z.ltb_ge; lia).
  rewrite !E. reflexivity.
Qed.

(** X20. For every non-empty list of integers, [mode(data)] returns an
    element that has the longest run of consecutive equal elements: it
    occurs [k] times in a row somewhere in the list, and no integer
    occurs more than [k] times in a row (on a sorted list, a most
    frequent element). *)
Theorem mode_longest_run (zs : list Z) :
  zs <> [] ->
  exists r k,
    mlib.mode (map VInt zs) = Ok (VInt r) /\
    run zs r k /\ (1 <= k)%nat /\
    forall v j, run zs v j -> (j <= k)%nat.
Proof.
  intros H. destruct zs as [ | x0 t]; [contradiction | clear H].
  assert (I0 : mode_inv [x0] x0 (x0, 1, 1)).
  { unfold mode_inv. split; [lia | ]. split; [lia | ]. split; [ | split].
    - exists []. split; [reflexivity | ]. intros q' z E. destruct q'; discriminate E.
    - exists [], []. reflexivity.
    - intros v j R. apply run_length in R. cbn [length] in R. lia. }
  destruct (mode_inv_scan t [x0] x0 _ I0) as (x' & I).
  cbn [app] in I.
  pose proof (mode_loop t [] x0 x0 1 1) as L. cbn [app length Z.of_nat] in L.
  destruct (mode_scan x0 t (x0, 1, 1)) as [[m a] b].
  unfold mode_inv in I. destruct I as (Ha & Hb & (q & Eq & Hq) & Hrun & Hmax).
  exists (if b >? a then x' else m), (Z.to_nat (Z.max a b)).
  split; [ | split; [ | split]].
  - unfold mlib.mode, mlib.len. rewrite length_map. cbn [length].
    rewrite is_finite_int by lia. cbn [and_then bind].
    replace (Z.of_nat (S (length t)) >? 0) with true by (symmetry; apply Z.gtb_lt; lia).
    cbn [assert bind]. change (get (map VInt (x0 :: t)) 0) with (Ok (VInt x0)).
    cbn [bind].
    match goal with
    | |- context [for_each ?r ?f ?s] =>
        replace (for_each r f s) with (Ok (VInt m, a, b)) by (symmetry; exact L)
    end.
    cbn [bind].
    destruct (b >? a); [ | reflexivity].
    rewrite Eq. replace (Z.to_nat b) with (S (Z.to_nat b - 1)) by lia.
    rewrite repeat_snoc, app_assoc. apply get_last_int.
  - destruct (Z.gtb_spec b a) as [G | G].
    + replace (Z.max a b) with b by lia. exists q, []. rewrite app_nil_r. exact Eq.
    + replace (Z.max a b) with a by lia. exact Hrun.
  - lia.
  - intros v j R. specialize (Hmax v j R). lia.
Qed.

Lemma mode_longest_run_witness :
  exists r k,
    mlib.mode (map VInt [1; 2; 2; 3; 3; 3; 2]) = Ok (VInt r) /\
    run [1; 2; 2; 3; 3; 3; 2] r k /\ (1 <= k)%nat /\
    forall v j, run [1; 2; 2; 3; 3; 3; 2] v j -> (j <= k)%nat.
Proof. apply (mode_longest_run [1; 2; 2; 3; 3; 3; 2]). discriminate. Defined.

(** X21. [to_float] packs its argument as a signed 32-bit integer: an
    integer below [-2^31] or at least [2^31], and every finite non-zero
    float, is refused by [struct.pack('>l', a)] with struct.error. *)
Theorem to_float_rejects (z : Z) (x : spec_float) :
  z < - 2 ^ 31 \/ 2 ^ 31 <= z -> classify (VFloat x) = Finite ->
  mlib.to_float (VInt z) = Raise StructError /\
  mlib.to_float (VFloat x) = Raise StructError.
Proof.
  intros Hz Hx. unfold mlib.to_float. split.
  - rewrite is_finite_int by (change (2 ^ 31) with 2147483648 in Hz; lia).
    cbn [assert bind pack_l].
    destruct (Z.leb_spec (- 2 ^ 31) z) as [L | L]; [ | reflexivity].
    destruct (Z.ltb_spec z (2 ^ 31)) as [U | U]; [lia | reflexivity].
  - rewrite is_finite_spec, Hx. reflexivity.
Qed.

Lemma to_float_rejects_witness :
  mlib.to_float (VInt (2 ^ 31)) = Raise StructError /\
  mlib.to_float (VFloat one_and_half) = Raise StructError.
Proof.
  apply (to_float_rejects (2 ^ 31) one_and_half); [right; lia | reflexivity].
Defined.

(** A double of magnitude [2^128] or more rounds to an infinity in
    binary32. *)
Lemma narrow_overflow (s : bool) (M : positive) (E : Z) :
  double (S754_finite s M E) = true ->
  2 ^ 1202 <= Zpos M * 2 ^ (E + 1074) ->
  narrow (S754_finite s M E) = S754_infinity s.
Proof.
  intros Hd HV. destruct (double_inv _ _ _ Hd) as (HE & Hdig & Hc).
  pose proof (digits2_bounds M) as B.
  assert (PE : 0 < 2 ^ (E + 1074)) by (apply pow2_pos; lia).
  assert (E75 : 76 <= E).
  { destruct (Z.le_gt_cases 76 E) as [L | G]; [exact L | exfalso].
    assert (Hm : Zpos M < 2 ^ 53).
    { apply Z.lt_le_trans with (1 := proj2 B). apply Z.pow_le_mono_r; lia. }
    assert (2 ^ (E + 1074) <= 2 ^ 1149) by (apply Z.pow_le_mono_r; lia).
    assert (P : 2 ^ 1202 = 2 ^ 53 * 2 ^ 1149) by (rewrite <- (pow2_split 53 1149) by lia; reflexivity).
    assert (0 < 2 ^ 1149) by (apply pow2_pos; lia).
    set (w := 2 ^ (E + 1074)) in *. set (W := 2 ^ 1149) in *.
    change (2 ^ 53) with 9007199254740992 in *. nia. }
  rewrite Hc in B by lia. change (2 ^ (53 - 1)) with 4503599627370496 in B.
  change (2 ^ 53) with 9007199254740992 in B.
  cbn [narrow]. unfold binary_round. rewrite Hc, fexp32_eq by lia.
  replace (Z.max (53 + E - 24) (-149)) with (E + 29) by lia.
  assert (A : shl_align M E (E + 29) = (M, E)).
  { unfold shl_align. replace (E + 29 - E) with 29 by lia. reflexivity. }
  rewrite A. unfold binary_round_aux. unfold shr_fexp at 1.
  cbn [Zdigits2 shr_record_of_loc]. rewrite Hc, fexp32_eq by lia.
  replace (Z.max (53 + E - 24) (-149) - E) with 29 by lia.
  cbn [shr].
  pose proof (shr_inv_iter (Zpos M) 29 0 _ (Z.le_refl 0)
                (shr_inv_start (Zpos M) ltac:(lia))) as Hinv.
  rewrite Z.add_0_l in Hinv.
  set (rec := iter_pos shr_1 29 _) in *.
  pose proof (round_nearest_even_spec _ _ _ Hinv) as Hr. cbv zeta in Hr.
  set (q := shr_m rec) in *.
  set (m1 := round_nearest_even q (loc_of_shr_record rec)) in *.
  destruct Hr as (Hq & HM & _).
  change (2 ^ 29) with 536870912 in HM.
  assert (Hq1 : 8388608 <= q) by lia.
  assert (Hq2 : q < 16777216) by lia.
  unfold shr_fexp. cbn [shr_record_of_loc].
  destruct (Z.eq_dec m1 16777216) as [C | C].
  - rewrite C. change (Zdigits2 16777216) with 25. rewrite fexp32_eq.
    replace (Z.max (25 + (E + 29) - 24) (-149) - (E + 29)) with 1 by lia.
    cbn [shr iter_pos shr_1 shr_m]. change (emax32 - prec32) with 104.
    destruct (Z.leb_spec (E + 29 + 1) 104); [lia | reflexivity].
  - destruct m1 as [ | m1' | m1'] eqn:Em1; try lia.
    assert (D1 : Zpos (digits2_pos m1') = 24).
    { apply digits2_unique. change (2 ^ (24 - 1)) with 8388608.
      change (2 ^ 24) with 16777216. lia. }
    cbn [Zdigits2]. rewrite D1, fexp32_eq.
    replace (Z.max (24 + (E + 29) - 24) (-149) - (E + 29)) with 0 by lia.
    cbn [shr shr_m]. change (emax32 - prec32) with 104.
    destruct (Z.leb_spec (E + 29) 104); [lia | reflexivity].
Qed.

(** X22. For every finite double [a] of magnitude at least [2^128], too
    large for a 32-bit float, [to_bits(a)] raises OverflowError (from
    [struct.pack('>f', a)]), and so does [qisqrt(a)], which calls it. *)
Theorem to_bits_overflow (a : spec_float) :
  double a = true -> 2 ^ 1202 <= Z.abs (Zval a) ->
  mlib.to_bits (VFloat a) = Raise OverflowError /\
  mlib.qisqrt (VFloat a) = Raise OverflowError.
Proof.
  intros Ha HV.
  assert (P : 0 < 2 ^ 1202) by (apply pow2_pos; lia).
  destruct a as [s | s | | s M E]; try discriminate Ha; [cbn [Zval] in HV; lia | ].
  assert (HV' : 2 ^ 1202 <= Zpos M * 2 ^ (E + 1074)).
  { destruct (double_inv _ _ _ Ha) as (HE & _).
    assert (0 < 2 ^ (E + 1074)) by (apply pow2_pos; lia).
    cbn [Zval] in HV. destruct s; cbn [cond_Zopp] in HV; nia. }
  assert (B : mlib.to_bits (VFloat (S754_finite s M E)) = Raise OverflowError).
  { unfold mlib.to_bits. rewrite is_finite_spec. cbn [classify assert bind].
    unfold pack_f, pack4.
    rewrite (narrow_overflow s M E Ha HV'). reflexivity. }
  split; [exact B | ].
  unfold mlib.qisqrt. rewrite is_finite_spec. cbn [classify assert bind].
  unfold lift2 at 1, ret at 1 2. cbn [bind py_mul arith to_f]. rewrite B. reflexivity.
Qed.

Lemma to_bits_overflow_witness :
  mlib.to_bits (VFloat max_double) = Raise OverflowError /\
  mlib.qisqrt (VFloat max_double) = Raise OverflowError.
Proof.
  apply (to_bits_overflow max_double); [reflexivity | vm_compute; discriminate].
Defined.

(** * The range reduction of [ln] *)

Lemma shr_fexp_noshift (m : positive) (e : Z) :
  double (S754_finite false m e) = true ->
  shr_fexp prec emax (Zpos m) e loc_Exact
  = (Build_shr_record (Zpos m) false false, e).
Proof.
  intros Hb. destruct (double_inv _ _ _ Hb) as (He & Hd & Hn).
  unfold shr_fexp. cbn [Zdigits2 shr_record_of_loc]. rewrite fexp_eq.
  replace (Z.max (Zpos (digits2_pos m) + e - 53) (-1074) - e) with 0 by lia.
  reflexivity.
Qed.

(** Rounding a mantissa with trailing zeros only to drop is exact. *)
Lemma round_aux_exact (s : bool) (M m : positive) (E e : Z) :
  double (S754_finite false m e) = true ->
  E <= e -> Zpos M = Zpos m * 2 ^ (e - E) ->
  binary_round_aux prec emax s (Zpos M) E loc_Exact = S754_finite s m e.
Proof.
  intros Hb HE HM. destruct (double_inv _ _ _ Hb) as (He & Hd & Hn).
  assert (HD : Zpos (digits2_pos M) = Zpos (digits2_pos m) + (e - E))
    by (apply digits2_shift; [lia | exact HM]).
  assert (T : forall x,
             (let '(mrs'', e'') := shr_fexp prec emax (Zpos m) e loc_Exact in
              match shr_m mrs'' with
              | 0 => S754_zero s
              | Zpos m0 => if e'' <=? emax - prec then S754_finite s m0 e''
                           else S754_infinity s
              | Zneg _ => x
              end) = S754_finite s m e).
  { intros x. rewrite shr_fexp_noshift by exact Hb. cbn [shr_m].
    change (emax - prec) with 971.
    destruct (Z.leb_spec e 971); [reflexivity | lia]. }
  unfold binary_round_aux. unfold shr_fexp at 1.
  cbn [Zdigits2 shr_record_of_loc]. rewrite HD, fexp_eq.
  replace (Z.max (Zpos (digits2_pos m) + (e - E) + E - 53) (-1074)) with e by lia.
  destruct (e - E) as [ | p | p] eqn:Ep; try lia.
  - cbn [shr shr_m loc_of_shr_record round_nearest_even].
    rewrite Z.pow_0_r, Z.mul_1_r in HM. injection HM as ->.
    replace E with e by lia. apply T.
  - cbn [shr]. rewrite HM, shr_exact.
    cbn [shr_m loc_of_shr_record round_nearest_even].
    replace (E + Zpos p) with e by lia. apply T.
Qed.

(** Multiplying a double by [2.0] doubles its value, exactly. *)
Lemma fmul_two (x : spec_float) :
  double x = true -> 2 * Z.abs (Zval x) <= Zval max_double ->
  double (fmul x two) = true /\ Zval (fmul x two) = 2 * Zval x.
Proof.
  intros Hx Hmax.
  destruct x as [s | s | | s m e]; try discriminate Hx.
  - split; reflexivity.
  - destruct (double_inv _ _ _ Hx) as (He & Hd & Hn).
    pose proof (digits2_bounds m) as B.
    assert (Pw : 0 < 2 ^ (e + 1074)) by (apply pow2_pos; lia).
    unfold fmul, two. cbn [SFmul]. rewrite xorb_false_r.
    destruct (Z.eq_dec (Zpos (digits2_pos m)) 53) as [D | D].
    + assert (E971 : e + 1 <= 971).
      { destruct (Z.le_gt_cases (e + 1) 971) as [L | G]; [exact L | exfalso].
        assert (e = 971) by lia. subst e.
        rewrite D in B. change (2 ^ (53 - 1)) with 4503599627370496 in B.
        rewrite Zval_max_double in Hmax. change (971 + 1074) with 2045 in *.
        assert (V : Z.abs (Zval (S754_finite s m 971)) = Zpos m * 2 ^ 2045)
          by (destruct s; cbn [Zval cond_Zopp]; change (971 + 1074) with 2045; lia).
        rewrite V in Hmax. nia. }
      assert (Hb : double (S754_finite false m (e + 1)) = true)
        by (apply double_intro; lia).
      rewrite (round_aux_exact s _ m (e + -51) (e + 1) Hb).
      * split; [apply double_intro; lia | ].
        replace (e + 1 + 1074) with (1 + (e + 1074)) by lia.
        cbn [Zval]. replace (e + 1 + 1074) with (1 + (e + 1074)) by lia.
        rewrite (pow2_split 1 (e + 1074)) by lia. change (2 ^ 1) with 2.
        destruct s; cbn [cond_Zopp]; lia.
      * lia.
      * replace (e + 1 - (e + -51)) with 52 by lia.
        rewrite Pos2Z.inj_mul. reflexivity.
    + assert (E : e = -1074) by lia. subst e.
      assert (D' : Zpos (digits2_pos m) <= 52) by lia.
      assert (Hb : double (S754_finite false (m~0) (-1074)) = true).
      { apply double_intro; [lia | | lia]. cbn [digits2_pos].
        rewrite Pos2Z.inj_succ. lia. }
      rewrite (round_aux_exact s _ (m~0) (-1074 + -51) (-1074) Hb).
      * split; [apply double_intro; [lia | cbn [digits2_pos]; rewrite Pos2Z.inj_succ; lia | lia] | ].
        cbn [Zval]. rewrite (Pos2Z.inj_xO m).
        destruct s; cbn [cond_Zopp]; lia.
      * lia.
      * replace (-1074 - (-1074 + -51)) with 51 by lia.
        rewrite Pos2Z.inj_mul, (Pos2Z.inj_xO m).
        change (Zpos 4503599627370496) with (2 * 2 ^ 51). ring.
Qed.

Lemma div_core_two (m : positive) (e : Z) :
  Zpos (digits2_pos m) = 53 -> -1072 <= e ->
  SFdiv_core_binary prec emax (Zpos m) e 4503599627370496 (-51)
  = (Zpos m~0, e - 2, loc_Exact).
Proof.
  intros Hd He. unfold SFdiv_core_binary. cbn [Zdigits2]. rewrite Hd.
  change (Zpos (digits2_pos 4503599627370496)) with 53.
  rewrite fexp_eq.
  replace (Z.min (Z.max (53 + e - (53 + -51) - 53) (-1074)) (e - -51)) with (e - 2) by lia.
  replace (e - -51 - (e - 2)) with 53 by lia.
  cbv iota beta zeta. rewrite Z.shiftl_mul_pow2 by lia.
  assert (H : Z.div_eucl (Zpos m * 2 ^ 53) 4503599627370496 = (Zpos m~0, 0)).
  { generalize (Z.div_eucl_eq (Zpos m * 2 ^ 53) 4503599627370496).
    generalize (Z.mod_pos_bound (Zpos m * 2 ^ 53) 4503599627370496).
    unfold Z.modulo, Z.div.
    destruct (Z.div_eucl (Zpos m * 2 ^ 53) 4503599627370496) as [q r].
    intros Hb Hq. specialize (Hb ltac:(lia)). specialize (Hq ltac:(lia)).
    change (2 ^ 53) with 9007199254740992 in Hq.
    rewrite (Pos2Z.inj_xO m). f_equal; lia. }
  rewrite H. reflexivity.
Qed.

(** Dividing a normal double by [2.0] halves its value, exactly. *)
Lemma fdivide_two (s : bool) (m : positive) (e : Z) :
  double (S754_finite s m e) = true -> -1072 <= e ->
  double (fdivide (S754_finite s m e) two) = true /\
  2 * Zval (fdivide (S754_finite s m e) two) = Zval (S754_finite s m e).
Proof.
  intros Hx He. destruct (double_inv _ _ _ Hx) as (HE & Hd & Hn).
  assert (D : Zpos (digits2_pos m) = 53) by (apply Hn; lia).
  assert (Hb : double (S754_finite false m (e - 1)) = true)
    by (apply double_intro; lia).
  unfold fdivide, two. cbn [SFdiv]. rewrite div_core_two by assumption.
  rewrite xorb_false_r.
  rewrite (round_aux_exact s (m~0) m (e - 2) (e - 1) Hb);
    [ | lia | replace (e - 1 - (e - 2)) with 1 by lia; rewrite (Pos2Z.inj_xO m); lia].
  split; [apply double_intro; lia | ].
  cbn [Zval]. replace (e + 1074) with (1 + (e - 1 + 1074)) by lia.
  rewrite (pow2_split 1 (e - 1 + 1074)) by lia. change (2 ^ 1) with 2.
  destruct s; cbn [cond_Zopp]; lia.
Qed.

(** A double compared with an integer, on the values. *)
Lemma compare_float_int_Zval (x : spec_float) (z : Z) :
  double x = true ->
  compare_float_int x z = Some (Zval x ?= z * 2 ^ 1074).
Proof.
  intros Hx. assert (P : 0 < 2 ^ 1074) by (apply pow2_pos; lia).
  destruct x as [s | s | | s m e]; try discriminate Hx; cbn [compare_float_int Zval].
  - f_equal. destruct (Z.compare_spec 0 z), (Z.compare_spec 0 (z * 2 ^ 1074));
      try reflexivity; nia.
  - destruct (double_inv _ _ _ Hx) as (He & _). f_equal. unfold compare_scaled.
    set (c := cond_Zopp s (Zpos m)).
    assert (C : cond_Zopp s (Zpos m * 2 ^ (e + 1074)) = c * 2 ^ (e + 1074))
      by (unfold c; destruct s; cbn [cond_Zopp]; lia).
    rewrite C. destruct e as [ | p | p].
    + rewrite Z.pow_0_r, Z.mul_1_r. change (0 + 1074) with 1074.
      destruct (Z.compare_spec c z), (Z.compare_spec (c * 2 ^ 1074) (z * 2 ^ 1074));
        try reflexivity; nia.
    + rewrite (pow2_split (Zpos p) 1074) by lia.
      assert (0 < 2 ^ Zpos p) by (apply pow2_pos; lia).
      set (g := 2 ^ Zpos p) in *.
      destruct (Z.compare_spec (c * g) z),
        (Z.compare_spec (c * (g * 2 ^ 1074)) (z * 2 ^ 1074)); try reflexivity; nia.
    + assert (E : 2 ^ 1074 = 2 ^ Zpos p * 2 ^ (Zneg p + 1074)).
      { rewrite <- (pow2_split (Zpos p) (Zneg p + 1074)) by lia. f_equal. lia. }
      assert (0 < 2 ^ Zpos p) by (apply pow2_pos; lia).
      assert (0 < 2 ^ (Zneg p + 1074)) by (apply pow2_pos; lia).
      rewrite E. set (g := 2 ^ Zpos p) in *. set (w := 2 ^ (Zneg p + 1074)) in *.
      destruct (Z.compare_spec c (z * g)),
        (Z.compare_spec (c * w) (z * (g * w))); try reflexivity; nia.
Qed.

Lemma py_gt_int_Zval (x : spec_float) (z : Z) :
  double x = true -> py_gt (VFloat x) (VInt z) = (Zval x >? z * 2 ^ 1074).
Proof.
  intros Hx. unfold py_gt. cbn [py_compare].
  rewrite compare_float_int_Zval by exact Hx. reflexivity.
Qed.

Lemma py_lt_int_Zval (x : spec_float) (z : Z) :
  double x = true -> py_lt (VFloat x) (VInt z) = (Zval x <? z * 2 ^ 1074).
Proof.
  intros Hx. unfold py_lt. cbn [py_compare].
  rewrite compare_float_int_Zval by exact Hx. reflexivity.
Qed.

Lemma py_le_int_Zval (x : spec_float) (z : Z) :
  double x = true -> py_le (VFloat x) (VInt z) = (Zval x <=? z * 2 ^ 1074).
Proof.
  intros Hx. unfold py_le, Z.leb. cbn [py_compare].
  rewrite compare_float_int_Zval by exact Hx.
  destruct (Zval x ?= z * 2 ^ 1074); reflexivity.
Qed.

Lemma py_ge_int_Zval (x : spec_float) (z : Z) :
  double x = true -> py_ge (VFloat x) (VInt z) = (Zval x >=? z * 2 ^ 1074).
Proof.
  intros Hx. unfold py_ge, Z.geb. cbn [py_compare].
  rewrite compare_float_int_Zval by exact Hx.
  destruct (Zval x ?= z * 2 ^ 1074); reflexivity.
Qed.

(** One turn of [while a > 2: a /= 2]. *)
Lemma halve_step (x : spec_float) :
  double x = true -> 2 * 2 ^ 1074 < Zval x ->
  exists x',
    py_truediv (VFloat x) (VInt 2) = Ok (VFloat x') /\ double x' = true /\
    2 * Zval x' = Zval x.
Proof.
  intros Hx HV. assert (P : 0 < 2 ^ 1074) by (apply pow2_pos; lia).
  destruct x as [s | s | | s m e]; try discriminate Hx; [cbn [Zval] in HV; lia | ].
  destruct (double_inv _ _ _ Hx) as (He & Hd & _).
  pose proof (Zval_sign s m e ltac:(lia)) as S. destruct s; [lia | clear S].
  assert (E : -1072 <= e).
  { destruct (Z.le_gt_cases (-1072) e) as [L | G]; [exact L | exfalso].
    pose proof (digits2_bounds m) as B.
    assert (Hm : Zpos m < 2 ^ 53).
    { apply Z.lt_le_trans with (1 := proj2 B). apply Z.pow_le_mono_r; lia. }
    assert (W : 2 ^ (e + 1074) <= 2 ^ 1) by (apply Z.pow_le_mono_r; lia).
    assert (0 < 2 ^ (e + 1074)) by (apply pow2_pos; lia).
    assert (Q : 2 ^ 1074 = 2 ^ 53 * 2 ^ 1021)
      by (rewrite <- (pow2_split 53 1021) by lia; reflexivity).
    assert (0 < 2 ^ 1021) by (apply pow2_pos; lia).
    cbn [Zval cond_Zopp] in HV. change (2 ^ 1) with 2 in W.
    change (2 ^ 53) with 9007199254740992 in *.
    set (w := 2 ^ (e + 1074)) in *. set (g := 2 ^ 1021) in *. nia. }
  destruct (fdivide_two false m e Hx E) as (D & V).
  exists (fdivide (S754_finite false m e) two).
  split; [ | split; assumption].
  apply truediv_float_int; reflexivity.
Qed.

(** One turn of [while a < 1: a *= 2]. *)
Lemma double_step (x : spec_float) :
  double x = true -> 0 < Zval x < 2 ^ 1074 ->
  exists x',
    py_mul (VFloat x) (VInt 2) = Ok (VFloat x') /\ double x' = true /\
    Zval x' = 2 * Zval x.
Proof.
  intros Hx HV.
  assert (M : 2 * 2 ^ 1074 <= Zval max_double) by (vm_compute; discriminate).
  destruct (fmul_two x Hx ltac:(lia)) as (D & V).
  exists (fmul x two). split; [reflexivity | ]. split; assumption.
Qed.

(** The two loops of [ln] on a positive double: they end, with the
    argument in [[1, 2]], below [2] after a doubling, and nothing is
    rounded on the way. *)
Lemma ln_reduce_returns (a : spec_float) :
  double a = true -> py_gt (VFloat a) (VInt 0) = true ->
  exists fuel r exp,
    mlib.ln_reduce fuel (VFloat a) = Ok (VFloat r, exp) /\ double r = true /\
    py_ge (VFloat r) (VInt 1) = true /\ py_le (VFloat r) (VInt 2) = true /\
    (0 <= exp -> Zval r * 2 ^ exp = Zval a) /\
    (exp <= 0 -> Zval r = Zval a * 2 ^ (- exp)) /\
    (exp < 0 -> Zval r < 2 * 2 ^ 1074).
Proof.
  intros Ha Hpos. rewrite py_gt_int_Zval in Hpos by exact Ha.
  apply Z.gtb_lt in Hpos. rewrite Z.mul_0_l in Hpos.
  assert (P : 0 < 2 ^ 1074) by (apply pow2_pos; lia).
  set (u := 2 ^ 1074) in *. set (A := Zval a) in *.
  set (val := fun s : value * Z => match fst s with VFloat x => Zval x | VInt _ => 0 end).
  unfold mlib.ln_reduce.
  assert (L1 : exists fuel x e,
             while fuel (fun '(a, _) => Ok (py_gt a (VInt 2)))
               (fun '((a, exp) : value * Z) =>
                  a <- lift2 py_truediv (ret a) (ret (VInt 2)) ;; Ok (a, exp + 1))
               (VFloat a, 0) = Ok (VFloat x, e) /\
             double x = true /\ 0 < Zval x <= 2 * u /\ 0 <= e /\
             Zval x * 2 ^ e = A /\ (e = 0 \/ u < Zval x)).
  { destruct (while_terminates
                (fun '(a, _) => Ok (py_gt a (VInt 2)))
                (fun '((a, exp) : value * Z) =>
                   a <- lift2 py_truediv (ret a) (ret (VInt 2)) ;; Ok (a, exp + 1))
                (fun s => exists x, fst s = VFloat x /\ double x = true /\
                                    0 < Zval x /\ 0 <= snd s /\
                                    Zval x * 2 ^ snd s = A /\ (snd s = 0 \/ u < Zval x))
                val) with (s := (VFloat a, 0))
      as (fuel & [v e] & W & (x & Ev & Dx & Px & He & Rx & Ux) & C).
    - intros [v e] (x & Ev & Dx & Px & He & Rx & Ux). cbn [fst snd] in *. subst v.
      rewrite py_gt_int_Zval by exact Dx. fold u.
      destruct (Z.gtb_spec (Zval x) (2 * u)) as [G | G]; [right | left; reflexivity].
      split; [reflexivity | ]. unfold val. cbn [fst]. split; [lia | ].
      destruct (halve_step x Dx G) as (x' & E' & D' & V').
      exists (VFloat x', e + 1). unfold lift2, ret. cbn [bind]. rewrite E'. cbn [bind fst snd].
      split; [reflexivity | ]. split; [ | lia].
      exists x'. split; [reflexivity | ]. split; [exact D' | ].
      split; [lia | ]. split; [lia | ]. split; [ | right; lia].
      rewrite Z.pow_add_r, Z.pow_1_r by lia. rewrite <- Rx, <- V'. ring.
    - exists a. cbn [fst snd]. rewrite Z.pow_0_r.
      split; [reflexivity | ]. split; [exact Ha | ]. split; [exact Hpos | ].
      split; [lia | ]. split; [fold A; lia | left; reflexivity].
    - cbn [fst snd] in *. subst v. exists fuel, x, e. split; [exact W | ].
      rewrite py_gt_int_Zval in C by exact Dx. apply Ok_inj in C. fold u in C.
      destruct (Z.gtb_spec (Zval x) (2 * u)); [discriminate C | ].
      repeat split; try assumption; lia. }
  destruct L1 as (fuel1 & x1 & e1 & W1 & D1 & B1 & He1 & R1 & U1).
  destruct (while_terminates
              (fun '(a, _) => Ok (py_lt a (VInt 1)))
              (fun '((a, exp) : value * Z) =>
                 a <- lift2 py_mul (ret a) (ret (VInt 2)) ;; Ok (a, exp - 1))
              (fun s => exists x, fst s = VFloat x /\ double x = true /\
                                  0 < Zval x <= 2 * u /\
                                  (snd s < 0 -> Zval x < 2 * u) /\
                                  ((0 <= snd s /\ Zval x * 2 ^ snd s = A /\
                                    (snd s = 0 \/ u < Zval x)) \/
                                   (snd s <= 0 /\ Zval x = A * 2 ^ (- snd s))))
              (fun s => u - val s)) with (s := (VFloat x1, e1))
    as (fuel2 & [v e] & W2 & (x & Ev & Dx & Bx & Sx & Rx) & C).
  - intros [v e] (x & Ev & Dx & Bx & Sx & Rx). cbn [fst snd] in *. subst v.
    rewrite py_lt_int_Zval by exact Dx. rewrite Z.mul_1_l. fold u.
    destruct (Z.ltb_spec (Zval x) u) as [G | G]; [right | left; reflexivity].
    split; [reflexivity | ]. unfold val. cbn [fst]. split; [lia | ].
    destruct (double_step x Dx ltac:(fold u; lia)) as (x' & E' & D' & V').
    exists (VFloat x', e - 1). unfold lift2, ret. cbn [bind]. rewrite E'. cbn [bind fst snd].
    split; [reflexivity | ]. split; [ | lia].
    exists x'. split; [reflexivity | ]. split; [exact D' | ]. split; [lia | ].
    split; [lia | ].
    right. split.
    + destruct Rx as [(He & _ & [E0 | E0]) | (He & _)]; lia.
    + assert (Rx' : e <= 0 /\ Zval x = A * 2 ^ (- e)).
      { destruct Rx as [(He & Rx & [E0 | E0]) | Rx]; [ | lia | exact Rx].
        subst e. rewrite Z.pow_0_r, Z.mul_1_r in Rx. change (- 0) with 0.
        rewrite Z.pow_0_r. lia. }
      destruct Rx' as (He & Rx').
      replace (- (e - 1)) with (1 + - e) by lia.
      rewrite (pow2_split 1 (- e)) by lia. change (2 ^ 1) with 2. lia.
  - exists x1. cbn [fst snd]. split; [reflexivity | ]. split; [exact D1 | ].
    split; [exact B1 | ]. split; [lia | ]. left. auto.
  - cbn [fst snd] in *. subst v.
    rewrite py_lt_int_Zval in C by exact Dx. rewrite Z.mul_1_l in C. fold u in C.
    apply Ok_inj in C. destruct (Z.ltb_spec (Zval x) u) as [ | G]; [discriminate C | ].
    exists (Nat.max fuel1 fuel2), x, e.
    split; [ | split; [exact Dx | ]].
    + rewrite (while_more_fuel _ _ fuel1 (Nat.max fuel1 fuel2)), W1; cbn [bind].
      * rewrite (while_more_fuel _ _ fuel2 (Nat.max fuel1 fuel2)), W2; try reflexivity.
        -- rewrite W2. discriminate.
        -- apply Nat.le_max_r.
      * rewrite W1. discriminate.
      * apply Nat.le_max_l.
    + rewrite py_ge_int_Zval, py_le_int_Zval by exact Dx. rewrite Z.mul_1_l. fold u.
      split; [apply Z.geb_le; lia | ]. split; [apply Z.leb_le; lia | ].
      split.
      * intros He. destruct Rx as [(_ & Rx & _) | (He' & Rx)]; [exact Rx | ].
        assert (e = 0) by lia. subst e. change (- 0) with 0 in Rx.
        rewrite Z.pow_0_r in *. lia.
      * split; [ | exact Sx].
        intros He. destruct Rx as [(He' & Rx & _) | (_ & Rx)]; [ | exact Rx].
        assert (e = 0) by lia. subst e. change (- 0) with 0.
        rewrite Z.pow_0_r in *. lia.
Qed.

(** X23. For every positive finite double [a], the two loops of [ln],
    [while a > 2: a /= 2] and [while a < 1: a *= 2], end; they leave a
    reduced argument [r] with [1 <= r <= 2] and an exponent [exp] such
    that [a = r * 2^exp] exactly: no halving or doubling rounds. *)
Theorem ln_reduce_exact (a : spec_float) :
  double a = true -> py_gt (VFloat a) (VInt 0) = true ->
  exists fuel r exp,
    mlib.ln_reduce fuel (VFloat a) = Ok (VFloat r, exp) /\ double r = true /\
    py_ge (VFloat r) (VInt 1) = true /\ py_le (VFloat r) (VInt 2) = true /\
    (0 <= exp -> Zval r * 2 ^ exp = Zval a) /\
    (exp <= 0 -> Zval r = Zval a * 2 ^ (- exp)).
Proof.
  intros Ha Hpos.
  destruct (ln_reduce_returns a Ha Hpos) as (fuel & r & exp & W & D & L & U & P & N & _).
  exists fuel, r, exp. repeat split; assumption.
Qed.

Lemma ln_reduce_exact_witness :
  exists fuel r exp,
    mlib.ln_reduce fuel (VFloat tenth) = Ok (VFloat r, exp) /\ double r = true /\
    py_ge (VFloat r) (VInt 1) = true /\ py_le (VFloat r) (VInt 2) = true /\
    (0 <= exp -> Zval r * 2 ^ exp = Zval tenth) /\
    (exp <= 0 -> Zval r = Zval tenth * 2 ^ (- exp)).
Proof. apply (ln_reduce_exact tenth); reflexivity. Defined.

(** X24. For every double [a] that is a power of two below 1
    ([a * 2^k = 1] with [k >= 1]: 0.5, 0.25, ...), [ln(a)] raises
    ZeroDivisionError: the reduced argument is exactly [1.0], so
    [a -= 1] leaves [0.0] and the test [abs(y) > 1E-15] of the series
    loop evaluates [is_finite(0.0)]. *)
Theorem ln_power_of_two_raises (a : spec_float) (k : Z) :
  double a = true -> 1 <= k -> Zval a * 2 ^ k = 2 ^ 1074 ->
  exists fuel, mlib.ln fuel (VFloat a) = Raise ZeroDivisionError.
Proof.
  intros Ha Hk HA.
  assert (P : 0 < 2 ^ 1074) by (apply pow2_pos; lia).
  assert (Pk : 0 < 2 ^ (k - 1)) by (apply pow2_pos; lia).
  assert (Ek : 2 ^ k = 2 * 2 ^ (k - 1)).
  { replace k with (1 + (k - 1)) at 1 by lia. rewrite (pow2_split 1 (k - 1)) by lia.
    reflexivity. }
  assert (A0 : 0 < Zval a) by nia.
  assert (A1 : 2 * Zval a <= 2 ^ 1074) by nia.
  assert (Hpos : py_gt (VFloat a) (VInt 0) = true).
  { rewrite py_gt_int_Zval by exact Ha. apply Z.gtb_lt. lia. }
  destruct (ln_reduce_returns a Ha Hpos) as (fuel & r & exp & W & D & L & U & Rp & Rn & S).
  rewrite py_ge_int_Zval in L by exact D. rewrite py_le_int_Zval in U by exact D.
  apply Z.geb_le in L. apply Z.leb_le in U. rewrite Z.mul_1_l in L.
  assert (Hexp : exp < 0).
  { destruct (Z.lt_ge_cases exp 0) as [N | N]; [exact N | exfalso].
    specialize (Rp N). assert (0 < 2 ^ exp) by (apply pow2_pos; lia). nia. }
  specialize (Rn ltac:(lia)). specialize (S Hexp).
  assert (R1 : Zval r = 2 ^ 1074).
  { destruct (Z.lt_trichotomy (- exp) k) as [Lt | [Eq | Gt]].
    - exfalso. assert (2 * 2 ^ (- exp) <= 2 ^ k).
      { change 2 with (2 ^ 1) at 1. rewrite <- (pow2_split 1 (- exp)) by lia.
        apply Z.pow_le_mono_r; lia. }
      nia.
    - rewrite Rn, Eq. exact HA.
    - exfalso. assert (2 * 2 ^ k <= 2 ^ (- exp)).
      { change 2 with (2 ^ 1) at 1. rewrite <- (pow2_split 1 k) by lia.
        apply Z.pow_le_mono_r; lia. }
      nia. }
  assert (Er : r = one).
  { apply double_inj; [exact D | reflexivity | rewrite R1; reflexivity | lia]. }
  subst r.
  assert (W' : mlib.ln_reduce (Datatypes.S fuel) (VFloat a) = Ok (VFloat one, exp)).
  { rewrite (ln_reduce_more_fuel fuel (Datatypes.S fuel)), W; [reflexivity | | lia].
    rewrite W. discriminate. }
  exists (Datatypes.S fuel). unfold mlib.ln.
  assert (F : mlib.is_finite (VFloat a) = Ok true).
  { apply is_finite_double; [exact Ha | ].
    destruct a; try discriminate Ha; [cbn [Zval] in A0; lia | reflexivity]. }
  rewrite F.
  cbn [and_then bind]. rewrite Hpos. cbn [assert bind].
  assert (N1 : py_eq (VFloat a) (VInt 1) = false).
  { unfold py_eq. cbn [py_compare]. rewrite compare_float_int_Zval by exact Ha.
    rewrite Z.mul_1_l. destruct (Z.compare_spec (Zval a) (2 ^ 1074)); try reflexivity; lia. }
  rewrite N1, W'. cbn [bind]. reflexivity.
Qed.

Lemma ln_power_of_two_raises_witness :
  exists fuel, mlib.ln fuel (VFloat half) = Raise ZeroDivisionError.
Proof.
  apply (ln_power_of_two_raises half 1); [reflexivity | lia | vm_compute; reflexivity].
Defined.

(** * C10: [median] on a list of floats *)
















(** * C9: NaN and infinite arguments *)

(** ** The functions of [dyn] on integers

    Called with integers, the functions of [dyn] are those of [mlib]. *)

Lemma py_mod_ints (x y : Z) :
  y <> 0 -> py_mod (VInt x) (VInt y) = Ok (VInt (x mod y)).
Proof.
  intros H. cbn [py_mod]. destruct (Z.eqb_spec y 0); [contradiction | reflexivity].
Qed.

Lemma py_floordiv_ints (x y : Z) :
  y <> 0 -> py_floordiv (VInt x) (VInt y) = Ok (VInt (x / y)).
Proof.
  intros H. cbn [py_floordiv]. destruct (Z.eqb_spec y 0); [contradiction | reflexivity].
Qed.

Lemma gcd_loop_ints (fuel : nat) :
  forall x y : Z,
    while fuel (fun '(a, b) => Ok (py_ne b (VInt 0)))
      (fun '((a, b) : value * value) => r <- py_mod a b ;; Ok (b, r))
      (VInt x, VInt y)
    = (s <- while fuel (fun '(a, b) => Ok (negb (b =? 0)))
              (fun '(a, b) => Ok (b, a mod b)) (x, y) ;;
       Ok (VInt (fst s), VInt (snd s))).
Proof.
  induction fuel as [ | n IH]; intros x y; [reflexivity | ].
  cbn [while bind]. unfold py_ne. rewrite py_eq_ints.
  destruct (Z.eqb_spec y 0) as [E | E]; cbn [negb].
  - reflexivity.
  - rewrite py_mod_ints by exact E. cbn [bind]. apply IH.
Qed.

Lemma dyn_gcd_int (fuel : nat) (a b : Z) :
  dyn.gcd fuel (VInt a) (VInt b) = (r <- mlib.gcd fuel a b ;; Ok (VInt r)).
Proof.
  unfold dyn.gcd, mlib.gcd.
  destruct (assert (and_then (mlib.is_finite (VInt a)) (mlib.is_finite (VInt b))))
    as [[] | e | ]; cbn [bind]; try reflexivity.
  replace (py_lt (VInt a) (VInt 0)) with (a <? 0) by reflexivity.
  replace (py_lt (VInt b) (VInt 0)) with (b <? 0) by reflexivity.
  destruct (a <? 0), (b <? 0); cbn [bind neg ret py_neg];
    rewrite gcd_loop_ints;
    destruct (while fuel _ _ _) as [[x y] | e | ]; reflexivity.
Qed.

Lemma dyn_lcm_int (fuel : nat) (a b : Z) :
  dyn.lcm fuel (VInt a) (VInt b) = (r <- mlib.lcm fuel a b ;; Ok (VInt r)).
Proof.
  unfold dyn.lcm, mlib.lcm.
  destruct (assert (and_then (mlib.is_finite (VInt a)) (mlib.is_finite (VInt b))))
    as [[] | e | ]; cbn [bind]; try reflexivity.
  rewrite dyn_gcd_int.
  destruct (mlib.gcd fuel a b) as [g | e | ]; cbn [bind]; try reflexivity.
  rewrite py_eq_ints. destruct (Z.eqb_spec g 0) as [E | E]; [reflexivity | ].
  unfold lift2, ret. cbn [bind py_mul arith].
  replace (py_ge (VInt (a * b)) (VInt 0)) with (a * b >=? 0) by reflexivity.
  rewrite py_floordiv_ints by exact E.
  destruct (a * b >=? 0); reflexivity.
Qed.

Lemma fact_loop_ints (l : list Z) :
  forall acc : Z,
    for_each l (fun i (result : value) => lift2 py_mul (ret result) (ret (VInt i)))
      (VInt acc)
    = (r <- for_each l (fun i result => Ok (result * i)) acc ;; Ok (VInt r)).
Proof.
  induction l as [ | i l IH]; intros acc; [reflexivity | ].
  cbn [for_each bind lift2 ret py_mul arith]. apply IH.
Qed.

Lemma dyn_fact_int (a : Z) :
  dyn.fact (VInt a) = (r <- mlib.fact a ;; Ok (VInt r)).
Proof.
  unfold dyn.fact, mlib.fact.
  destruct (assert (mlib.is_finite (VInt a))) as [[] | e | ]; cbn [bind]; try reflexivity.
  apply fact_loop_ints.
Qed.

Lemma dyn_rem_int (a b : Z) :
  dyn.rem (VInt a) (VInt b) = (r <- mlib.rem a b ;; Ok (VInt r)).
Proof.
  unfold dyn.rem, mlib.rem.
  replace (py_gt (VInt b) (VInt 0)) with (b >? 0) by reflexivity.
  unfold and_then.
  destruct (mlib.is_finite (VInt a)) as [[ | ] | e | ]; cbn [bind assert]; try reflexivity.
  destruct (mlib.is_finite (VInt b)) as [[ | ] | e | ]; cbn [bind assert]; try reflexivity.
  destruct (Z.gtb_spec b 0); cbn [bind]; [ | reflexivity].
  rewrite py_mod_ints by lia. reflexivity.
Qed.

Lemma dyn_pow_int (base : value) (power : Z) :
  dyn.pow base (VInt power) = mlib.pow base power.
Proof.
  unfold dyn.pow, mlib.pow. rewrite py_eq_ints. reflexivity.
Qed.

Lemma dyn_log_int (fuel : nat) (a : value) (base : Z) :
  dyn.log fuel a (VInt base) = mlib.log fuel a base.
Proof. reflexivity. Qed.

Lemma is_prime_loop_ints (a : Z) (l : list Z) :
  Forall (fun i => i <> 0) l ->
  for_break l (fun i (_ : bool) =>
                 m <- py_mod (VInt a) (VInt i) ;;
                 Ok (py_eq m (VInt 0), py_eq m (VInt 0))) false
  = Ok (existsb (fun i => a mod i =? 0) l).
Proof.
  induction 1 as [ | i l Hi _ IH]; [reflexivity | ].
  cbn [for_break existsb]. rewrite py_mod_ints by exact Hi. cbn [bind fst snd].
  rewrite py_eq_ints. destruct (a mod i =? 0); [reflexivity | exact IH].
Qed.

Lemma dyn_is_prime_int (a : Z) : dyn.is_prime (VInt a) = mlib.is_prime a.
Proof.
  unfold dyn.is_prime, mlib.is_prime.
  destruct (assert (mlib.is_finite (VInt a))) as [[] | e | ]; cbn [bind]; try reflexivity.
  replace (py_lt (VInt a) (VInt 2)) with (a <? 2) by reflexivity.
  replace (py_gt (VInt a) (VInt 2)) with (a >? 2) by reflexivity.
  destruct (a <? 2); [reflexivity | ].
  rewrite py_mod_ints by lia. cbn [bind]. rewrite py_eq_ints.
  assert (E : (if a >? 2 then Ok (a mod 2 =? 0) else Ok false)
              = Ok ((a >? 2) && (a mod 2 =? 0))) by (destruct (a >? 2); reflexivity).
  rewrite E. cbn [bind].
  destruct ((a >? 2) && (a mod 2 =? 0)); [reflexivity | ].
  rewrite py_floordiv_ints by lia. cbn [bind py_range].
  rewrite is_prime_loop_ints; [reflexivity | ].
  apply Forall_forall. intros i Hi. apply range_In in Hi. lia.
Qed.

(** ** NaN and infinities in the arithmetic

    A NaN or an infinity on one side of [+], [-], [*], or on the left of
    [/], gives a NaN or an infinity. *)






(** ** [stddev] on a list of floats with a NaN or an infinity *)













(** ** [stddev] on any list of numbers with a NaN or an infinity

    With integers in the list the conversion of an integer to a float may
    raise OverflowError before the assertion of [sqrt] is reached. *)









(** ** The claim *)


#[local] Hint Unfold dyn.gcd dyn.lcm dyn.fact dyn.rem dyn.pow dyn.is_prime
  dyn.log : entry.


